(** * spectevol: sensor band model, vegetation indices and SED ingestion

    A shallow embedding of [spectevol/spectral_indices.py] and
    [spectevol/spectral_processing.py].

    - Python [int] is [Z]; Python [float] and NumPy [float64] are IEEE
      binary64, embedded as Rocq's primitive [float].  The arithmetic of the
      index formulas is written once, over an interface [Num], and read at
      two carriers: binary64 (what the program computes) and [Q] (the same
      formula without rounding).
    - A [dict] is an association list in insertion order (the order
      [list_available_bands] prints in).
    - A raised exception is the [Raise] arm of [result]; text sent to
      [print] is a list of lines.
    - The file system is a function from a path to the lines [readlines]
      returns, [None] standing for [FileNotFoundError]; [os.path.exists]
      and [os.listdir] are functions of the path.
    - Of [tests/main.py], the labelling of the ingested table by the
      wavelengths 350 to 2500 is embedded. *)

From Stdlib Require Import ZArith QArith Qfield List String Ascii Bool Lia Lqa.
From Stdlib Require Import Floats DecimalString.
From Stdlib Require Import Sorting.Permutation Sorting.Sorted.
Import ListNotations.

Local Open Scope string_scope.
Local Open Scope Z_scope.

(* [1e-10] has no exact binary64 value; the literal denotes the nearest one,
   as it does in Python. *)
Set Warnings "-inexact-float".

(** ** Exceptions and results *)

Inductive exn : Type :=
| ValueError (msg : string)
| KeyError (key : string)
| TypeError (msg : string)
| IndexError (msg : string).

Inductive result (A : Type) : Type :=
| Ok (a : A)
| Raise (e : exn).

Arguments Ok {A} a.
Arguments Raise {A} e.

Definition bind {A B : Type} (c : result A) (k : A -> result B) : result B :=
  match c with
  | Ok a => k a
  | Raise e => Raise e
  end.

Notation "x <- c ;; k" := (bind c (fun x => k))
  (at level 61, c at next level, right associativity).

Fixpoint mapM {A B : Type} (f : A -> result B) (l : list A) : result (list B) :=
  match l with
  | [] => Ok []
  | a :: l' => b <- f a ;; bs <- mapM f l' ;; Ok (b :: bs)
  end.

(** ** Dictionaries *)

Fixpoint dict_get {V : Type} (d : list (string * V)) (k : string) : option V :=
  match d with
  | [] => None
  | (k', v) :: d' => if String.eqb k k' then Some v else dict_get d' k
  end.

Definition keys {V : Type} (d : list (string * V)) : list string := map fst d.

(** ** Numbers

    The carrier of reflectance values with the operations the formulas use.
    [of_Z] is the conversion of an [int] operand, [eps] the literal [1e-10],
    [isnan] the test for not-a-number. *)

Class Num (F : Type) : Type := {
  of_Z : Z -> F;
  eps : F;
  isnan : F -> bool;
  add : F -> F -> F;
  sub : F -> F -> F;
  mul : F -> F -> F;
  div : F -> F -> F
}.

(** Conversion of an integer below [2^63] in magnitude to binary64. *)
Definition float_of_Z (z : Z) : float :=
  match z with
  | Z0 => PrimFloat.zero
  | Zpos _ => PrimFloat.of_uint63 (Uint63.of_Z z)
  | Zneg p => PrimFloat.opp (PrimFloat.of_uint63 (Uint63.of_Z (Zpos p)))
  end.

#[export] Instance float_Num : Num float := {
  of_Z := float_of_Z;
  eps := 1e-10%float;
  isnan := PrimFloat.is_nan;
  add := PrimFloat.add;
  sub := PrimFloat.sub;
  mul := PrimFloat.mul;
  div := PrimFloat.div
}.

(** Exact arithmetic: every value is a number.  [Qdiv] by zero is [0]; no
    statement below divides by zero at this carrier. *)
#[export] Instance Q_Num : Num Q := {
  of_Z := inject_Z;
  eps := 1 # 10000000000;
  isnan := fun _ => false;
  add := Qplus;
  sub := Qminus;
  mul := Qmult;
  div := Qdiv
}.

(** ** spectral_indices.py *)

Module SpectralIndices.

(** A band's wavelength entry: the tuple [(low, high)], or the bare integer
    the Sentinel-2 table holds ([(443)] is the integer [443]). *)
Inductive Wavelength : Type :=
| Range (low high : Z)
| Single (w : Z).

Definition BandTable : Type := list (string * Wavelength).

Definition sensors : list (string * BandTable) :=
  [ ("general",
      [ ("blue", Range 450 520); ("green", Range 521 600);
        ("red", Range 601 690); ("nir", Range 700 800) ]);
    ("landsat-8",
      [ ("aerosol", Range 435 451); ("blue", Range 452 512);
        ("green", Range 533 590); ("red", Range 636 673);
        ("nir", Range 851 879); ("swir1", Range 1566 1651);
        ("swir2", Range 2107 2294); ("cirrus", Range 1363 1384) ]);
    ("landsat-9",
      [ ("aerosol", Range 435 451); ("blue", Range 452 512);
        ("green", Range 533 590); ("red", Range 636 673);
        ("nir", Range 851 879); ("swir1", Range 1566 1651);
        ("swir2", Range 2107 2294); ("cirrus", Range 1363 1384) ]);
    ("landsat-7",
      [ ("blue", Range 450 515); ("green", Range 525 605);
        ("red", Range 630 690); ("nir", Range 775 900);
        ("swir1", Range 1550 1750); ("swir2", Range 2090 2350);
        ("pan", Range 520 900) ]);
    ("sentinel-2",
      [ ("aerosol", Single 443); ("blue", Single 490); ("green", Single 560);
        ("red", Single 665); ("red-edge", Single 705); ("nir", Single 842);
        ("nira", Single 865); ("nir1", Single 740); ("nir2", Single 783);
        ("water_vapour", Single 945); ("cirrus", Single 1375);
        ("swir1", Single 1610); ("swir2", Single 2190) ]);
    ("planet",
      [ ("coastal", Range 431 452); ("blue", Range 465 515);
        ("green1", Range 513 549); ("green", Range 547 583);
        ("yellow", Range 600 620); ("red", Range 650 680);
        ("red-edge", Range 697 713); ("nir", Range 845 885) ]) ].

(** [sensors.get(self.sensor, None)] *)
Definition get_sensor_bands (sensor : string) : option BandTable :=
  dict_get sensors sensor.

(** [int((wavelength[0] + wavelength[1]) / 2)]: the true division by two of
    an integer below [2^53] is exact, and [int] truncates towards zero. *)
Definition center (low high : Z) : Z := Z.quot (low + high) 2.

(** One item of the dict comprehension of the non-Sentinel branch;
    subscripting an [int] raises [TypeError]. *)
Definition center_item (item : string * Wavelength) : result (string * Wavelength) :=
  match item with
  | (band, Range low high) => Ok (band, Single (center low high))
  | (band, Single _) => Raise (TypeError "'int' object is not subscriptable")
  end.

Definition get_centerband (sensor : string) (bands : option BandTable)
  : result BandTable :=
  match bands with
  | None | Some [] =>
      Raise (ValueError ("Sensor '" ++ sensor ++ "' not found in database."))
  | Some items =>
      if String.eqb sensor "sentinel-2" then Ok items
      else mapM center_item items
  end.

Record t : Type := mk {
  sensor : string;
  method : string;
  bands : option BandTable;
  centerbands : BandTable
}.

Definition __init__ (sensor method : string) : result t :=
  if negb (existsb (String.eqb method) ["centerband"; "average"]) then
    Raise (ValueError "Method must be either 'centerband' or 'average'.")
  else if String.eqb sensor "sentinel-2" && String.eqb method "average" then
    Raise (ValueError "Sentinel-2 only works with centerband method")
  else
    let bands := get_sensor_bands sensor in
    centerbands <- get_centerband sensor bands ;;
    Ok (mk sensor method bands centerbands).

(** Checks on a catalogue entry.  Bounds are wavelengths in nanometres:
    never negative, [low <= high]. *)
Definition well_formed (w : Wavelength) : bool :=
  match w with
  | Range low high => (0 <=? low) && (low <=? high)
  | Single d => 0 <=? d
  end.

(** Sentinel-2 holds bare integers, every other sensor holds tuples. *)
Definition shape_matches (sensor : string) (w : Wavelength) : bool :=
  match w with
  | Range _ _ => negb (String.eqb sensor "sentinel-2")
  | Single _ => String.eqb sensor "sentinel-2"
  end.

Definition entry_ok (sensor : string) (item : string * Wavelength) : bool :=
  well_formed (snd item) && shape_matches sensor (snd item).

(** *** Reflectance tables

    A [pandas.DataFrame] with integer column labels: the labels, and one list
    of cells per row (a row has one cell per label). *)

Section Frames.
Context {F : Type} {num : Num F}.

Record DataFrame : Type := {
  columns : list Z;
  rows : list (list F)
}.

(** [numpy]'s sum of the cells of a row, [0] for no cell: the cells added
    one after the other, in the order of the columns.  At the exact carrier
    the order is immaterial.  At binary64 it is the order numpy follows on
    fewer than eight cells; from eight cells on numpy may pair the cells
    (which pairs depends on how the table lies in memory), and the sum can
    differ in its last place.  Statements about binary64 means are made for
    selections of fewer than eight cells, none of them a negative zero;
    statements about longer selections are made at the exact carrier. *)
Definition sum (cells : list F) : F :=
  match cells with
  | [] => of_Z 0
  | c :: cells' => fold_left add cells' c
  end.

(** [.mean(axis=1)] on one row, as pandas computes it ([skipna=True]): the
    sum of the cells, a not-a-number cell counting as [0], over the number
    of cells that are numbers. *)
Definition fillna0 (c : F) : F := if isnan c then of_Z 0 else c.

Definition count (cells : list F) : nat :=
  List.length (filter (fun c => negb (isnan c)) cells).

Definition mean (cells : list F) : F :=
  div (sum (map fillna0 cells)) (of_Z (Z.of_nat (count cells))).

(** [df.loc[:, mask]] on one row: the cells under a true mask entry. *)
Definition loc_mask (mask : list bool) (row : list F) : list F :=
  map snd (filter fst (combine mask row)).

Fixpoint index_of (label : Z) (cols : list Z) : option nat :=
  match cols with
  | [] => None
  | c :: cols' =>
      if Z.eqb label c then Some O
      else option_map S (index_of label cols')
  end.

Definition repr_Z (z : Z) : string := NilZero.string_of_int (Z.to_int z).

(** [df[key]]: the column labelled [key]; a key that is no label raises
    [KeyError] (a tuple never is one, the labels being integers).  The
    labels of a reflectance table are distinct wavelengths.  On a label that
    occurs twice pandas returns a frame of the columns that carry it, which
    is outside the model: the statements that resolve a band through
    [getitem] are made for tables with distinct labels. *)
Definition getitem (df : DataFrame) (key : Wavelength) : result (list F) :=
  match key with
  | Single w =>
      match index_of w (columns df) with
      | Some i => Ok (map (fun row => nth i row (of_Z 0)) (rows df))
      | None => Raise (KeyError (repr_Z w))
      end
  | Range low high =>
      Raise (KeyError ("(" ++ repr_Z low ++ ", " ++ repr_Z high ++ ")"))
  end.

(** The function returns [None] when [method] is neither literal. *)
Definition _get_band_values (self : t) (df : DataFrame) (band_name : string)
  : result (option (list F)) :=
  if String.eqb (method self) "centerband" then
    match dict_get (centerbands self) band_name with
    | None => Raise (KeyError band_name)
    | Some key => values <- getitem df key ;; Ok (Some values)
    end
  else if String.eqb (method self) "average" then
    match bands self with
    | None => Raise (TypeError "'NoneType' object is not subscriptable")
    | Some items =>
        match dict_get items band_name with
        | None => Raise (KeyError band_name)
        | Some (Single _) => Raise (TypeError "'int' object is not subscriptable")
        | Some (Range low high) =>
            let mask :=
              map (fun c => (c >=? low) && (c <=? high)) (columns df) in
            Ok (Some (map (fun row => mean (loc_mask mask row)) (rows df)))
        end
    end
  else Ok None.

(** An operand of the row-wise arithmetic; [None] is not one. *)
Definition operand (v : option (list F)) : result (list F) :=
  match v with
  | Some values => Ok values
  | None => Raise (TypeError "unsupported operand type(s): 'NoneType'")
  end.

Definition rowwise2 (f : F -> F -> F) (a b : list F) : list F :=
  map (fun ab => f (fst ab) (snd ab)) (combine a b).

Definition rowwise3 (f : F -> F -> F -> F) (a b c : list F) : list F :=
  map (fun abc => f (fst (fst abc)) (snd (fst abc)) (snd abc))
      (combine (combine a b) c).

(** [(nir - red) / (nir + red + 1e-10)] *)
Definition ndvi_formula (nir red : F) : F :=
  div (sub nir red) (add (add nir red) eps).

Definition ndvi (self : t) (df : DataFrame) (nir : string) : result (list F) :=
  nir <- _get_band_values self df nir ;;
  red <- _get_band_values self df "red" ;;
  nir <- operand nir ;;
  red <- operand red ;;
  Ok (rowwise2 ndvi_formula nir red).

(** [G * ((nir - red) / (nir + C1 * red - C2 * blue + L + 1e-10))];
    the defaults are [L=1, C1=6, C2=7.5, G=2.5]. *)
Definition evi_formula (L C1 C2 G : F) (nir red blue : F) : F :=
  mul G (div (sub nir red)
             (add (add (sub (add nir (mul C1 red)) (mul C2 blue)) L) eps)).

Definition evi (self : t) (df : DataFrame) (L C1 C2 G : F) : result (list F) :=
  nir <- _get_band_values self df "nir" ;;
  red <- _get_band_values self df "red" ;;
  blue <- _get_band_values self df "blue" ;;
  nir <- operand nir ;;
  red <- operand red ;;
  blue <- operand blue ;;
  Ok (rowwise3 (evi_formula L C1 C2 G) nir red blue).

(** [((nir - red) / (nir + red + L + 1e-10)) * (1 + L)]; default [L=0.5]. *)
Definition savi_formula (L : F) (nir red : F) : F :=
  mul (div (sub nir red) (add (add (add nir red) L) eps)) (add (of_Z 1) L).

Definition savi (self : t) (df : DataFrame) (L : F) : result (list F) :=
  nir <- _get_band_values self df "nir" ;;
  red <- _get_band_values self df "red" ;;
  nir <- operand nir ;;
  red <- operand red ;;
  Ok (rowwise2 (savi_formula L) nir red).

(** [(nir / green) - 1] *)
Definition gci_formula (nir green : F) : F :=
  sub (div nir green) (of_Z 1).

Definition gci (self : t) (df : DataFrame) : result (list F) :=
  nir <- _get_band_values self df "nir" ;;
  green <- _get_band_values self df "green" ;;
  nir <- operand nir ;;
  green <- operand green ;;
  Ok (rowwise2 gci_formula nir green).

(** The selection the [average] policy is specified by: the cells of a row
    whose column label lies in the closed interval [[low, high]]. *)
Definition in_interval (low high : Z) (labelled : Z * F) : bool :=
  (low <=? fst labelled) && (fst labelled <=? high).

Definition cells_in_interval (low high : Z) (cols : list Z) (row : list F)
  : list (Z * F) :=
  filter (in_interval low high) (combine cols row).

(** The arithmetic mean: the sum over the number of cells. *)
Definition arithmetic_mean (cells : list F) : F :=
  div (sum cells) (of_Z (Z.of_nat (List.length cells))).


(** The cells that are numbers. *)
Definition numbers (cells : list F) : list F :=
  filter (fun c => negb (isnan c)) cells.

End Frames.

Arguments DataFrame F : clear implicits.



(** [msavi] takes a square root, which only the binary64 carrier has:
    [(2 * nir + 1 - np.sqrt((2 * nir + 1) ** 2 - 8 * (nir - red))) / 2].
    The power [** 2] of a float64 array is the product of the operand with
    itself. *)
Definition msavi_radicand (nir red : float) : float :=
  ((2 * nir + 1) * (2 * nir + 1) - 8 * (nir - red))%float.

Definition msavi_formula (nir red : float) : float :=
  ((2 * nir + 1 - PrimFloat.sqrt (msavi_radicand nir red)) / 2)%float.

Definition msavi (self : t) (df : DataFrame float) : result (list float) :=
  nir <- _get_band_values self df "nir" ;;
  red <- _get_band_values self df "red" ;;
  nir <- operand nir ;;
  red <- operand red ;;
  Ok (rowwise2 msavi_formula nir red).

End SpectralIndices.

(** ** spectral_processing.py *)

Module SpectralProcessing.

(** *** Strings and paths

    Text is a sequence of ASCII characters. *)

Definition tab : ascii := ascii_of_nat 9.
Definition newline : string := String (ascii_of_nat 10) EmptyString.

(** The ASCII characters [str.isspace] holds of. *)
Definition is_space (c : ascii) : bool :=
  let k := nat_of_ascii c in
  ((9 <=? k) && (k <=? 13) || (28 <=? k) && (k <=? 32))%nat.

(** [s.rstrip()] *)
Fixpoint rstrip (s : string) : string :=
  match s with
  | EmptyString => EmptyString
  | String c s' =>
      match rstrip s' with
      | EmptyString => if is_space c then EmptyString else String c EmptyString
      | kept => String c kept
      end
  end.

(** [s.split(sep)] for a separator of one character. *)
Fixpoint split (sep : ascii) (s : string) : list string :=
  match s with
  | EmptyString => [EmptyString]
  | String c s' =>
      if Ascii.eqb c sep then EmptyString :: split sep s'
      else
        match split sep s' with
        | [] => [String c EmptyString]
        | field :: fields => String c field :: fields
        end
  end.

Fixpoint ends_with_sep (s : string) : bool :=
  match s with
  | EmptyString => false
  | String c EmptyString => Ascii.eqb c "/"%char
  | String _ s' => ends_with_sep s'
  end.

(** [os.path.join(a, b)] on a POSIX system. *)
Definition path_join (a b : string) : string :=
  if String.prefix "/" b then b
  else if String.eqb a "" || ends_with_sep a then a ++ b
  else a ++ "/" ++ b.

Definition repr_nat (k : nat) : string := NilZero.string_of_uint (Nat.to_uint k).

(** The number of wavelengths of a spectrum, 350 to 2500 nm. *)
Definition wavelengths : nat := 2151.

(** [readlines] of the file at a path; [None] when [open] raises
    [FileNotFoundError], the one exception [view] and [get_data] catch.
    The other failures of [open] and [readlines] (a directory, a missing
    permission, a byte that cannot be decoded) are outside the model: every
    statement is about files that can be read or do not exist. *)
Definition FileSystem : Type := string -> option (list string).

Section Pipeline.
Context {F : Type}.

(** Python's [float] of a string ([None]: [ValueError]), NumPy's rounding to
    three decimals of one cell, and
    [scipy.signal.savgol_filter(data, window_length, polyorder, deriv=0,
    delta=1.0, axis=-1, mode='interp', cval=0.0)]: library code, taken as
    given. *)
Variable py_float : string -> option F.
Variable round3 : F -> F.
Variable savgol_filter : list (list F) -> Z -> Z -> result (list (list F)).

Definition Table : Type := list (list F).

Record t : Type := mk {
  path : string;
  files : list string;
  data : option Table;
  data_filtered : option Table
}.

Definition __init__ (path : string) : t := mk path [] None None.

(** What a method leaves behind: the object, the lines printed, and the value
    returned or the exception raised. *)
Record Outcome (A : Type) : Type := {
  self' : t;
  stdout : list string;
  ret : result A
}.

Arguments self' {A} _.
Arguments stdout {A} _.
Arguments ret {A} _.

(** [float(textline.rstrip().split("\t")[1])] *)
Definition parse_line (textline : string) : result F :=
  match nth_error (split tab (rstrip textline)) 1 with
  | None => Raise (IndexError "list index out of range")
  | Some field =>
      match py_float field with
      | Some v => Ok v
      | None => Raise (ValueError ("could not convert string to float: " ++ field))
      end
  end.

(** The loop over [enumerate(contents)].  [n] is an [int] here ([int(n)] has
    succeeded), so the branch under [n is None] is never taken. *)
Fixpoint read_lines (n nline : Z) (contents : list string) (data : list F)
  : result (list F) :=
  match contents with
  | [] => Ok data
  | textline :: contents' =>
      if nline >=? n then
        v <- parse_line textline ;;
        read_lines n (nline + 1) contents' (data ++ [v])
      else read_lines n (nline + 1) contents' data
  end.

Definition missing_message (file_path : string) : string :=
  newline ++ "Error: The file '" ++ file_path ++ "' does not exist.".

(** The loop over [files]: only [FileNotFoundError] is caught. *)
Fixpoint read_files (fs : FileSystem) (dir : string) (n : Z)
  (files : list string) (data : list F) (printed : list string)
  : list string * result (list F) :=
  match files with
  | [] => (printed, Ok data)
  | file :: files' =>
      let file_path := path_join dir file in
      match fs file_path with
      | None =>
          read_files fs dir n files' data (printed ++ [missing_message file_path])
      | Some contents =>
          match read_lines n 0 contents data with
          | Ok data' => read_files fs dir n files' data' printed
          | Raise e => (printed, Raise e)
          end
      end
  end.

Fixpoint take_rows (k width : nat) (flat : list F) : Table :=
  match k with
  | O => []
  | S k' => firstn width flat :: take_rows k' width (skipn width flat)
  end.

(** [np.reshape(flat, (k, width))] *)
Definition reshape (flat : list F) (k width : nat) : result Table :=
  if Nat.eqb (k * width) (List.length flat) then Ok (take_rows k width flat)
  else
    Raise (ValueError ("cannot reshape array of size "
                       ++ repr_nat (List.length flat) ++ " into shape ("
                       ++ repr_nat k ++ "," ++ repr_nat width ++ ")")).

(** [self.data = array] and [self.data_filtered = filtered] *)
Definition set_data (self : t) (array : Table) : t :=
  mk (path self) (files self) (Some array) (data_filtered self).

Definition set_data_filtered (self : t) (filtered : Table) : t :=
  mk (path self) (files self) (data self) (Some filtered).

Definition get_data (self : t) (fs : FileSystem) (files : list string) (n : Z)
  : Outcome (option Table) :=
  let loaded := read_files fs (path self) n files [] [] in
  match snd loaded with
  | Raise e => {| self' := self; stdout := fst loaded; ret := Raise e |}
  | Ok [] =>
      {| self' := self;
         stdout := fst loaded ++ ["No valid data found."];
         ret := Ok None |}
  | Ok flat =>
      match reshape flat (List.length flat / wavelengths) wavelengths with
      | Raise e => {| self' := self; stdout := fst loaded; ret := Raise e |}
      | Ok array =>
          {| self' := set_data self array;
             stdout :=
               fst loaded
               ++ [ newline ++ "Files were successfully loaded!";
                    "The dataset has " ++ repr_nat (List.length array)
                    ++ " rows and " ++ repr_nat wavelengths ++ " columns." ];
             ret := Ok (Some (map (map round3) array)) |}
      end
  end.

Definition smooth_data (self : t) (table : Table) (window_length polyorder : Z)
  : Outcome Table :=
  match savgol_filter table window_length polyorder with
  | Raise e => {| self' := self; stdout := []; ret := Raise e |}
  | Ok filtered =>
      {| self' := set_data_filtered self filtered;
         stdout := ["Data successfully smoothed!"];
         ret := Ok filtered |}
  end.

(** *** The ingestion as the specification words it *)

(** The values a file contributes: the header lines skipped, every line after
    them parsed. *)
Definition file_values (n : Z) (contents : list string) : result (list F) :=
  mapM parse_line (skipn (Z.to_nat n) contents).

Definition exists_file (fs : FileSystem) (dir file : string) : bool :=
  match fs (path_join dir file) with
  | Some _ => true
  | None => false
  end.

(** The values a batch contributes: those of its files that exist, in the
    order of the list. *)
Fixpoint batch_values (fs : FileSystem) (dir : string) (n : Z)
  (files : list string) : result (list F) :=
  match files with
  | [] => Ok []
  | file :: files' =>
      match fs (path_join dir file) with
      | None => batch_values fs dir n files'
      | Some contents =>
          vals <- file_values n contents ;;
          rest <- batch_values fs dir n files' ;;
          Ok (vals ++ rest)%list
      end
  end.

(** The files of a batch that exist. *)
Definition present (fs : FileSystem) (dir : string) (files : list string)
  : list string :=
  filter (exists_file fs dir) files.

End Pipeline.

Arguments Outcome F A : clear implicits.
Arguments self' {F A} _.
Arguments stdout {F A} _.
Arguments ret {F A} _.

(** *** Listing and viewing *)

(** [s.lstrip()] and [s.strip()] *)
Fixpoint lstrip (s : string) : string :=
  match s with
  | EmptyString => EmptyString
  | String c s' => if is_space c then lstrip s' else s
  end.

Definition strip (s : string) : string := lstrip (rstrip s).

(** [s.endswith(suffix)] *)
Fixpoint endswith (suffix s : string) : bool :=
  String.eqb s suffix
  || match s with
     | EmptyString => false
     | String _ s' => endswith suffix s'
     end.

(** [sorted] on a list of [str]: ascending, strings compared character by
    character by code.  The order is total and two strings that compare
    equal are the same string, so the sorted list does not depend on the
    algorithm; it is built here by insertion. *)
Fixpoint insert_sorted (x : string) (l : list string) : list string :=
  match l with
  | [] => [x]
  | y :: l' => if String.leb x y then x :: l else y :: insert_sorted x l'
  end.

Definition sorted (l : list string) : list string :=
  fold_right insert_sorted [] l.

Section Listing.
Context {F : Type}.

(** [os.path.exists] and [os.listdir]: the operating system, taken as
    given.  [os.listdir] returns the entries in no particular order, and
    raises on a path that is no directory. *)
Variable path_exists : string -> bool.
Variable listdir : string -> result (list string).

(** [self.files = found] *)
Definition set_files (self : t (F := F)) (found : list string) : t (F := F) :=
  mk (path self) found (data self) (data_filtered self).

Definition get_sedfiles (self : t (F := F)) : Outcome F (list string) :=
  if negb (path_exists (path self)) then
    {| self' := self;
       stdout := ["Error: The path '" ++ path self ++ "' does not exist."];
       ret := Ok [] |}
  else
    match listdir (path self) with
    | Raise e => {| self' := self; stdout := []; ret := Raise e |}
    | Ok entries =>
        let found := sorted (filter (endswith ".sed") entries) in
        {| self' := set_files self found;
           stdout :=
             match found with
             | [] => ["No .sed files found in '" ++ path self ++ "'."]
             | _ :: _ =>
                 [ newline ++ "Files were successfully read!";
                   repr_nat (List.length found) ++ " .sed files were found." ]
             end;
           ret := Ok found |}
    end.

(** The loop of [view] over [enumerate(contents)]; [print(nline, text)]
    writes the two separated by a space.  [n] is [None] or an [int]. *)
Fixpoint view_lines (n : option Z) (nline : nat) (contents : list string)
  : list string :=
  match contents with
  | [] => []
  | textline :: contents' =>
      match n with
      | None =>
          (repr_nat nline ++ " " ++ strip textline)
          :: view_lines n (S nline) contents'
      | Some k =>
          if Z.of_nat nline <=? k then
            (repr_nat nline ++ " " ++ rstrip textline)
            :: view_lines n (S nline) contents'
          else view_lines n (S nline) contents'
      end
  end.

Definition view (self : t (F := F)) (fs : FileSystem) (file : string)
  (n : option Z) : Outcome F unit :=
  let file_path := path_join (path self) file in
  match fs file_path with
  | Some contents =>
      {| self' := self; stdout := view_lines n 0 contents; ret := Ok tt |}
  | None =>
      {| self' := self; stdout := [missing_message file_path]; ret := Ok tt |}
  end.

End Listing.

End SpectralProcessing.

(** ** tests/main.py *)

Module Main.
Import SpectralIndices.

(** [range(start, start + count)] *)
Definition range (start : Z) (count : nat) : list Z :=
  map (fun k => start + Z.of_nat k) (seq 0 count).

(** [df = pd.DataFrame(data); df.columns = range(350, 2501)]: the table of
    the ingestion, its columns labelled by wavelength.  The assignment
    raises [ValueError] unless the rows have 2151 cells.  The rows of an
    array have one width, the one the message reports; a table of the
    ingestion has at least one row. *)
Definition labelled {F : Type} (data : list (list F)) : result (DataFrame F) :=
  if forallb (fun row => Nat.eqb (List.length row) SpectralProcessing.wavelengths)
             data
  then Ok {| columns := range 350 SpectralProcessing.wavelengths; rows := data |}
  else
    Raise (ValueError
             ("Length mismatch: Expected axis has "
              ++ SpectralProcessing.repr_nat (List.length (hd [] data))
              ++ " elements, new values have "
              ++ SpectralProcessing.repr_nat SpectralProcessing.wavelengths
              ++ " elements")).

End Main.

(** ** Concrete inputs *)

Module Examples.
Import SpectralIndices.

(** [SpectralIndices("general", method="average")] and
    [SpectralIndices("general")], as the constructor builds them. *)
Definition general_average : SpectralIndices.t :=
  SpectralIndices.mk "general" "average" (get_sensor_bands "general")
    [("blue", Single 485); ("green", Single 560);
     ("red", Single 645); ("nir", Single 750)].

Definition general_centerband : SpectralIndices.t :=
  SpectralIndices.mk "general" "centerband" (get_sensor_bands "general")
    [("blue", Single 485); ("green", Single 560);
     ("red", Single 645); ("nir", Single 750)].

(** One sample measured at 350 and 351 nm only: no column in the blue
    interval [450, 520]. *)
Definition frame_uv : DataFrame float :=
  {| columns := [350; 351]; rows := [[0.5; 0.25]%float] |}.

(** One sample with the two ends of the blue interval and one column
    outside it. *)
Definition frame_blue_ends : DataFrame float :=
  {| columns := [449; 450; 520]; rows := [[8; 1; 2]%float] |}.

(** One sample at the red and near-infrared centres of the general sensor,
    with no red reflectance and a near-infrared value of [1e10]. *)
Definition frame_bright : DataFrame float :=
  {| columns := [645; 750]; rows := [[0; 1e10]%float] |}.

(** A SED file: 27 header lines, then one line per wavelength. *)
Definition sed_line : string :=
  "350" ++ String SpectralProcessing.tab ("0.5" ++ SpectralProcessing.newline).

Definition sed_file (data_lines : nat) : list string :=
  repeat ("Comment: header" ++ SpectralProcessing.newline) 27
  ++ repeat sed_line data_lines.

(** A directory [data] holding the complete spectrum [a.sed] and the
    spectrum [short.sed], cut after 2150 data lines. *)
Definition data_directory : SpectralProcessing.FileSystem :=
  fun file_path =>
    if String.eqb file_path "data/a.sed" then Some (sed_file 2151)
    else if String.eqb file_path "data/short.sed" then Some (sed_file 2150)
    else None.

(** A reading of [float] that knows the one value the files above hold. *)
Definition float_of_half (field : string) : option float :=
  if String.eqb field "0.5" then Some 0.5%float else None.

(** Rounding to three decimals leaves [0.5] as it is. *)
Definition round3_of_half (v : float) : float := v.

Definition process : SpectralProcessing.t (F := float) :=
  SpectralProcessing.__init__ "data".

(** The only path that exists, and the entries [os.listdir] gives for it,
    in the order the system happens to return them. *)
Definition data_exists (dir : string) : bool := String.eqb dir "data".

Definition data_listing (dir : string) : result (list string) :=
  Ok ["short.sed"; "notes.txt"; "a.sed"].

(** The entries once [short.sed] is removed. *)
Definition tidy_listing (dir : string) : result (list string) :=
  Ok ["notes.txt"; "a.sed"].

(** The directory [data] with one more spectrum, [blank.sed], which ends in
    an empty line after its first data line. *)
Definition blank_directory : SpectralProcessing.FileSystem :=
  fun file_path =>
    if String.eqb file_path "data/blank.sed"
    then Some (List.app (sed_file 1) [SpectralProcessing.newline])
    else data_directory file_path.

(** The directory [data] with another header in [a.sed]. *)
Definition retitled_directory : SpectralProcessing.FileSystem :=
  fun file_path =>
    if String.eqb file_path "data/a.sed"
    then Some (List.app (repeat ("Version: 2" ++ SpectralProcessing.newline) 27)
                        (repeat sed_line 2151))
    else data_directory file_path.

(** A table of one spectrum. *)
Definition one_spectrum : list (list float) := [repeat 0.5%float 2151].

(** One sample with three columns in the blue interval, the first cell
    missing. *)
Definition frame_gap : DataFrame float :=
  {| columns := [450; 485; 520]; rows := [[nan; 1; 2]%float] |}.

(** [frame_blue_ends] with exact numbers. *)
Definition frame_exact : DataFrame Q :=
  {| columns := [449; 450; 520]; rows := [[8 # 1; 1 # 1; 2 # 1]%Q] |}.

(** Samples at the red and near-infrared centres of the general sensor: one
    with a negative red value, and one with a positive one. *)
Definition frame_negative_red : DataFrame float :=
  {| columns := [645; 750]; rows := [[-1; 0.5]%float; [0.25; 0.5]%float] |}.

(** Samples at the green and near-infrared centres of the general sensor,
    the first without green reflectance. *)
Definition frame_no_green : DataFrame float :=
  {| columns := [560; 750]; rows := [[0; 1]%float; [0.5; 1]%float] |}.

End Examples.

(** ** Values of binary64 numbers

    What the bounds on the binary64 indices are proved with.  A finite number
    of the format is a mantissa [m] and an exponent [e], of value [m * 2^e];
    [scaled m e] is that value times [2^2200], an integer for every exponent
    met in the arithmetic of the format. *)

Definition scaled (m e : Z) : Z := m * 2 ^ (e + 2200).
Arguments scaled : simpl never.

(** A shift record that has lost no bit. *)
Definition exact_record (mrs : shr_record) : Prop :=
  shr_r mrs = false /\ shr_s mrs = false.

(** The shift [shr_fexp] applies: by [n] bits when [n] is positive. *)
Definition shift_of (m e : Z) : Z := Z.max (fexp prec emax (Zdigits2 m + e) - e) 0.

(** Canonical representation of a positive finite number. *)
Definition canonical (m e : Z) : Prop :=
  0 < m /\ e = fexp prec emax (Zdigits2 m + e).

(** The magnitude of a number, the numbers (zeros and finite numbers), and
    those that are not negative. *)
Definition magnitude (x : spec_float) : Z :=
  match x with
  | S754_finite _ m e => scaled (Zpos m) e
  | _ => 0
  end.

Definition is_number (x : spec_float) : bool :=
  match x with
  | S754_zero _ | S754_finite _ _ _ => true
  | _ => false
  end.

Definition not_negative (x : spec_float) : bool :=
  match x with
  | S754_zero _ | S754_finite false _ _ => true
  | _ => false
  end.


(** * Properties *)

(** ** Results and dictionaries *)

Lemma bind_Ok_inv {A B : Type} (c : result A) (k : A -> result B) (b : B) :
  bind c k = Ok b -> exists a, c = Ok a /\ k a = Ok b.
Proof.
  destruct c as [a | e]; simpl; intros Hk; [ | discriminate ].
  exists a. split; [ reflexivity | exact Hk ].
Qed.

Lemma dict_get_In {V : Type} (d : list (string * V)) (k : string) (v : V) :
  dict_get d k = Some v -> In (k, v) d.
Proof.
  induction d as [ | [k' v'] d IH ]; simpl; [ discriminate | ].
  destruct (String.eqb_spec k k') as [-> | _].
  - intros [= ->]. left. reflexivity.
  - intros Hget. right. apply IH, Hget.
Qed.

(** ** The sensor catalogue *)

Section Catalogue.
Import SpectralIndices.

Lemma sensors_checked :
  forallb (fun entry => forallb (entry_ok (fst entry)) (snd entry)) sensors = true.
Proof. vm_compute. reflexivity. Qed.

Lemma catalogue_entry (sensor band : string) (items : BandTable) (w : Wavelength) :
  get_sensor_bands sensor = Some items ->
  dict_get items band = Some w ->
  well_formed w = true /\ shape_matches sensor w = true.
Proof.
  intros Hs Hb. apply dict_get_In in Hs. apply dict_get_In in Hb.
  pose proof sensors_checked as Hall.
  rewrite forallb_forall in Hall. specialize (Hall _ Hs). simpl in Hall.
  rewrite forallb_forall in Hall. specialize (Hall _ Hb).
  unfold entry_ok in Hall. simpl in Hall.
  apply andb_true_iff in Hall. exact Hall.
Qed.

Lemma catalogue_nonempty (sensor : string) (items : BandTable) :
  get_sensor_bands sensor = Some items -> items <> [].
Proof.
  unfold get_sensor_bands, sensors. simpl.
  repeat (destruct (String.eqb sensor _); [ intros [= <-]; discriminate | ]).
  discriminate.
Qed.

(** The truncating halving is the floor on a sum that is not negative. *)
Lemma center_floor (low high : Z) :
  0 <= low + high -> center low high = (low + high) / 2.
Proof. intros Hsum. unfold center. apply Z.quot_div_nonneg; lia. Qed.

Lemma mapM_center_item (items centers : BandTable) :
  mapM center_item items = Ok centers ->
  keys centers = keys items /\
  forall band low high,
    dict_get items band = Some (Range low high) ->
    dict_get centers band = Some (Single (center low high)).
Proof.
  revert centers.
  induction items as [ | [name w] items IH ]; simpl; intros centers Hm.
  - injection Hm as <-. split; [ reflexivity | discriminate ].
  - destruct w as [lo hi | d]; simpl in Hm; [ | discriminate ].
    apply bind_Ok_inv in Hm as (rest & Hrest & Hc).
    injection Hc as <-.
    destruct (IH _ Hrest) as [Hkeys Hget].
    split; [ simpl; f_equal; exact Hkeys | ].
    intros band low high. simpl.
    destruct (String.eqb band name).
    + intros [= -> ->]. reflexivity.
    + apply Hget.
Qed.

(** What a successful construction has established. *)
Lemma init_inv (name how : string) (self : t) :
  __init__ name how = Ok self ->
  sensor self = name /\ method self = how /\
  bands self = get_sensor_bands name /\
  get_centerband name (get_sensor_bands name) = Ok (centerbands self) /\
  (how = "centerband" \/ how = "average") /\
  (name = "sentinel-2" -> how <> "average").
Proof.
  unfold __init__. simpl.
  destruct (String.eqb_spec how "centerband") as [Hc | Hc];
    [ | destruct (String.eqb_spec how "average") as [Ha | Ha] ]; simpl;
    try discriminate.
  - subst how. rewrite andb_false_r.
    intros Hb. apply bind_Ok_inv in Hb as (cb & Hcb & [= <-]). simpl.
    repeat split; auto; intros; congruence.
  - subst how. rewrite andb_true_r.
    destruct (String.eqb_spec name "sentinel-2") as [Hs | Hs]; [ discriminate | ].
    intros Hb. apply bind_Ok_inv in Hb as (cb & Hcb & [= <-]). simpl.
    repeat split; auto; intros; congruence.
Qed.

Lemma init_bands (name how : string) (self : t) :
  __init__ name how = Ok self ->
  exists items, bands self = Some items /\ get_sensor_bands name = Some items.
Proof.
  intros Hinit. apply init_inv in Hinit as (_ & _ & Hb & Hcb & _).
  destruct (get_sensor_bands name) as [items | ] eqn:Hs; [ | discriminate ].
  exists items. split; [ exact Hb | reflexivity ].
Qed.

End Catalogue.

(** ** Construction of the index engine *)

Section Construction.
Import SpectralIndices.

(** C2. The centerband map stored by the constructor is the one
    [get_centerband] derives from the sensor's bands, and it has exactly the
    bands of the sensor; for a sensor other than Sentinel-2 every band is an
    interval [(low, high)] and its entry is [floor((low + high) / 2)]; for
    Sentinel-2 every band is a discrete wavelength and its entry is that
    wavelength. *)
Theorem centerband_map_derived (name how : string) (self : t) :
  __init__ name how = Ok self ->
  exists items,
    bands self = Some items /\
    get_centerband name (bands self) = Ok (centerbands self) /\
    keys (centerbands self) = keys items /\
    (name <> "sentinel-2" ->
     forall band w, dict_get items band = Some w ->
       exists low high,
         w = Range low high /\
         dict_get (centerbands self) band = Some (Single ((low + high) / 2))) /\
    (name = "sentinel-2" ->
     forall band w, dict_get items band = Some w ->
       exists d, w = Single d /\ dict_get (centerbands self) band = Some (Single d)).
Proof.
  intros Hinit.
  destruct (init_bands _ _ _ Hinit) as (items & Hb & Hs).
  apply init_inv in Hinit as (_ & _ & _ & Hcb & _).
  exists items. split; [ exact Hb | ].
  split; [ rewrite Hb, <- Hs; exact Hcb | ].
  rewrite Hs in Hcb.
  pose proof (catalogue_nonempty _ _ Hs) as Hne.
  unfold get_centerband in Hcb.
  destruct items as [ | item items ]; [ contradiction | ].
  destruct (String.eqb_spec name "sentinel-2") as [Hn | Hn].
  - injection Hcb as <-. split; [ reflexivity | ].
    split; [ intros Hn'; contradiction | ].
    intros _ band w Hw.
    destruct (catalogue_entry _ _ _ _ Hs Hw) as [_ Hshape].
    destruct w as [low high | d]; simpl in Hshape.
    + subst name. discriminate.
    + exists d. split; [ reflexivity | exact Hw ].
  - apply mapM_center_item in Hcb as [Hkeys Hget].
    split; [ exact Hkeys | ].
    split; [ | intros Hn'; contradiction ].
    intros _ band w Hw.
    destruct (catalogue_entry _ _ _ _ Hs Hw) as [Hwf Hshape].
    destruct w as [low high | d]; simpl in Hshape, Hwf.
    + exists low, high. split; [ reflexivity | ].
      rewrite (Hget _ _ _ Hw). rewrite center_floor; [ reflexivity | lia ].
    + apply String.eqb_eq in Hshape. contradiction.
Qed.

Lemma centerband_map_derived_witness :
  exists items,
    bands Examples.general_centerband = Some items /\
    get_centerband "general" (bands Examples.general_centerband)
    = Ok (centerbands Examples.general_centerband) /\
    keys (centerbands Examples.general_centerband) = keys items /\
    ("general" <> "sentinel-2" ->
     forall band w, dict_get items band = Some w ->
       exists low high,
         w = Range low high /\
         dict_get (centerbands Examples.general_centerband) band
         = Some (Single ((low + high) / 2))) /\
    ("general" = "sentinel-2" ->
     forall band w, dict_get items band = Some w ->
       exists d, w = Single d /\
         dict_get (centerbands Examples.general_centerband) band
         = Some (Single d)).
Proof.
  apply (centerband_map_derived "general" "centerband"). reflexivity.
Defined.

(** The maps of the Landsat 8 and Sentinel-2 sensors. *)
Example centerbands_landsat8_sentinel2 :
  (exists self, __init__ "landsat-8" "centerband" = Ok self /\
     centerbands self
     = [ ("aerosol", Single 443); ("blue", Single 482); ("green", Single 561);
         ("red", Single 654); ("nir", Single 865); ("swir1", Single 1608);
         ("swir2", Single 2200); ("cirrus", Single 1373) ]) /\
  (exists self, __init__ "sentinel-2" "centerband" = Ok self /\
     bands self = Some (centerbands self)).
Proof. split; eexists; split; reflexivity. Qed.

(** C3. The pair (Sentinel-2, average) is refused by the constructor, and so
    is every method other than the two literals, whatever the sensor: no
    object exists on which a band could be resolved. *)
Theorem constructor_rejects :
  __init__ "sentinel-2" "average"
  = Raise (ValueError "Sentinel-2 only works with centerband method") /\
  forall name how,
    how <> "centerband" -> how <> "average" ->
    __init__ name how
    = Raise (ValueError "Method must be either 'centerband' or 'average'.").
Proof.
  split; [ reflexivity | ].
  intros name how Hc Ha. unfold __init__. simpl.
  apply String.eqb_neq in Hc, Ha. rewrite Hc, Ha. reflexivity.
Qed.

Lemma constructor_rejects_witness :
  __init__ "landsat-8" "median"
  = Raise (ValueError "Method must be either 'centerband' or 'average'.").
Proof.
  apply (proj2 constructor_rejects "landsat-8" "median"); discriminate.
Defined.

End Construction.

(** ** Band resolution under the [average] policy *)

Section Resolution.
Import SpectralIndices.
Context {F : Type} {num : Num F}.

Lemma loc_mask_interval (low high : Z) (cols : list Z) (row : list F) :
  loc_mask (map (fun c => (c >=? low) && (c <=? high)) cols) row
  = map snd (cells_in_interval low high cols row).
Proof.
  unfold loc_mask, cells_in_interval.
  revert row. induction cols as [ | c cols IH ]; intros row; [ reflexivity | ].
  destruct row as [ | v row ]; [ reflexivity | ].
  simpl. unfold in_interval at 1. simpl. rewrite Z.geb_leb.
  destruct ((low <=? c) && (c <=? high)); simpl; rewrite IH; reflexivity.
Qed.

Lemma cells_in_interval_none (low high : Z) (cols : list Z) (row : list F) :
  (forall c, In c cols -> c < low \/ high < c) ->
  cells_in_interval low high cols row = [].
Proof.
  unfold cells_in_interval.
  revert row. induction cols as [ | c cols IH ]; intros row Hout; [ reflexivity | ].
  destruct row as [ | v row ]; [ reflexivity | ].
  simpl. unfold in_interval at 1. simpl.
  assert (Hc : (low <=? c) && (c <=? high) = false).
  { destruct (Hout c (or_introl eq_refl)); [ | rewrite andb_comm ];
      apply andb_false_intro1; apply Z.leb_gt; assumption. }
  rewrite Hc. apply IH. intros c' Hin. apply Hout. right. exact Hin.
Qed.

(** The policy takes, row by row, the pandas mean of the cells in the
    interval. *)
Lemma average_resolves (self : t) (df : DataFrame F) (band : string)
  (items : BandTable) (low high : Z) :
  method self = "average" ->
  bands self = Some items ->
  dict_get items band = Some (Range low high) ->
  _get_band_values self df band
  = Ok (Some (map (fun row =>
                     mean (map snd (cells_in_interval low high (columns df) row)))
                  (rows df))).
Proof.
  intros Hm Hb Hw. unfold _get_band_values.
  rewrite Hm, Hb, Hw. simpl. do 2 f_equal.
  apply map_ext. intros row. rewrite loc_mask_interval. reflexivity.
Qed.




End Resolution.

Section ResolutionBinary64.
Import SpectralIndices Examples.

(** The blue band of [frame_blue_ends] is the mean of its two end columns. *)
Example average_blue_ends :
  _get_band_values general_average frame_blue_ends "blue"
  = Ok (Some [1.5%float]).
Proof. vm_compute. reflexivity. Qed.

(** C4, as stated, fails: with no column in the blue interval the resolver
    raises nothing and returns not-a-number for the row. *)
Lemma empty_interval_not_raised :
  SpectralIndices.__init__ "general" "average" = Ok general_average /\
  cells_in_interval 450 520 (columns frame_uv) [0.5; 0.25]%float = [] /\
  _get_band_values general_average frame_uv "blue" = Ok (Some [nan]).
Proof. vm_compute. repeat split; reflexivity. Qed.

(** C4, amended.  Under the [average] policy, when no column label lies in
    the band's interval, resolving the band raises no error: it returns
    not-a-number (the mean of no cell) for every row. *)
Theorem empty_interval_is_nan (self : t) (df : DataFrame float)
  (band : string) (items : BandTable) (low high : Z) :
  method self = "average" ->
  bands self = Some items ->
  dict_get items band = Some (Range low high) ->
  (forall c, In c (columns df) -> c < low \/ high < c) ->
  _get_band_values self df band = Ok (Some (map (fun _ => nan) (rows df))).
Proof.
  intros Hm Hb Hw Hout.
  rewrite (average_resolves self df band items low high Hm Hb Hw).
  do 2 f_equal. apply map_ext. intros row.
  rewrite cells_in_interval_none by exact Hout. reflexivity.
Qed.

Lemma empty_interval_is_nan_witness :
  _get_band_values general_average frame_uv "blue"
  = Ok (Some (map (fun _ => nan) (rows frame_uv))).
Proof.
  apply (empty_interval_is_nan general_average frame_uv "blue"
           [ ("blue", Range 450 520); ("green", Range 521 600);
             ("red", Range 601 690); ("nir", Range 700 800) ] 450 520);
    try reflexivity.
  intros c [<- | [<- | []]]; left; reflexivity.
Defined.

End ResolutionBinary64.

(** ** Binary64 arithmetic

    The operations of the format round to nearest.  A finite number is a
    mantissa [m] and an exponent [e], of value [m * 2^e]; its value is
    handled as the integer [scaled m e], which is that value times [2^2200]
    (no exponent met below is under -2200).  Two facts carry the bounds on
    the indices: rounding never takes a number below a canonical number
    that is below it, nor above a canonical number that is above it. *)

Section Rounding.

Lemma emin_value : SpecFloat.emin prec emax = -1074.
Proof. reflexivity. Qed.

Lemma fexp_value (x : Z) : fexp prec emax x = Z.max (x - 53) (-1074).
Proof. reflexivity. Qed.

Lemma pow2_pos (k : Z) : 0 <= k -> 0 < 2 ^ k.
Proof. intros. apply Z.pow_pos_nonneg; lia. Qed.

Lemma scaled_shift (m e k : Z) : -2200 <= e -> 0 <= k -> scaled m (e + k) = scaled (m * 2 ^ k) e.
Proof.
  intros He Hk. unfold scaled.
  replace (e + k + 2200) with (k + (e + 2200)) by lia.
  rewrite Z.pow_add_r by lia. ring.
Qed.

Lemma scaled_le_mono (a b e : Z) : -2200 <= e -> a <= b -> scaled a e <= scaled b e.
Proof.
  intros He Hab. unfold scaled. apply Z.mul_le_mono_nonneg_r; [ | exact Hab ].
  apply Z.lt_le_incl, pow2_pos. lia.
Qed.

Lemma scaled_le_inv (a b e : Z) : -2200 <= e -> scaled a e <= scaled b e -> a <= b.
Proof.
  intros He Hab. unfold scaled in Hab.
  apply Z.mul_le_mono_pos_r in Hab; [ exact Hab | apply pow2_pos; lia ].
Qed.

Lemma scaled_lt_inv (a b e : Z) : -2200 <= e -> scaled a e < scaled b e -> a < b.
Proof.
  intros He Hab. unfold scaled in Hab.
  apply Z.mul_lt_mono_pos_r in Hab; [ exact Hab | apply pow2_pos; lia ].
Qed.

(** The number of binary digits of a mantissa. *)
Lemma digits2_pos_le (p : positive) : 2 ^ (Zpos (digits2_pos p) - 1) <= Zpos p.
Proof.
  induction p as [ p IH | p IH | ]; simpl digits2_pos.
  - rewrite Pos2Z.inj_succ. replace (Z.succ (Zpos (digits2_pos p)) - 1)
      with (Z.succ (Zpos (digits2_pos p) - 1)) by lia.
    rewrite Z.pow_succ_r by lia. lia.
  - rewrite Pos2Z.inj_succ. replace (Z.succ (Zpos (digits2_pos p)) - 1)
      with (Z.succ (Zpos (digits2_pos p) - 1)) by lia.
    rewrite Z.pow_succ_r by lia. lia.
  - simpl. lia.
Qed.

Lemma digits2_pos_gt (p : positive) : Zpos p < 2 ^ Zpos (digits2_pos p).
Proof.
  induction p as [ p IH | p IH | ]; simpl digits2_pos.
  - rewrite Pos2Z.inj_succ. rewrite Z.pow_succ_r by lia. lia.
  - rewrite Pos2Z.inj_succ. rewrite Z.pow_succ_r by lia. lia.
  - simpl. lia.
Qed.

Lemma Zdigits2_bounds (m : Z) :
  0 < m -> 0 < Zdigits2 m /\ 2 ^ (Zdigits2 m - 1) <= m < 2 ^ Zdigits2 m.
Proof.
  intros Hm. destruct m as [ | p | p ]; try lia. cbn [Zdigits2].
  pose proof (digits2_pos_le p). pose proof (digits2_pos_gt p). lia.
Qed.

Lemma Zdigits2_nonneg (m : Z) : 0 <= Zdigits2 m.
Proof. destruct m; simpl; lia. Qed.

(** A mantissa between [2^(d-1)] and [2^d] has [d] digits. *)
Lemma Zdigits2_unique (m d : Z) :
  0 < d -> 2 ^ (d - 1) <= m < 2 ^ d -> Zdigits2 m = d.
Proof.
  intros Hd [Hlo Hhi].
  assert (Hm : 0 < m). { pose proof (pow2_pos (d - 1)). lia. }
  destruct (Zdigits2_bounds m Hm) as (Hd' & Hlo' & Hhi').
  destruct (Z.lt_trichotomy (Zdigits2 m) d) as [Hlt | [Heq | Hgt]]; [ | exact Heq | ].
  - assert (2 ^ Zdigits2 m <= 2 ^ (d - 1)) by (apply Z.pow_le_mono_r; lia). lia.
  - assert (2 ^ d <= 2 ^ (Zdigits2 m - 1)) by (apply Z.pow_le_mono_r; lia). lia.
Qed.

Lemma Zdigits2_div_pow2 (m n : Z) :
  0 < m -> 0 <= n < Zdigits2 m -> Zdigits2 (m / 2 ^ n) = Zdigits2 m - n.
Proof.
  intros Hm Hn. destruct (Zdigits2_bounds m Hm) as (Hd & Hlo & Hhi).
  apply Zdigits2_unique; [ lia | ].
  assert (Hp : 0 < 2 ^ n) by (apply pow2_pos; lia).
  split.
  - apply Z.div_le_lower_bound; [ exact Hp | ].
    rewrite <- Z.pow_add_r by lia. replace (n + (Zdigits2 m - n - 1)) with (Zdigits2 m - 1) by lia.
    exact Hlo.
  - apply Z.div_lt_upper_bound; [ exact Hp | ].
    rewrite <- Z.pow_add_r by lia. replace (n + (Zdigits2 m - n)) with (Zdigits2 m) by lia.
    exact Hhi.
Qed.

(** Digits plus exponent grow with the value. *)
Lemma magnitude_mono (a ea b eb : Z) :
  0 < a -> 0 < b -> -2200 <= ea -> -2200 <= eb ->
  scaled a ea <= scaled b eb -> Zdigits2 a + ea <= Zdigits2 b + eb.
Proof.
  intros Ha Hb Hea Heb Hle.
  destruct (Zdigits2_bounds a Ha) as (Hda & Hloa & _).
  destruct (Zdigits2_bounds b Hb) as (Hdb & _ & Hhib).
  assert (H1 : 2 ^ (Zdigits2 a - 1 + (ea + 2200)) <= scaled a ea).
  { unfold scaled. rewrite (Z.pow_add_r 2 (Zdigits2 a - 1)) by lia.
    apply Z.mul_le_mono_nonneg_r; [ apply Z.lt_le_incl, pow2_pos; lia | exact Hloa ]. }
  assert (H2 : scaled b eb < 2 ^ (Zdigits2 b + (eb + 2200))).
  { unfold scaled. rewrite (Z.pow_add_r 2 (Zdigits2 b)) by lia.
    apply Z.mul_lt_mono_pos_r; [ apply pow2_pos; lia | exact Hhib ]. }
  assert (H3 : 2 ^ (Zdigits2 a - 1 + (ea + 2200)) < 2 ^ (Zdigits2 b + (eb + 2200))) by lia.
  apply Z.pow_lt_mono_r_iff in H3; lia.
Qed.

(** A shift to the right by one bit halves the mantissa; by [p] bits,
    divides it by [2^p]. *)
Lemma shr_1_half (mrs : shr_record) :
  0 <= shr_m mrs -> shr_m (shr_1 mrs) = shr_m mrs / 2.
Proof.
  destruct mrs as [m r s]. simpl. intros Hm. rewrite <- Z.div2_div.
  destruct m as [ | [ p | p | ] | p ]; try reflexivity. lia.
Qed.

Lemma iter_shr_1 (p : positive) (mrs : shr_record) :
  0 <= shr_m mrs ->
  shr_m (iter_pos shr_1 p mrs) = shr_m mrs / 2 ^ Zpos p.
Proof.
  revert mrs. induction p as [ p IH | p IH | ]; intros mrs Hm; simpl iter_pos.
  - assert (H1 : 0 <= shr_m (shr_1 mrs)).
    { rewrite shr_1_half by exact Hm. apply Z.div_pos; lia. }
    assert (H2 : 0 <= shr_m (iter_pos shr_1 p (shr_1 mrs))).
    { rewrite IH by exact H1. apply Z.div_pos; lia. }
    rewrite IH by exact H2. rewrite IH by exact H1. rewrite shr_1_half by exact Hm.
    rewrite !Z.div_div by lia. f_equal.
    rewrite (Pos2Z.inj_xI p). rewrite <- Z.pow_add_r, <- Z.pow_succ_r by lia.
    f_equal. lia.
  - assert (H1 : 0 <= shr_m (iter_pos shr_1 p mrs)).
    { rewrite IH by exact Hm. apply Z.div_pos; lia. }
    rewrite IH by exact H1. rewrite IH by exact Hm.
    rewrite Z.div_div by lia. f_equal.
    rewrite (Pos2Z.inj_xO p), <- Z.pow_add_r by lia. f_equal. lia.
  - rewrite shr_1_half by exact Hm. reflexivity.
Qed.


Lemma shr_1_exact (mrs : shr_record) :
  0 <= shr_m mrs -> exact_record mrs -> shr_m mrs mod 2 = 0 ->
  exact_record (shr_1 mrs).
Proof.
  destruct mrs as [m r s]. unfold exact_record. simpl.
  intros Hm [-> ->] Hmod.
  destruct m as [ | [ p | p | ] | p ]; simpl; auto; try lia.
  - exfalso. rewrite Pos2Z.inj_xI in Hmod.
    rewrite Z.add_comm, Z.mul_comm, Z_mod_plus_full in Hmod. discriminate.
  - discriminate.
Qed.

Lemma iter_shr_1_exact (p : positive) (mrs : shr_record) :
  0 <= shr_m mrs -> exact_record mrs -> shr_m mrs mod 2 ^ Zpos p = 0 ->
  exact_record (iter_pos shr_1 p mrs).
Proof.
  revert mrs. induction p as [ p IH | p IH | ]; intros mrs Hm Hex Hmod; simpl iter_pos.
  - rewrite (Pos2Z.inj_xI p) in Hmod.
    replace (2 * Zpos p + 1) with (1 + Zpos p + Zpos p) in Hmod by lia.
    rewrite !Z.pow_add_r in Hmod by lia.
    apply Z.mod_divide in Hmod; [ | pose proof (pow2_pos (Zpos p)); lia ].
    destruct Hmod as [k Hk].
    assert (H1 : 0 <= shr_m (shr_1 mrs)).
    { rewrite shr_1_half by exact Hm. apply Z.div_pos; lia. }
    assert (E1 : shr_m (shr_1 mrs) = k * 2 ^ Zpos p * 2 ^ Zpos p).
    { rewrite shr_1_half by exact Hm. rewrite Hk.
      replace (k * (2 ^ 1 * 2 ^ Zpos p * 2 ^ Zpos p)) with (k * 2 ^ Zpos p * 2 ^ Zpos p * 2) by (rewrite Z.pow_1_r; ring).
      apply Z.div_mul. lia. }
    assert (X1 : exact_record (shr_1 mrs)).
    { apply shr_1_exact; [ exact Hm | exact Hex | ].
      rewrite Hk. replace (k * (2 ^ 1 * 2 ^ Zpos p * 2 ^ Zpos p)) with (k * 2 ^ Zpos p * 2 ^ Zpos p * 2) by (rewrite Z.pow_1_r; ring).
      apply Z_mod_mult. }
    assert (H2 : 0 <= shr_m (iter_pos shr_1 p (shr_1 mrs))).
    { rewrite iter_shr_1 by exact H1. apply Z.div_pos; [ lia | apply pow2_pos; lia ]. }
    apply IH.
    + exact H2.
    + apply IH; [ exact H1 | exact X1 | ]. rewrite E1. apply Z_mod_mult.
    + rewrite iter_shr_1 by exact H1. rewrite E1, Z.div_mul by (pose proof (pow2_pos (Zpos p)); lia).
      apply Z_mod_mult.
  - rewrite (Pos2Z.inj_xO p) in Hmod.
    replace (2 * Zpos p) with (Zpos p + Zpos p) in Hmod by lia.
    rewrite !Z.pow_add_r in Hmod by lia.
    apply Z.mod_divide in Hmod; [ | pose proof (pow2_pos (Zpos p)); lia ].
    destruct Hmod as [k Hk].
    assert (H2 : 0 <= shr_m (iter_pos shr_1 p mrs)).
    { rewrite iter_shr_1 by exact Hm. apply Z.div_pos; [ lia | apply pow2_pos; lia ]. }
    apply IH.
    + exact H2.
    + apply IH; [ exact Hm | exact Hex | ].
      rewrite Hk. rewrite Z.mul_assoc. apply Z_mod_mult.
    + rewrite iter_shr_1 by exact Hm. rewrite Hk, Z.mul_assoc, Z.div_mul by (pose proof (pow2_pos (Zpos p)); lia).
      apply Z_mod_mult.
  - apply shr_1_exact; [ exact Hm | exact Hex | ]. rewrite Z.pow_1_r in Hmod. exact Hmod.
Qed.


Lemma loc_of_exact_record (mrs : shr_record) :
  exact_record mrs -> loc_of_shr_record mrs = loc_Exact.
Proof. destruct mrs as [m r s]. intros [Hr Hs]. simpl in Hr, Hs. subst. reflexivity. Qed.

Lemma shr_record_of_loc_m (m : Z) (l : location) : shr_m (shr_record_of_loc m l) = m.
Proof. destruct l as [ | [ | | ] ]; reflexivity. Qed.

Lemma loc_of_shr_record_of_loc (m : Z) (l : location) :
  loc_of_shr_record (shr_record_of_loc m l) = l.
Proof. destruct l as [ | [ | | ] ]; reflexivity. Qed.


Lemma shr_fexp_spec (m e : Z) (l : location) :
  0 <= m ->
  snd (shr_fexp prec emax m e l) = e + shift_of m e /\
  shr_m (fst (shr_fexp prec emax m e l)) = m / 2 ^ shift_of m e /\
  (l = loc_Exact -> m mod 2 ^ shift_of m e = 0 ->
   loc_of_shr_record (fst (shr_fexp prec emax m e l)) = loc_Exact).
Proof.
  intros Hm. unfold shr_fexp, shr, shift_of.
  destruct (fexp prec emax (Zdigits2 m + e) - e) as [ | n | n ] eqn:Hn;
    cbn [fst snd].
  - rewrite Z.max_l by lia. rewrite Z.pow_0_r, Z.div_1_r, Z.add_0_r.
    rewrite shr_record_of_loc_m, loc_of_shr_record_of_loc. auto.
  - rewrite Z.max_l by lia.
    rewrite iter_shr_1 by (rewrite shr_record_of_loc_m; exact Hm).
    rewrite shr_record_of_loc_m. repeat split.
    intros -> Hmod. apply loc_of_exact_record, iter_shr_1_exact.
    + simpl. exact Hm.
    + split; reflexivity.
    + simpl. exact Hmod.
  - rewrite Z.max_r by lia. rewrite Z.pow_0_r, Z.div_1_r, Z.add_0_r.
    rewrite shr_record_of_loc_m, loc_of_shr_record_of_loc. auto.
Qed.

Lemma round_nearest_even_bounds (m : Z) (l : location) :
  m <= round_nearest_even m l <= m + 1.
Proof.
  destruct l as [ | [ | | ] ]; simpl; try lia. destruct (Z.even m); lia.
Qed.


Lemma canonical_facts (m e : Z) :
  canonical m e -> -1074 <= e /\ Zdigits2 m <= 53 /\ (-1074 < e -> Zdigits2 m = 53).
Proof. intros [Hm He]. rewrite fexp_value in He. lia. Qed.

Lemma scaled_pos (m e : Z) : 0 < m -> -2200 <= e -> 0 < scaled m e.
Proof. intros Hm He. unfold scaled. apply Z.mul_pos_pos; [ exact Hm | apply pow2_pos; lia ]. Qed.

Lemma div_pow2_le (m n : Z) : 0 <= m -> 0 <= n -> m / 2 ^ n * 2 ^ n <= m.
Proof.
  intros Hm Hn. pose proof (pow2_pos n Hn) as Hp.
  rewrite Z.mul_comm. apply Z.mul_div_le. exact Hp.
Qed.

(** Truncation to the format's exponent keeps a number above every
    canonical number below it. *)
Lemma truncation_above (m e mv ev : Z) :
  0 < m -> -2200 <= e -> canonical mv ev ->
  scaled mv ev <= scaled m e ->
  0 < m / 2 ^ shift_of m e /\ scaled mv ev <= scaled (m / 2 ^ shift_of m e) (e + shift_of m e).
Proof.
  intros Hm He Hc Hle.
  destruct (canonical_facts _ _ Hc) as (Hev & Hdv & Hnorm). destruct Hc as [Hmv Hcv].
  destruct (Zdigits2_bounds m Hm) as (Hd & Hlo & Hhi).
  destruct (Zdigits2_bounds mv Hmv) as (Hdv' & Hlov & Hhiv).
  unfold shift_of. rewrite fexp_value.
  set (n := Z.max (Z.max (Zdigits2 m + e - 53) (-1074) - e) 0).
  assert (Hn : 0 <= n) by lia.
  assert (Hp : 0 < 2 ^ n) by (apply pow2_pos; exact Hn).
  destruct (Z.eq_dec n 0) as [Hz | Hnz].
  { rewrite Hz, Z.pow_0_r, Z.div_1_r, Z.add_0_r. auto. }
  destruct (Z_le_gt_dec (e + n) ev) as [Hgrid | Hbelow].
  - (* the bound is on the grid *)
    assert (HV : scaled mv ev = scaled (mv * 2 ^ (ev - (e + n))) (e + n)).
    { rewrite <- scaled_shift by lia. f_equal. lia. }
    assert (HM : scaled m e = scaled m (e + n - n)) by (f_equal; lia).
    assert (Hk : mv * 2 ^ (ev - (e + n)) * 2 ^ n <= m).
    { apply (scaled_le_inv _ _ e); [ lia | ].
      rewrite <- scaled_shift by lia. rewrite <- HV. exact Hle. }
    assert (Hq : mv * 2 ^ (ev - (e + n)) <= m / 2 ^ n).
    { apply Z.div_le_lower_bound; [ exact Hp | ]. rewrite Z.mul_comm. exact Hk. }
    assert (Hvpos : 0 < mv * 2 ^ (ev - (e + n))).
    { apply Z.mul_pos_pos; [ exact Hmv | apply pow2_pos; lia ]. }
    split; [ lia | ]. rewrite HV. apply scaled_le_mono; [ lia | exact Hq ].
  - (* the bound is in a lower binade *)
    assert (En : n = Zdigits2 m - 53) by lia.
    assert (Hdig : Zdigits2 (m / 2 ^ n) = 53).
    { rewrite Zdigits2_div_pow2 by lia. lia. }
    assert (Hq : 2 ^ 52 <= m / 2 ^ n).
    { assert (Hqpos : 0 < m / 2 ^ n).
      { apply Z.div_str_pos. split; [ exact Hp | ].
        apply Z.le_trans with (2 ^ (Zdigits2 m - 1)); [ | exact Hlo ].
        apply Z.pow_le_mono_r; lia. }
      destruct (Zdigits2_bounds _ Hqpos) as (_ & Hlq & _). rewrite Hdig in Hlq. exact Hlq. }
    split; [ lia | ].
    apply Z.le_trans with (scaled (2 ^ 52) (e + n)); [ | apply scaled_le_mono; [ lia | exact Hq ] ].
    apply Z.le_trans with (scaled (2 ^ 53) ev).
    + apply scaled_le_mono; [ lia | ].
      apply Z.le_trans with (2 ^ Zdigits2 mv); [ lia | apply Z.pow_le_mono_r; lia ].
    + unfold scaled. rewrite <- !Z.pow_add_r by lia. apply Z.pow_le_mono_r; lia.
Qed.


Lemma shift_of_nonneg (m e : Z) : 0 <= shift_of m e.
Proof. unfold shift_of. lia. Qed.

Lemma scaled_truncation_le (m e n : Z) :
  0 <= m -> -2200 <= e -> 0 <= n -> scaled (m / 2 ^ n) (e + n) <= scaled m e.
Proof.
  intros Hm He Hn. rewrite scaled_shift by lia.
  apply scaled_le_mono; [ lia | apply div_pow2_le; assumption ].
Qed.

(** Rounding keeps a number above every canonical number below it. *)
Lemma binary_round_aux_above (sx : bool) (mx ex : Z) (lx : location) (mv ev : Z) :
  0 < mx -> -2200 <= ex -> canonical mv ev ->
  scaled mv ev <= scaled mx ex ->
  binary_round_aux prec emax sx mx ex lx = S754_infinity sx \/
  exists m e,
    binary_round_aux prec emax sx mx ex lx = S754_finite sx m e /\
    scaled mv ev <= scaled (Zpos m) e.
Proof.
  intros Hmx Hex Hc Hle. unfold binary_round_aux.
  destruct (shr_fexp_spec mx ex lx (Z.lt_le_incl _ _ Hmx)) as (He1 & Hm1 & _).
  destruct (truncation_above mx ex mv ev Hmx Hex Hc Hle) as [Hp1 Hle1].
  pose proof (shift_of_nonneg mx ex) as Hs1.
  destruct (shr_fexp prec emax mx ex lx) as [mrs1 e1]. cbn [fst snd] in He1, Hm1.
  rewrite <- Hm1, <- He1 in Hle1. rewrite <- Hm1 in Hp1.
  pose proof (round_nearest_even_bounds (shr_m mrs1) (loc_of_shr_record mrs1)) as Hr.
  set (m2 := round_nearest_even (shr_m mrs1) (loc_of_shr_record mrs1)) in *.
  assert (Hm2 : 0 < m2) by lia.
  assert (Hle2 : scaled mv ev <= scaled m2 e1).
  { apply Z.le_trans with (scaled (shr_m mrs1) e1); [ exact Hle1 | ].
    apply scaled_le_mono; lia. }
  destruct (shr_fexp_spec m2 e1 loc_Exact (Z.lt_le_incl _ _ Hm2)) as (He3 & Hm3 & _).
  destruct (truncation_above m2 e1 mv ev Hm2 ltac:(lia) Hc Hle2) as [Hp3 Hle3].
  destruct (shr_fexp prec emax m2 e1 loc_Exact) as [mrs3 e3]. cbn [fst snd] in He3, Hm3.
  rewrite <- Hm3, <- He3 in Hle3. rewrite <- Hm3 in Hp3.
  destruct (shr_m mrs3) as [ | p | p ]; try lia.
  destruct (e3 <=? emax - prec).
  - right. exists p, e3. split; [ reflexivity | exact Hle3 ].
  - left. reflexivity.
Qed.

(** Rounding keeps a number below every canonical number above it that lies
    on the grid the number is rounded on. *)
Lemma binary_round_aux_below (sx : bool) (mx ex : Z) (lx : location) (mv ev : Z) :
  0 <= mx -> -2200 <= ex -> canonical mv ev -> ev <= 971 ->
  scaled mx ex <= scaled mv ev ->
  (lx <> loc_Exact -> scaled mx ex < scaled mv ev) ->
  ex + shift_of mx ex <= ev ->
  binary_round_aux prec emax sx mx ex lx = S754_zero sx \/
  exists m e,
    binary_round_aux prec emax sx mx ex lx = S754_finite sx m e /\
    scaled (Zpos m) e <= scaled mv ev.
Proof.
  intros Hmx Hex Hc Hmax Hle Hlt Hgrid. unfold binary_round_aux.
  destruct (canonical_facts _ _ Hc) as (Hev & Hdv & _).
  destruct (shr_fexp_spec mx ex lx Hmx) as (He1 & Hm1 & Hx1).
  pose proof (shift_of_nonneg mx ex) as Hs1.
  set (n := shift_of mx ex) in *.
  assert (Hp : 0 < 2 ^ n) by (apply pow2_pos; exact Hs1).
  destruct (shr_fexp prec emax mx ex lx) as [mrs1 e1]. cbn [fst snd] in He1, Hm1, Hx1.
  assert (H1 : 0 <= shr_m mrs1) by (rewrite Hm1; apply Z.div_pos; lia).
  (* the bound, as a multiple of the grid step *)
  set (k := mv * 2 ^ (ev - e1)).
  assert (HV : scaled mv ev = scaled k e1).
  { unfold k. rewrite <- scaled_shift by lia. f_equal. lia. }
  assert (Htr : scaled (shr_m mrs1) e1 <= scaled mx ex).
  { rewrite Hm1, He1. apply scaled_truncation_le; lia. }
  pose proof (round_nearest_even_bounds (shr_m mrs1) (loc_of_shr_record mrs1)) as Hr.
  assert (Hm2k : round_nearest_even (shr_m mrs1) (loc_of_shr_record mrs1) <= k).
  { destruct (loc_of_shr_record mrs1) eqn:Hloc.
    - (* nothing to round *)
      simpl. apply (scaled_le_inv _ _ e1); [ lia | ]. rewrite <- HV. lia.
    - (* strictly below the bound *)
      assert (Hstrict : scaled (shr_m mrs1) e1 < scaled mv ev).
      { destruct lx as [ | c' ].
        - destruct (Z.eq_dec (mx mod 2 ^ n) 0) as [Hmod | Hmod].
          + specialize (Hx1 eq_refl Hmod). congruence.
          + assert (shr_m mrs1 * 2 ^ n < mx).
            { rewrite Hm1. pose proof (Z.div_mod mx (2 ^ n) ltac:(lia)) as Hdm.
              pose proof (Z.mod_pos_bound mx (2 ^ n) Hp). lia. }
            apply Z.lt_le_trans with (scaled mx ex); [ | exact Hle ].
            rewrite He1, scaled_shift by lia. unfold scaled.
            apply Z.mul_lt_mono_pos_r; [ apply pow2_pos; lia | assumption ].
        - apply Z.le_lt_trans with (scaled mx ex); [ exact Htr | ].
          apply Hlt. discriminate. }
      rewrite HV in Hstrict. apply scaled_lt_inv in Hstrict; [ | lia ]. lia. }
  set (m2 := round_nearest_even (shr_m mrs1) (loc_of_shr_record mrs1)) in *.
  assert (Hm2 : 0 <= m2) by lia.
  assert (Hle2 : scaled m2 e1 <= scaled mv ev).
  { rewrite HV. apply scaled_le_mono; [ lia | exact Hm2k ]. }
  destruct (shr_fexp_spec m2 e1 loc_Exact Hm2) as (He3 & Hm3 & _).
  pose proof (shift_of_nonneg m2 e1) as Hs3.
  assert (He3max : e1 + shift_of m2 e1 <= ev).
  { unfold shift_of. rewrite fexp_value.
    destruct (Z.eq_dec m2 0) as [Hz | Hnz].
    - rewrite Hz. simpl Zdigits2. lia.
    - assert (Hmag : Zdigits2 m2 + e1 <= Zdigits2 mv + ev).
      { apply magnitude_mono; try lia; apply Hc. }
      destruct Hc as [_ Hcv]. rewrite fexp_value in Hcv. lia. }
  destruct (shr_fexp prec emax m2 e1 loc_Exact) as [mrs3 e3]. cbn [fst snd] in He3, Hm3.
  assert (Hle3 : scaled (shr_m mrs3) e3 <= scaled mv ev).
  { apply Z.le_trans with (scaled m2 e1); [ | exact Hle2 ].
    rewrite Hm3, He3. apply scaled_truncation_le; lia. }
  assert (H3 : 0 <= shr_m mrs3).
  { rewrite Hm3. apply Z.div_pos; [ lia | apply pow2_pos; lia ]. }
  destruct (shr_m mrs3) as [ | p | p ]; try lia.
  - left. reflexivity.
  - right. replace (e3 <=? emax - prec) with true.
    + exists p, e3. split; [ reflexivity | exact Hle3 ].
    + symmetry. apply Z.leb_le. change (emax - prec) with 971. lia.
Qed.


Lemma Zdigits2_mul_pow2 (m k : Z) :
  0 < m -> 0 <= k -> Zdigits2 (m * 2 ^ k) = Zdigits2 m + k.
Proof.
  intros Hm Hk. destruct (Zdigits2_bounds m Hm) as (Hd & Hlo & Hhi).
  pose proof (pow2_pos k Hk) as Hp.
  apply Zdigits2_unique; [ lia | ]. split.
  - replace (Zdigits2 m + k - 1) with (Zdigits2 m - 1 + k) by lia.
    rewrite Z.pow_add_r by lia. apply Z.mul_le_mono_nonneg_r; lia.
  - rewrite Z.pow_add_r by lia. apply Z.mul_lt_mono_pos_r; lia.
Qed.

Lemma shl_align_spec (m : positive) (e e' : Z) :
  snd (shl_align m e e') = Z.min e e' /\
  Zpos (fst (shl_align m e e')) = Zpos m * 2 ^ (e - Z.min e e').
Proof.
  unfold shl_align. destruct (e' - e) as [ | d | d ] eqn:Hd; cbn [fst snd].
  - replace (e - Z.min e e') with 0 by lia. rewrite Z.pow_0_r. lia.
  - replace (e - Z.min e e') with 0 by lia. rewrite Z.pow_0_r. lia.
  - split; [ lia | ].
    replace (e - Z.min e e') with (Zpos d) by lia.
    change (Pos.iter xO m d) with (shift_pos d m).
    rewrite shift_pos_correct. change (Z.pow_pos 2 d) with (2 ^ Zpos d). ring.
Qed.

Lemma shl_align_sv (m : positive) (e e' : Z) :
  -2200 <= Z.min e e' ->
  scaled (Zpos (fst (shl_align m e e'))) (snd (shl_align m e e')) = scaled (Zpos m) e.
Proof.
  intros He. destruct (shl_align_spec m e e') as [-> ->].
  rewrite <- scaled_shift by lia. f_equal. lia.
Qed.

(** The exponent [binary_round] rounds on is the format's exponent of the
    number. *)
Lemma shl_align_fexp (m : positive) (e : Z) :
  let r := shl_align m e (fexp prec emax (Zpos (digits2_pos m) + e)) in
  snd r + shift_of (Zpos (fst r)) (snd r) = fexp prec emax (Zdigits2 (Zpos m) + e).
Proof.
  cbv zeta.
  destruct (shl_align_spec m e (fexp prec emax (Zpos (digits2_pos m) + e))) as [-> ->].
  unfold shift_of. cbn [Zdigits2].
  set (f := fexp prec emax (Zpos (digits2_pos m) + e)).
  rewrite (Zdigits2_mul_pow2 (Zpos m)) by lia. cbn [Zdigits2].
  replace (Zpos (digits2_pos m) + (e - Z.min e f) + Z.min e f)
    with (Zpos (digits2_pos m) + e) by lia.
  fold f. lia.
Qed.

Lemma binary_round_above (sx : bool) (m : positive) (e mv ev : Z) :
  -2200 <= e -> canonical mv ev ->
  scaled mv ev <= scaled (Zpos m) e ->
  binary_round prec emax sx m e = S754_infinity sx \/
  exists m' e',
    binary_round prec emax sx m e = S754_finite sx m' e' /\
    scaled mv ev <= scaled (Zpos m') e'.
Proof.
  intros He Hc Hle. unfold binary_round.
  pose proof (shl_align_sv m e (fexp prec emax (Zpos (digits2_pos m) + e))) as Hsv.
  pose proof (shl_align_spec m e (fexp prec emax (Zpos (digits2_pos m) + e))) as [Hs _].
  destruct (shl_align m e (fexp prec emax (Zpos (digits2_pos m) + e))) as [mz ez].
  cbn [fst snd] in Hsv, Hs. rewrite fexp_value in Hsv, Hs.
  apply binary_round_aux_above; try exact Hc; lia.
Qed.

Lemma binary_round_below (sx : bool) (m : positive) (e mv ev : Z) :
  -2200 <= e -> canonical mv ev -> ev <= 971 ->
  scaled (Zpos m) e <= scaled mv ev ->
  binary_round prec emax sx m e = S754_zero sx \/
  exists m' e',
    binary_round prec emax sx m e = S754_finite sx m' e' /\
    scaled (Zpos m') e' <= scaled mv ev.
Proof.
  intros He Hc Hmax Hle. unfold binary_round.
  pose proof (shl_align_sv m e (fexp prec emax (Zpos (digits2_pos m) + e))) as Hsv.
  pose proof (shl_align_spec m e (fexp prec emax (Zpos (digits2_pos m) + e))) as [Hs _].
  pose proof (shl_align_fexp m e) as Hf. cbv zeta in Hf.
  destruct (shl_align m e (fexp prec emax (Zpos (digits2_pos m) + e))) as [mz ez].
  cbn [fst snd] in Hsv, Hs, Hf. rewrite fexp_value in Hsv, Hs.
  destruct (canonical_facts _ _ Hc) as (Hev & _).
  apply binary_round_aux_below; try lia; try exact Hc.
  - intros Hne. contradiction.
  - rewrite Hf.
    assert (Hmag : Zdigits2 (Zpos m) + e <= Zdigits2 mv + ev).
    { apply magnitude_mono; try lia; apply Hc. }
    destruct Hc as [_ Hcv]. rewrite fexp_value in Hcv |- *. lia.
Qed.

Lemma bounded_canonical (m : positive) (e : Z) :
  bounded prec emax m e = true -> canonical (Zpos m) e /\ e <= 971.
Proof.
  unfold bounded, canonical_mantissa. intros Hb.
  apply andb_true_iff in Hb as [Hc Hm]. apply Z.eqb_eq in Hc. apply Z.leb_le in Hm.
  change (emax - prec) with 971 in Hm. unfold canonical. cbn [Zdigits2].
  split; [ split; [ lia | symmetry; exact Hc ] | exact Hm ].
Qed.

(** On canonical numbers the comparison of the format is the comparison of
    the values. *)
Lemma compare_canonical (m1 : positive) (e1 : Z) (m2 : positive) (e2 : Z) :
  canonical (Zpos m1) e1 -> canonical (Zpos m2) e2 ->
  match Z.compare e1 e2 with
  | Lt => Lt
  | Gt => Gt
  | Eq => Pos.compare_cont Eq m1 m2
  end = (scaled (Zpos m1) e1 ?= scaled (Zpos m2) e2).
Proof.
  intros H1 H2.
  destruct (canonical_facts _ _ H1) as (He1 & Hd1 & Hn1).
  destruct (canonical_facts _ _ H2) as (He2 & Hd2 & Hn2).
  destruct (Zdigits2_bounds (Zpos m1) ltac:(lia)) as (_ & Hlo1 & Hhi1).
  destruct (Zdigits2_bounds (Zpos m2) ltac:(lia)) as (_ & Hlo2 & Hhi2).
  assert (Hup : forall m d e e', Zpos m < 2 ^ d -> d <= 53 -> -1074 <= e -> e < e' ->
                  scaled (Zpos m) e < 2 ^ (52 + e' + 2200)).
  { intros m d e e' Hm Hd He Hee.
    apply Z.lt_le_trans with (scaled (2 ^ 53) e).
    - unfold scaled. apply Z.mul_lt_mono_pos_r; [ apply pow2_pos; lia | ].
      apply Z.lt_le_trans with (2 ^ d); [ exact Hm | apply Z.pow_le_mono_r; lia ].
    - unfold scaled. rewrite <- Z.pow_add_r by lia. apply Z.pow_le_mono_r; lia. }
  assert (Hdown : forall m e, 2 ^ 52 <= Zpos m -> -1074 <= e ->
                  2 ^ (52 + e + 2200) <= scaled (Zpos m) e).
  { intros m e Hm He. unfold scaled.
    replace (52 + e + 2200) with (52 + (e + 2200)) by lia.
    rewrite Z.pow_add_r by lia. apply Z.mul_le_mono_nonneg_r; [ | exact Hm ].
    apply Z.lt_le_incl, pow2_pos. lia. }
  destruct (Z.compare_spec e1 e2) as [Heq | Hlt | Hgt].
  - subst e2. unfold scaled.
    rewrite <- Zmult_compare_compat_r by (apply Z.lt_gt, pow2_pos; lia).
    reflexivity.
  - symmetry. apply Z.compare_lt_iff.
    rewrite (Hn2 ltac:(lia)) in Hlo2.
    pose proof (Hup m1 _ e1 e2 Hhi1 Hd1 He1 Hlt).
    pose proof (Hdown m2 e2 Hlo2 He2). lia.
  - symmetry. apply Z.compare_gt_iff.
    rewrite (Hn1 ltac:(lia)) in Hlo1.
    pose proof (Hup m2 _ e2 e1 Hhi2 Hd2 He2 ltac:(lia)).
    pose proof (Hdown m1 e1 Hlo1 He1). lia.
Qed.


Lemma aligned_value (m : positive) (e ez : Z) :
  ez <= e -> -2200 <= ez ->
  scaled (Zpos (fst (shl_align m e ez))) ez = scaled (Zpos m) e.
Proof.
  intros Hle Hez. destruct (shl_align_spec m e ez) as [_ ->].
  rewrite <- scaled_shift by lia. f_equal. lia.
Qed.

Lemma scaled_add (a b e : Z) : scaled (a + b) e = scaled a e + scaled b e.
Proof. unfold scaled. ring. Qed.

Lemma scaled_sub (a b e : Z) : scaled (a - b) e = scaled a e - scaled b e.
Proof. unfold scaled. ring. Qed.

(** A sum of two positive numbers is above every canonical number below
    it. *)
Lemma SF64add_above (m1 : positive) (e1 : Z) (m2 : positive) (e2 mv ev : Z) :
  -1074 <= e1 -> -1074 <= e2 -> canonical mv ev ->
  scaled mv ev <= scaled (Zpos m1) e1 + scaled (Zpos m2) e2 ->
  SF64add (S754_finite false m1 e1) (S754_finite false m2 e2) = S754_infinity false \/
  exists m e,
    SF64add (S754_finite false m1 e1) (S754_finite false m2 e2) = S754_finite false m e /\
    scaled mv ev <= scaled (Zpos m) e.
Proof.
  intros H1 H2 Hc Hle. unfold SF64add, SFadd. cbv zeta. cbn [cond_Zopp Z.add binary_normalize].
  apply binary_round_above; [ lia | exact Hc | ].
  rewrite Pos2Z.inj_add, scaled_add, !aligned_value by lia. exact Hle.
Qed.

(** A difference of two positive numbers is, in magnitude, below every
    canonical number above both. *)
Lemma SF64sub_below (m1 : positive) (e1 : Z) (m2 : positive) (e2 mv ev : Z) :
  -1074 <= e1 -> -1074 <= e2 -> canonical mv ev -> ev <= 971 ->
  scaled (Zpos m1) e1 <= scaled mv ev -> scaled (Zpos m2) e2 <= scaled mv ev ->
  (exists s, SF64sub (S754_finite false m1 e1) (S754_finite false m2 e2) = S754_zero s) \/
  exists s m e,
    SF64sub (S754_finite false m1 e1) (S754_finite false m2 e2) = S754_finite s m e /\
    scaled (Zpos m) e <= scaled mv ev.
Proof.
  intros H1 H2 Hc Hmax Hle1 Hle2. unfold SF64sub, SFsub. cbv zeta. cbn [cond_Zopp].
  set (ez := Z.min e1 e2).
  pose proof (aligned_value m1 e1 ez ltac:(lia) ltac:(lia)) as Ha.
  pose proof (aligned_value m2 e2 ez ltac:(lia) ltac:(lia)) as Hb.
  pose proof (scaled_pos (Zpos m1) e1 ltac:(lia) ltac:(lia)) as Hp1.
  pose proof (scaled_pos (Zpos m2) e2 ltac:(lia) ltac:(lia)) as Hp2.
  destruct (Zpos (fst (shl_align m1 e1 ez)) - Zpos (fst (shl_align m2 e2 ez)))
    as [ | p | p ] eqn:Hd; cbn [binary_normalize].
  - left. exists false. reflexivity.
  - assert (Hv : scaled (Zpos p) ez <= scaled mv ev).
    { rewrite <- Hd, scaled_sub, Ha, Hb. lia. }
    destruct (binary_round_below false p ez mv ev ltac:(lia) Hc Hmax Hv)
      as [Hz | (m & e & Hf & Hb')].
    + left. exists false. exact Hz.
    + right. exists false, m, e. split; assumption.
  - assert (Hv : scaled (Zpos p) ez <= scaled mv ev).
    { replace (Zpos p) with (Zpos (fst (shl_align m2 e2 ez)) - Zpos (fst (shl_align m1 e1 ez))) by lia.
      rewrite scaled_sub, Ha, Hb. lia. }
    destruct (binary_round_below true p ez mv ev ltac:(lia) Hc Hmax Hv)
      as [Hz | (m & e & Hf & Hb')].
    + left. exists true. exact Hz.
    + right. exists true, m, e. split; assumption.
Qed.

Lemma new_location_exact (n : Z) : new_location n 0 = loc_Exact.
Proof. unfold new_location. destruct (Z.even n); reflexivity. Qed.

Lemma canonical_one : canonical (2 ^ 52) (-52).
Proof. split; reflexivity. Qed.

Lemma scaled_one : scaled (2 ^ 52) (-52) = 2 ^ 2200.
Proof. reflexivity. Qed.

(** A quotient of a number by a larger one is below one. *)
Lemma SF64div_below (sx : bool) (mx : positive) (ex : Z)
  (sy : bool) (my : positive) (ey : Z) :
  -1074 <= ex <= 971 -> -1074 <= ey <= 971 ->
  scaled (Zpos mx) ex <= scaled (Zpos my) ey ->
  SF64div (S754_finite sx mx ex) (S754_finite sy my ey) = S754_zero (xorb sx sy) \/
  exists m e,
    SF64div (S754_finite sx mx ex) (S754_finite sy my ey)
    = S754_finite (xorb sx sy) m e /\
    scaled (Zpos m) e <= scaled (2 ^ 52) (-52).
Proof.
  intros Hex Hey Hle. unfold SF64div, SFdiv, SFdiv_core_binary. cbv zeta.
  assert (Hmag : Zdigits2 (Zpos mx) + ex <= Zdigits2 (Zpos my) + ey).
  { apply magnitude_mono; lia. }
  set (e' := Z.min (fexp prec emax (Zdigits2 (Zpos mx) + ex - (Zdigits2 (Zpos my) + ey)))
                   (ex - ey)) in *.
  assert (He' : -2045 <= e' <= -53).
  { unfold e'. rewrite fexp_value. lia. }
  set (s := ex - ey - e') in *.
  assert (Hs : 0 <= s) by (unfold s, e'; lia).
  set (m' := match s with Zpos _ => Z.shiftl (Zpos mx) s | Z0 => Zpos mx | Zneg _ => 0 end).
  assert (Hm' : m' = Zpos mx * 2 ^ s).
  { unfold m'. destruct s as [ | p | p ] eqn:Es.
    - rewrite Z.pow_0_r. lia.
    - apply Z.shiftl_mul_pow2. lia.
    - lia. }
  clearbody m'.
  pose proof (Z_div_mod m' (Zpos my) ltac:(lia)) as Hdm.
  destruct (Z.div_eucl m' (Zpos my)) as [q r]. destruct Hdm as [Hqr Hr].
  assert (Hq : 0 <= q) by nia.
  (* the quotient is at most one, and strictly below when a remainder is left *)
  set (P := 2 ^ (e' + 2200)).
  set (Y := 2 ^ (ey + 2200)).
  assert (HP : 0 < P) by (apply pow2_pos; lia).
  assert (HY : 0 < Y) by (apply pow2_pos; lia).
  assert (Hpow : 2 ^ s * (P * Y) = 2 ^ (ex + 2200) * 2 ^ 2200).
  { unfold P, Y. rewrite <- !Z.pow_add_r by lia. f_equal. unfold s. lia. }
  assert (Hval : Zpos mx * 2 ^ (ex + 2200) <= Zpos my * Y) by exact Hle.
  assert (Hbound : (q * Zpos my + r) * (P * Y) <= 2 ^ 2200 * (Zpos my * Y)).
  { replace (q * Zpos my + r) with m' by lia. rewrite Hm'.
    replace (Zpos mx * 2 ^ s * (P * Y)) with (Zpos mx * 2 ^ (ex + 2200) * 2 ^ 2200)
      by (transitivity (Zpos mx * (2 ^ s * (P * Y))); [ rewrite Hpow | ]; ring).
    rewrite (Z.mul_comm (2 ^ 2200)).
    apply Z.mul_le_mono_nonneg_r; [ apply Z.lt_le_incl, pow2_pos; lia | exact Hval ]. }
  assert (Hone : scaled q e' <= scaled (2 ^ 52) (-52)).
  { rewrite scaled_one. unfold scaled. fold P.
    apply Z.mul_le_mono_pos_r with (p := Zpos my * Y); [ nia | ]. nia. }
  assert (Hstrict : r <> 0 -> scaled q e' < scaled (2 ^ 52) (-52)).
  { intros Hr0. rewrite scaled_one. unfold scaled. fold P.
    apply Z.mul_lt_mono_pos_r with (p := Zpos my * Y); [ nia | ]. nia. }
  apply binary_round_aux_below; try lia.
  - exact canonical_one.
  - intros Hloc. apply Hstrict. intros Hr0. apply Hloc. rewrite Hr0.
    apply new_location_exact.
  - unfold shift_of. rewrite fexp_value.
    destruct (Z.eq_dec q 0) as [Hq0 | Hq0].
    + rewrite Hq0. cbn [Zdigits2]. lia.
    + assert (Zdigits2 q + e' <= Zdigits2 1 + 0).
      { apply magnitude_mono; try lia.
        replace (scaled 1 0) with (scaled (2 ^ 52) (-52)) by reflexivity. exact Hone. }
      cbn [Zdigits2 digits2_pos] in H. lia.
Qed.

Lemma valid_finite (x : float) (s : bool) (m : positive) (e : Z) :
  Prim2SF x = S754_finite s m e -> canonical (Zpos m) e /\ -1074 <= e <= 971.
Proof.
  intros Hx. pose proof (Prim2SF_valid x) as Hv. rewrite Hx in Hv.
  apply bounded_canonical in Hv as [Hc Hm].
  destruct (canonical_facts _ _ Hc) as (He & _). auto.
Qed.

Lemma magnitude_nonneg (x : float) : 0 <= magnitude (Prim2SF x).
Proof.
  destruct (Prim2SF x) as [ s | s | | s m e ] eqn:Hx; simpl; try lia.
  destruct (valid_finite x s m e Hx) as [_ He].
  apply Z.lt_le_incl, scaled_pos; lia.
Qed.

Lemma magnitude_finite_pos (x : float) (s : bool) (m : positive) (e : Z) :
  Prim2SF x = S754_finite s m e -> 0 < magnitude (Prim2SF x).
Proof.
  intros Hx. destruct (valid_finite x s m e Hx) as [_ He].
  rewrite Hx. simpl. apply scaled_pos; lia.
Qed.

Lemma SF64sub_diag (m : positive) (e : Z) :
  SF64sub (S754_finite false m e) (S754_finite false m e) = S754_zero false.
Proof.
  unfold SF64sub, SFsub. cbv zeta. simpl cond_Zopp. rewrite Z.sub_diag. reflexivity.
Qed.

End Rounding.

(** ** Order of binary64 sums, differences and quotients *)

Section Order.
Local Open Scope float_scope.

Lemma not_negative_input (x : float) :
  (0 <=? x) = true -> (x <? infinity) = true -> not_negative (Prim2SF x) = true.
Proof.
  rewrite leb_spec, ltb_spec.
  destruct (Prim2SF x) as [ s | [ | ] | | [ | ] m e ]; try reflexivity; discriminate.
Qed.

(** A sum of two numbers that are not negative is the positive infinity, or
    a number above both. *)
Lemma sum_above (x y : float) :
  not_negative (Prim2SF x) = true -> not_negative (Prim2SF y) = true ->
  Prim2SF (x + y) = S754_infinity false \/
  (not_negative (Prim2SF (x + y)) = true /\
   (magnitude (Prim2SF x) <= magnitude (Prim2SF (x + y)))%Z /\
   (magnitude (Prim2SF y) <= magnitude (Prim2SF (x + y)))%Z).
Proof.
  intros Hx Hy. pose proof (magnitude_nonneg x) as Mx. pose proof (magnitude_nonneg y) as My.
  rewrite add_spec.
  destruct (Prim2SF x) as [ sx | | | [ | ] mx ex ] eqn:Ex; try discriminate;
    destruct (Prim2SF y) as [ sy | | | [ | ] my ey ] eqn:Ey; try discriminate.
  - right. destruct sx, sy; simpl in *; repeat split; lia.
  - right. simpl in *. repeat split; lia.
  - right. simpl in *. repeat split; lia.
  - destruct (valid_finite x _ _ _ Ex) as [Cx Bx].
    destruct (valid_finite y _ _ _ Ey) as [Cy By].
    simpl in Mx, My.
    destruct (SF64add_above mx ex my ey (Zpos mx) ex ltac:(lia) ltac:(lia) Cx ltac:(lia))
      as [Hinf | (m & e & Hf & Hb)]; [ left; exact Hinf | ].
    destruct (SF64add_above mx ex my ey (Zpos my) ey ltac:(lia) ltac:(lia) Cy ltac:(lia))
      as [Hinf | (m' & e' & Hf' & Hb')]; [ left; exact Hinf | ].
    right. rewrite Hf in Hf'. injection Hf' as <- <-.
    rewrite Hf. simpl. repeat split; assumption.
Qed.

(** A difference of two numbers that are not negative is a number, in
    magnitude below every number above both. *)
Lemma difference_below (x y w : float) :
  not_negative (Prim2SF x) = true -> not_negative (Prim2SF y) = true ->
  not_negative (Prim2SF w) = true ->
  (magnitude (Prim2SF x) <= magnitude (Prim2SF w))%Z ->
  (magnitude (Prim2SF y) <= magnitude (Prim2SF w))%Z ->
  is_number (Prim2SF (x - y)) = true /\
  (magnitude (Prim2SF (x - y)) <= magnitude (Prim2SF w))%Z.
Proof.
  intros Hx Hy Hw Mx My. pose proof (magnitude_nonneg w) as Mw.
  rewrite sub_spec.
  destruct (Prim2SF x) as [ sx | | | [ | ] mx ex ] eqn:Ex; try discriminate;
    destruct (Prim2SF y) as [ sy | | | [ | ] my ey ] eqn:Ey; try discriminate.
  - destruct sx, sy; simpl; split; auto.
  - simpl. split; auto.
  - simpl. split; auto.
  - destruct (valid_finite x _ _ _ Ex) as [Cx Bx].
    destruct (valid_finite y _ _ _ Ey) as [Cy By].
    pose proof (magnitude_finite_pos x _ _ _ Ex) as Px. rewrite Ex in Px.
    destruct (Prim2SF w) as [ sw | | | [ | ] mw ew ] eqn:Ew; try discriminate.
    { simpl in Mx, Px. lia. }
    destruct (valid_finite w _ _ _ Ew) as [Cw Bw].
    cbn [magnitude] in Mx, My.
    destruct (SF64sub_below mx ex my ey (Zpos mw) ew ltac:(lia) ltac:(lia) Cw ltac:(lia) Mx My)
      as [[s Hz] | (s & m & e & Hf & Hb)].
    + rewrite Hz. cbn [magnitude is_number] in *. split; [ reflexivity | lia ].
    + rewrite Hf. cbn [magnitude is_number] in *. split; [ reflexivity | exact Hb ].
Qed.

Lemma difference_number (x y : float) :
  not_negative (Prim2SF x) = true -> not_negative (Prim2SF y) = true ->
  is_number (Prim2SF (x - y)) = true.
Proof.
  intros Hx Hy.
  destruct (Z.le_ge_cases (magnitude (Prim2SF x)) (magnitude (Prim2SF y))) as [Hle | Hge].
  - apply (difference_below x y y Hx Hy Hy Hle (Z.le_refl _)).
  - apply (difference_below x y x Hx Hy Hx (Z.le_refl _) Hge).
Qed.

(** A quotient by the positive infinity, or by a positive number that is
    not below the dividend in magnitude, is a number of magnitude at most
    one. *)
Lemma quotient_below_one (d s : float) :
  is_number (Prim2SF d) = true ->
  Prim2SF s = S754_infinity false \/
  (exists m e, Prim2SF s = S754_finite false m e /\
               (magnitude (Prim2SF d) <= scaled (Zpos m) e)%Z) ->
  is_number (Prim2SF (d / s)) = true /\
  (magnitude (Prim2SF (d / s)) <= scaled (2 ^ 52) (-52))%Z.
Proof.
  intros Hd Hs. rewrite div_spec.
  assert (Hone : (0 <= scaled (2 ^ 52) (-52))%Z) by (rewrite scaled_one; apply Z.lt_le_incl, pow2_pos; lia).
  destruct (Prim2SF d) as [ sd | | | sd md ed ] eqn:Ed; try discriminate;
    destruct Hs as [Hs | (ms & es & Hs & Hle)]; rewrite Hs; simpl; auto.
  destruct (valid_finite d _ _ _ Ed) as [_ Bd].
  destruct (valid_finite s _ _ _ Hs) as [_ Bs].
  simpl in Hle.
  destruct (SF64div_below sd md ed false ms es Bd Bs Hle) as [Hz | (m & e & Hf & Hb)].
  - unfold SF64div in Hz. simpl in Hz. rewrite Hz. simpl. auto.
  - unfold SF64div in Hf. simpl in Hf. rewrite Hf. simpl. auto.
Qed.

(** A number of magnitude at most one lies between -1 and 1. *)
Lemma between_minus_one_and_one (q : float) :
  is_number (Prim2SF q) = true ->
  (magnitude (Prim2SF q) <= scaled (2 ^ 52) (-52))%Z ->
  (-1 <=? q) = true /\ (q <=? 1) = true.
Proof.
  intros Hq Hm. rewrite !leb_spec.
  change (Prim2SF (-1)) with (S754_finite true 4503599627370496 (-52)).
  change (Prim2SF 1) with (S754_finite false 4503599627370496 (-52)).
  destruct (Prim2SF q) as [ sq | | | sq mq eq ] eqn:Eq; try discriminate.
  - split; reflexivity.
  - destruct (valid_finite q _ _ _ Eq) as [Cq Bq]. cbn [magnitude] in Hm.
    pose proof (compare_canonical mq eq 4503599627370496 (-52) Cq canonical_one) as C1.
    pose proof (compare_canonical 4503599627370496 (-52) mq eq canonical_one Cq) as C2.
    change (Zpos 4503599627370496) with (2 ^ 52)%Z in C1, C2.
    unfold SFleb, SFcompare. destruct sq.
    + split; [ | reflexivity ].
      destruct (scaled (2 ^ 52) (-52) ?= scaled (Zpos mq) eq)%Z eqn:Hc.
      * destruct (-52 ?= eq)%Z; try discriminate. rewrite C2. reflexivity.
      * exfalso. apply Z.compare_lt_iff in Hc.
        apply (Z.lt_irrefl (scaled (Zpos mq) eq)). eapply Z.le_lt_trans; eassumption.
      * destruct (-52 ?= eq)%Z; try discriminate; try reflexivity. rewrite C2. reflexivity.
    + split; [ reflexivity | ].
      destruct (scaled (Zpos mq) eq ?= scaled (2 ^ 52) (-52))%Z eqn:Hc.
      * destruct (eq ?= -52)%Z; try discriminate. rewrite C1. reflexivity.
      * destruct (eq ?= -52)%Z; try discriminate; try reflexivity. rewrite C1. reflexivity.
      * exfalso. apply Z.compare_gt_iff in Hc.
        apply (Z.lt_irrefl (scaled (Zpos mq) eq)). eapply Z.le_lt_trans; eassumption.
Qed.

(** The divisor of the normalised difference is the positive infinity or a
    positive number, above both reflectances. *)
Lemma denominator_above (nir red : float) :
  not_negative (Prim2SF nir) = true -> not_negative (Prim2SF red) = true ->
  Prim2SF (nir + red + 1e-10) = S754_infinity false \/
  exists m e,
    Prim2SF (nir + red + 1e-10) = S754_finite false m e /\
    (magnitude (Prim2SF nir) <= scaled (Zpos m) e)%Z /\
    (magnitude (Prim2SF red) <= scaled (Zpos m) e)%Z.
Proof.
  intros Nn Nr.
  assert (Ne : Prim2SF 1e-10 = S754_finite false 7737125245533627 (-86))
    by reflexivity.
  destruct (sum_above nir red Nn Nr) as [Hinf | (Nt & Mn & Mr)].
  { left. rewrite add_spec, Hinf, Ne. reflexivity. }
  assert (Nep : not_negative (Prim2SF 1e-10) = true) by (rewrite Ne; reflexivity).
  destruct (sum_above (nir + red) 1e-10 Nt Nep) as [Hinf | (Ns & Mt & Me)];
    [ left; exact Hinf | right ].
  pose proof (magnitude_finite_pos 1e-10 _ _ _ Ne) as Pe.
  destruct (Prim2SF (nir + red + 1e-10)) as [ ss | | | [ | ] ms es ];
    try discriminate; cbn [magnitude] in Mt, Me; [ lia | ].
  exists ms, es. split; [ reflexivity | lia ].
Qed.

End Order.

(** ** The index formulas in binary64 *)

Section Binary64.
Import SpectralIndices Examples.
Local Open Scope float_scope.












End Binary64.

(** ** The normalised difference *)

Section NormalisedDifference.
Import SpectralIndices Examples.

(** C6, as stated, fails in the arithmetic of the program: the sum
    [1e10 + 0 + 1e-10] rounds to [1e10], and the index is exactly 1. *)
Lemma ndvi_reaches_one :
  (0 <=? 1e10)%float = true /\ (0 <=? 0)%float = true /\
  ndvi_formula 1e10%float 0%float = 1%float /\
  (ndvi_formula 1e10%float 0%float <? 1)%float = false /\
  ndvi general_centerband frame_bright "nir" = Ok [1%float].
Proof. vm_compute. repeat split; reflexivity. Qed.

Lemma ndvi_formula_binary64 (nir red : float) :
  ndvi_formula nir red = ((nir - red) / (nir + red + 1e-10))%float.
Proof. reflexivity. Qed.

(** In binary64 the index of two finite reflectances that are not negative
    lies between -1 and 1, both included. *)
Lemma ndvi_bounded_binary64 (nir red : float) :
  (0 <=? nir)%float = true -> (nir <? infinity)%float = true ->
  (0 <=? red)%float = true -> (red <? infinity)%float = true ->
  (-1 <=? ndvi_formula nir red)%float = true /\
  (ndvi_formula nir red <=? 1)%float = true.
Proof.
  intros Hn Hnf Hr Hrf.
  pose proof (not_negative_input nir Hn Hnf) as Nn.
  pose proof (not_negative_input red Hr Hrf) as Nr.
  rewrite ndvi_formula_binary64.
  apply between_minus_one_and_one; apply quotient_below_one;
    try (apply difference_number; assumption).
  all: destruct (denominator_above nir red Nn Nr)
         as [Hinf | (m & e & Hs & Mn & Mr)]; [ left; exact Hinf | right ].
  all: exists m, e; split; [ exact Hs | ].
  all: replace (scaled (Zpos m) e)
         with (magnitude (Prim2SF (nir + red + 1e-10)%float))
         by (rewrite Hs; reflexivity).
  all: apply difference_below; try assumption; rewrite Hs; try reflexivity;
    assumption.
Qed.

(** In binary64 the difference of a finite number and itself is the zero,
    and the divisor is positive or infinite. *)
Lemma ndvi_same_binary64 (x : float) :
  (0 <? x)%float = true -> (x <? infinity)%float = true ->
  ndvi_formula x x = 0%float.
Proof.
  intros Hpos Hfin. rewrite ltb_spec in Hpos, Hfin.
  assert (Hx : exists m e, Prim2SF x = S754_finite false m e).
  { destruct (Prim2SF x) as [ s | [ | ] | | [ | ] m e ]; try discriminate.
    eexists. eexists. reflexivity. }
  destruct Hx as (m & e & Hx).
  assert (Nx : not_negative (Prim2SF x) = true) by (rewrite Hx; reflexivity).
  rewrite ndvi_formula_binary64.
  apply Prim2SF_inj. rewrite div_spec, sub_spec, Hx, SF64sub_diag.
  destruct (denominator_above x x Nx Nx) as [Hd | (md & ed & Hd & _)];
    rewrite Hd; reflexivity.
Qed.

Lemma ndvi_formula_Q (nir red : Q) :
  (ndvi_formula nir red = (nir - red) / (nir + red + (1 # 10000000000)))%Q.
Proof. reflexivity. Qed.

Lemma ndvi_denominator_positive (nir red : Q) :
  (0 <= nir -> 0 <= red -> 0 < nir + red + (1 # 10000000000))%Q.
Proof. intros Hn Hr. lra. Qed.

(** Without rounding the bounds are strict. *)
Lemma ndvi_strictly_bounded (nir red : Q) :
  (0 <= nir -> 0 <= red ->
   -1 < ndvi_formula nir red /\ ndvi_formula nir red < 1)%Q.
Proof.
  intros Hn Hr. rewrite ndvi_formula_Q.
  pose proof (ndvi_denominator_positive nir red Hn Hr) as Hd.
  split.
  - apply Qlt_shift_div_l; [ exact Hd | lra ].
  - apply Qlt_shift_div_r; [ exact Hd | lra ].
Qed.

(** C6, amended.  For every pair of finite reflectances that are not
    negative, the normalised difference computed in binary64 lies between -1
    and 1, both included, and it is exactly 0 for two equal positive finite
    values; computed without rounding, it lies strictly between -1 and 1. *)
Theorem ndvi_bounds :
  (forall nir red : float,
     (0 <=? nir)%float = true -> (nir <? infinity)%float = true ->
     (0 <=? red)%float = true -> (red <? infinity)%float = true ->
     (-1 <=? ndvi_formula nir red)%float = true /\
     (ndvi_formula nir red <=? 1)%float = true) /\
  (forall x : float,
     (0 <? x)%float = true -> (x <? infinity)%float = true ->
     ndvi_formula x x = 0%float) /\
  (forall nir red : Q,
     (0 <= nir)%Q -> (0 <= red)%Q ->
     (-1 < ndvi_formula nir red)%Q /\ (ndvi_formula nir red < 1)%Q).
Proof.
  split; [ exact ndvi_bounded_binary64 | split ].
  - exact ndvi_same_binary64.
  - exact ndvi_strictly_bounded.
Qed.

Lemma ndvi_bounds_witness :
  ((-1 <=? ndvi_formula 0.5 0.25)%float = true /\
   (ndvi_formula 0.5 0.25 <=? 1)%float = true) /\
  ndvi_formula 0.5%float 0.5%float = 0%float /\
  ((-1 < ndvi_formula (3 # 10) (1 # 10))%Q /\
   (ndvi_formula (3 # 10) (1 # 10) < 1)%Q).
Proof.
  split; [ | split ].
  - apply (proj1 ndvi_bounds 0.5%float 0.25%float); reflexivity.
  - apply (proj1 (proj2 ndvi_bounds) 0.5%float); reflexivity.
  - apply (proj2 (proj2 ndvi_bounds) (3 # 10)%Q (1 # 10)%Q); discriminate.
Defined.

End NormalisedDifference.


(** ** The values of the [average] policy *)

Section AverageExact.
Import SpectralIndices.





End AverageExact.

Section AverageBinary64.
Import SpectralIndices Examples.
Local Open Scope float_scope.















(** The blue band of the two frames: the mean of the two end columns
    without rounding, and the mean of the two numbers beside the gap. *)
Example average_runs :
  _get_band_values general_average frame_exact "blue" = Ok (Some [(3 # 2)%Q]) /\
  _get_band_values general_average frame_gap "blue" = Ok (Some [1.5]) /\
  arithmetic_mean (numbers [nan; 1; 2]) = 1.5.
Proof. vm_compute. repeat split; reflexivity. Qed.

End AverageBinary64.

(** ** Ingestion *)

Section Ingestion.
Import SpectralProcessing.
Context {F : Type}.
Variable py_float : string -> option F.
Variable round3 : F -> F.

Lemma read_lines_values (contents : list string) (n nline : Z) (data : list F) :
  read_lines py_float n nline contents data
  = (vals <- mapM (parse_line py_float) (skipn (Z.to_nat (n - nline)) contents) ;;
     Ok (data ++ vals)%list).
Proof.
  revert nline data.
  induction contents as [ | textline contents IH ]; intros nline data.
  - rewrite skipn_nil. simpl. rewrite app_nil_r. reflexivity.
  - simpl read_lines. destruct (Z.geb_spec nline n) as [Hge | Hlt].
    + replace (Z.to_nat (n - nline)) with O by lia. simpl.
      destruct (parse_line py_float textline) as [v | e]; simpl; [ | reflexivity ].
      rewrite IH. replace (Z.to_nat (n - (nline + 1))) with O by lia. simpl.
      destruct (mapM (parse_line py_float) contents) as [vals | e]; simpl;
        [ | reflexivity ].
      rewrite <- app_assoc. reflexivity.
    + replace (Z.to_nat (n - nline)) with (S (Z.to_nat (n - (nline + 1)))) by lia.
      simpl. apply IH.
Qed.

(** The loop over the lines of a file computes the values the file
    contributes. *)
Lemma read_lines_file_values (contents : list string) (n : Z) (data : list F) :
  read_lines py_float n 0 contents data
  = (vals <- file_values py_float n contents ;; Ok (data ++ vals)%list).
Proof.
  rewrite read_lines_values. unfold file_values. rewrite Z.sub_0_r. reflexivity.
Qed.

(** The loop over the files computes the values the batch contributes. *)
Lemma read_files_values (fs : FileSystem) (dir : string) (n : Z)
  (files : list string) (data : list F) (printed : list string) :
  snd (read_files py_float fs dir n files data printed)
  = (vals <- batch_values py_float fs dir n files ;; Ok (data ++ vals)%list).
Proof.
  revert data printed.
  induction files as [ | file files IH ]; intros data printed; simpl.
  - rewrite app_nil_r. reflexivity.
  - destruct (fs (path_join dir file)) as [contents | ]; [ | apply IH ].
    rewrite read_lines_file_values.
    destruct (file_values py_float n contents) as [vals | e]; simpl;
      [ | reflexivity ].
    rewrite IH.
    destruct (batch_values py_float fs dir n files) as [rest | e]; simpl;
      [ | reflexivity ].
    rewrite app_assoc. reflexivity.
Qed.

Lemma batch_values_present (fs : FileSystem) (dir : string) (n : Z)
  (files : list string) :
  batch_values py_float fs dir n (present fs dir files)
  = batch_values py_float fs dir n files.
Proof.
  unfold present.
  induction files as [ | file files IH ]; simpl; [ reflexivity | ].
  unfold exists_file at 1.
  destruct (fs (path_join dir file)) as [contents | ] eqn:Hfile; [ | exact IH ].
  simpl. rewrite Hfile, IH. reflexivity.
Qed.

(** Every missing file met by the loop is reported. *)
Lemma read_files_reports (fs : FileSystem) (dir : string) (n : Z)
  (files : list string) (data : list F) (printed : list string) (flat : list F) :
  snd (read_files py_float fs dir n files data printed) = Ok flat ->
  forall line,
    In line printed \/
    (exists file, In file files /\ fs (path_join dir file) = None /\
                  line = missing_message (path_join dir file)) ->
    In line (fst (read_files py_float fs dir n files data printed)).
Proof.
  revert data printed.
  induction files as [ | file files IH ]; intros data printed; simpl.
  - intros _ line [Hin | (file & [] & _)]. exact Hin.
  - destruct (fs (path_join dir file)) as [contents | ] eqn:Hfile.
    + destruct (read_lines py_float n 0 contents data) as [data' | e];
        [ | discriminate ].
      intros Hok line [Hin | (file' & [<- | Hin] & Hnone & Hline)].
      * apply (IH _ _ Hok). left. exact Hin.
      * congruence.
      * apply (IH _ _ Hok). right. exists file'. auto.
    + intros Hok line [Hin | (file' & [<- | Hin] & Hnone & Hline)].
      * apply (IH _ _ Hok). left. apply in_or_app. left. exact Hin.
      * apply (IH _ _ Hok). left. apply in_or_app. right. left.
        symmetry. exact Hline.
      * apply (IH _ _ Hok). right. exists file'. auto.
Qed.

(** *** Reshaping *)

Lemma take_rows_length (k width : nat) (flat : list F) :
  List.length (take_rows k width flat) = k.
Proof.
  revert flat. induction k as [ | k IH ]; intros flat; simpl;
    [ reflexivity | rewrite IH; reflexivity ].
Qed.

Lemma take_rows_width (k width : nat) (flat : list F) :
  List.length flat = (k * width)%nat ->
  Forall (fun row => List.length row = width) (take_rows k width flat).
Proof.
  revert flat. induction k as [ | k IH ]; intros flat Hlen; simpl.
  - constructor.
  - constructor.
    + rewrite length_firstn. simpl in Hlen. lia.
    + apply IH. rewrite length_skipn. simpl in Hlen. lia.
Qed.

Lemma reshape_exact (flat : list F) (k width : nat) :
  List.length flat = (k * width)%nat ->
  reshape flat k width = Ok (take_rows k width flat).
Proof.
  intros Hlen. unfold reshape. rewrite Hlen, Nat.eqb_refl. reflexivity.
Qed.

Lemma reshape_inexact (flat : list F) (width : nat) :
  (List.length flat mod width <> 0)%nat ->
  exists msg,
    reshape flat (List.length flat / width) width = Raise (ValueError msg).
Proof.
  intros Hmod. unfold reshape.
  destruct (Nat.eqb_spec (List.length flat / width * width) (List.length flat))
    as [Heq | _].
  - exfalso. apply Hmod.
    pose proof (Nat.div_mod_eq (List.length flat) width). lia.
  - eexists. reflexivity.
Qed.

Lemma wavelengths_positive : (0 < wavelengths)%nat.
Proof. unfold wavelengths. apply Nat.lt_0_succ. Qed.

(** *** [get_data] *)

#[local] Opaque wavelengths.

(** The method in terms of the values of the batch. *)
Lemma get_data_outcome (self : t) (fs : FileSystem) (files : list string) (n : Z) :
  get_data py_float round3 self fs files n
  = let printed := fst (read_files py_float fs (path self) n files [] []) in
    match batch_values py_float fs (path self) n files with
    | Raise e => {| self' := self; stdout := printed; ret := Raise e |}
    | Ok [] =>
        {| self' := self;
           stdout := printed ++ ["No valid data found."];
           ret := Ok None |}
    | Ok flat =>
        match reshape flat (List.length flat / wavelengths) wavelengths with
        | Raise e => {| self' := self; stdout := printed; ret := Raise e |}
        | Ok array =>
            {| self' := set_data self array;
               stdout :=
                 printed
                 ++ [ newline ++ "Files were successfully loaded!";
                      "The dataset has " ++ repr_nat (List.length array)
                      ++ " rows and " ++ repr_nat wavelengths ++ " columns." ];
               ret := Ok (Some (map (map round3) array)) |}
        end
    end.
Proof.
  unfold get_data. cbv zeta. rewrite read_files_values.
  destruct (batch_values py_float fs (path self) n files) as [flat | e];
    reflexivity.
Qed.

Lemma batch_values_complete (fs : FileSystem) (dir : string) (n : Z)
  (files : list string) :
  (forall file, In file files ->
     exists contents vals,
       fs (path_join dir file) = Some contents /\
       file_values py_float n contents = Ok vals /\
       List.length vals = wavelengths) ->
  exists flat,
    batch_values py_float fs dir n files = Ok flat /\
    List.length flat = (List.length files * wavelengths)%nat.
Proof.
  induction files as [ | file files IH ]; intros Hall; simpl.
  - exists []. split; reflexivity.
  - destruct (Hall file (or_introl eq_refl)) as (contents & vals & Hfs & Hvals & Hlen).
    destruct IH as (rest & Hrest & Hrlen).
    { intros file' Hin. apply Hall. right. exact Hin. }
    rewrite Hfs, Hvals, Hrest. simpl. exists (vals ++ rest)%list.
    split; [ reflexivity | ]. rewrite length_app, Hlen, Hrlen. reflexivity.
Qed.

Lemma batch_values_empty (fs : FileSystem) (dir : string) (n : Z)
  (files : list string) :
  (forall file, In file files ->
     fs (path_join dir file) = None \/
     exists contents,
       fs (path_join dir file) = Some contents /\
       Z.of_nat (List.length contents) <= n) ->
  batch_values py_float fs dir n files = Ok [].
Proof.
  induction files as [ | file files IH ]; intros Hall; simpl; [ reflexivity | ].
  assert (Hrest : batch_values py_float fs dir n files = Ok []).
  { apply IH. intros file' Hin. apply Hall. right. exact Hin. }
  destruct (Hall file (or_introl eq_refl)) as [Hnone | (contents & Hfs & Hshort)].
  - rewrite Hnone. exact Hrest.
  - rewrite Hfs. unfold file_values. rewrite skipn_all2 by lia.
    simpl. rewrite Hrest. reflexivity.
Qed.

(** C5, amended.  For every list of files that is not empty and in which
    each file exists and contributes exactly 2151 values, [get_data] returns
    a table with one row per file and 2151 columns; and whenever the values
    of a batch are a positive number that is no multiple of 2151, it raises
    the [ValueError] of the reshape. *)
Theorem get_data_shape (self : t) (fs : FileSystem) (files : list string) (n : Z) :
  (files <> [] ->
   (forall file, In file files ->
      exists contents vals,
        fs (path_join (path self) file) = Some contents /\
        file_values py_float n contents = Ok vals /\
        List.length vals = wavelengths) ->
   exists table,
     ret (get_data py_float round3 self fs files n) = Ok (Some table) /\
     List.length table = List.length files /\
     Forall (fun row => List.length row = wavelengths) table) /\
  (forall flat,
     batch_values py_float fs (path self) n files = Ok flat ->
     (0 < List.length flat)%nat ->
     (List.length flat mod wavelengths <> 0)%nat ->
     exists msg,
       ret (get_data py_float round3 self fs files n) = Raise (ValueError msg)).
Proof.
  pose proof wavelengths_positive as Hw.
  split.
  - intros Hne Hall.
    destruct (batch_values_complete fs (path self) n files Hall) as (flat & Hflat & Hlen).
    rewrite get_data_outcome, Hflat. cbv zeta.
    destruct flat as [ | v flat ].
    { destruct files; [ contradiction | simpl in Hlen; lia ]. }
    rewrite Hlen, Nat.div_mul by lia.
    rewrite (reshape_exact _ _ _ Hlen). simpl ret.
    eexists. split; [ reflexivity | ]. split.
    + rewrite length_map. apply take_rows_length.
    + apply Forall_map.
      apply (Forall_impl _ (P := fun row => List.length row = wavelengths)).
      * intros row Hrow. rewrite length_map. exact Hrow.
      * apply take_rows_width. exact Hlen.
  - intros flat Hflat Hpos Hmod.
    rewrite get_data_outcome, Hflat. cbv zeta.
    destruct flat as [ | v flat ]; [ simpl in Hpos; lia | ].
    destruct (reshape_inexact (v :: flat) wavelengths Hmod) as [msg Hmsg].
    rewrite Hmsg. exists msg. reflexivity.
Qed.

(** C10. When every file of the list is missing or has no line beyond its
    header (so also when the list is empty), [get_data] returns [None],
    leaves the object as it was and says that no valid data was found. *)
Theorem no_data_is_none (self : t) (fs : FileSystem) (files : list string) (n : Z) :
  (forall file, In file files ->
     fs (path_join (path self) file) = None \/
     exists contents,
       fs (path_join (path self) file) = Some contents /\
       Z.of_nat (List.length contents) <= n) ->
  ret (get_data py_float round3 self fs files n) = Ok None /\
  self' (get_data py_float round3 self fs files n) = self /\
  In "No valid data found." (stdout (get_data py_float round3 self fs files n)).
Proof.
  intros Hall. rewrite get_data_outcome.
  rewrite (batch_values_empty fs (path self) n files Hall). cbv zeta.
  repeat split. simpl. apply in_or_app. right. left. reflexivity.
Qed.

End Ingestion.

(** *** Runs on the directory [data] *)

Section IngestionRuns.
Import SpectralProcessing Examples.

Lemma get_data_shape_witness :
  exists table,
    ret (get_data float_of_half round3_of_half process data_directory ["a.sed"] 27)
    = Ok (Some table) /\
    List.length table = List.length ["a.sed"] /\
    Forall (fun row => List.length row = wavelengths) table.
Proof.
  apply (proj1 (get_data_shape float_of_half round3_of_half process
                  data_directory ["a.sed"] 27)).
  - discriminate.
  - intros file [<- | []].
    exists (sed_file 2151), (repeat 0.5%float 2151).
    repeat split; vm_compute; reflexivity.
Defined.

(** C5, as stated, fails on the empty list: every file of it contributes
    2151 values, and [get_data] returns [None], not a table of no row. *)
Lemma get_data_empty_list :
  (forall file, In file [] ->
     exists contents vals,
       data_directory (path_join (path process) file) = Some contents /\
       file_values float_of_half 27 contents = Ok vals /\
       List.length vals = wavelengths) /\
  ret (get_data float_of_half round3_of_half process data_directory [] 27)
  = Ok None.
Proof. split; [ intros file [] | reflexivity ]. Qed.

(** A spectrum cut after 2150 data lines makes the batch fail. *)
Example get_data_truncated :
  ret (get_data float_of_half round3_of_half process data_directory
         ["short.sed"] 27)
  = Raise (ValueError "cannot reshape array of size 2150 into shape (0,2151)")
  /\
  ret (get_data float_of_half round3_of_half process data_directory
         ["a.sed"; "short.sed"] 27)
  = Raise (ValueError "cannot reshape array of size 4301 into shape (1,2151)").
Proof. split; vm_compute; reflexivity. Qed.

(** A batch with a missing file: one row, and one line of report. *)
Example get_data_one_missing :
  ret (get_data float_of_half round3_of_half process data_directory
         ["gone.sed"; "a.sed"] 27)
  = Ok (Some [repeat 0.5%float 2151]) /\
  stdout (get_data float_of_half round3_of_half process data_directory
            ["gone.sed"; "a.sed"] 27)
  = [ newline ++ "Error: The file 'data/gone.sed' does not exist.";
      newline ++ "Files were successfully loaded!";
      "The dataset has 1 rows and 2151 columns." ].
Proof. split; vm_compute; reflexivity. Qed.

Lemma no_data_is_none_witness :
  ret (get_data float_of_half round3_of_half process data_directory
         ["gone.sed"] 27) = Ok None /\
  self' (get_data float_of_half round3_of_half process data_directory
           ["gone.sed"] 27) = process /\
  In "No valid data found."
     (stdout (get_data float_of_half round3_of_half process data_directory
                ["gone.sed"] 27)).
Proof.
  apply (no_data_is_none float_of_half round3_of_half process data_directory
           ["gone.sed"] 27).
  intros file [<- | []]. left. reflexivity.
Defined.

(** [smooth_data] checks nothing itself: what it returns or raises is what
    the library filter does. *)
Lemma smooth_data_delegates (F : Type)
  (savgol_filter : list (list F) -> Z -> Z -> result (list (list F)))
  (self : t) (table : Table) (window_length polyorder : Z) :
  ret (smooth_data savgol_filter self table window_length polyorder)
  = savgol_filter table window_length polyorder.
Proof.
  unfold smooth_data.
  destruct (savgol_filter table window_length polyorder); reflexivity.
Qed.

End IngestionRuns.

(** ** Sensors the constructor accepts *)

Section Acceptance.
Import SpectralIndices.

Lemma dict_get_None {V : Type} (d : list (string * V)) (k : string) :
  dict_get d k = None <-> ~ In k (keys d).
Proof.
  induction d as [ | [k' v'] d IH ]; simpl.
  - split; [ intros _ [] | reflexivity ].
  - destruct (String.eqb_spec k k') as [-> | Hne].
    + split; [ discriminate | intros Hn; exfalso; apply Hn; left; reflexivity ].
    + rewrite IH. split.
      * intros Hn [Heq | Hin]; [ congruence | exact (Hn Hin) ].
      * intros Hn Hin. apply Hn. right. exact Hin.
Qed.

Lemma dict_get_keys {V : Type} (d : list (string * V)) (k : string) (v : V) :
  dict_get d k = Some v -> In k (keys d).
Proof.
  intros Hget. apply dict_get_In in Hget.
  apply (in_map fst) in Hget. exact Hget.
Qed.

(** The keys of the centerband map are the bands of the sensor. *)
Lemma init_keys (name how : string) (self : t) (items : BandTable) :
  __init__ name how = Ok self -> bands self = Some items ->
  keys (centerbands self) = keys items.
Proof.
  intros Hinit Hb.
  apply init_inv in Hinit as (_ & _ & Hb' & Hcb & _).
  rewrite Hb in Hb'. rewrite <- Hb' in Hcb. unfold get_centerband in Hcb.
  destruct items as [ | item items ]; [ discriminate | ].
  destruct (String.eqb name "sentinel-2").
  - injection Hcb as <-. reflexivity.
  - apply mapM_center_item in Hcb as [Hkeys _]. exact Hkeys.
Qed.

(** X1. The constructor returns an object exactly for a sensor of the
    catalogue with one of the two methods, the pair (Sentinel-2, average)
    excepted: no entry of the catalogue makes the derivation of the
    centerbands fail. *)
Theorem constructor_succeeds_iff (name how : string) :
  (exists self, __init__ name how = Ok self) <->
  In name (keys sensors) /\
  (how = "centerband" \/ how = "average") /\
  ~ (name = "sentinel-2" /\ how = "average").
Proof.
  split.
  - intros [self Hinit].
    destruct (init_bands _ _ _ Hinit) as (items & _ & Hs).
    apply init_inv in Hinit as (_ & _ & _ & _ & Hhow & Hnot).
    split; [ exact (dict_get_keys _ _ _ Hs) | ].
    split; [ exact Hhow | ].
    intros [Hn Ha]. exact (Hnot Hn Ha).
  - intros (Hin & Hhow & Hnot).
    simpl in Hin.
    destruct Hhow as [-> | ->];
      repeat (destruct Hin as [<- | Hin];
              [ first [ eexists; vm_compute; reflexivity
                      | exfalso; apply Hnot; split; reflexivity ] | ]);
      destruct Hin.
Qed.

(** X2. With a valid method, a sensor name that is not in the catalogue is
    refused with a [ValueError] that names it; so is ['oli'], the name the
    docstring of the constructor gives. *)
Theorem unknown_sensor_rejected (name how : string) :
  ~ In name (keys sensors) ->
  how = "centerband" \/ how = "average" ->
  __init__ name how
  = Raise (ValueError ("Sensor '" ++ name ++ "' not found in database.")).
Proof.
  intros Hout Hhow.
  assert (Hs : get_sensor_bands name = None) by (apply dict_get_None; exact Hout).
  assert (Hn : String.eqb name "sentinel-2" = false).
  { apply String.eqb_neq. intros ->. apply Hout. simpl. tauto. }
  unfold __init__. rewrite Hs, Hn.
  destruct Hhow as [-> | ->]; reflexivity.
Qed.

Lemma unknown_sensor_rejected_witness :
  __init__ "oli" "average"
  = Raise (ValueError "Sensor 'oli' not found in database.").
Proof.
  apply (unknown_sensor_rejected "oli" "average").
  - simpl. intros [H | [H | [H | [H | [H | [H | []]]]]]]; discriminate H.
  - right. reflexivity.
Defined.

(** X3. The centre wavelength the constructor derives for a band
    [(low, high)] lies inside the band. *)
Theorem centerband_within_band (name how : string) (self : t)
  (items : BandTable) (band : string) (low high : Z) :
  __init__ name how = Ok self ->
  bands self = Some items ->
  dict_get items band = Some (Range low high) ->
  exists c,
    dict_get (centerbands self) band = Some (Single c) /\ low <= c <= high.
Proof.
  intros Hinit Hb Hw.
  destruct (init_bands _ _ _ Hinit) as (items' & Hb' & Hs).
  rewrite Hb in Hb'. injection Hb' as <-.
  apply init_inv in Hinit as (_ & _ & _ & Hcb & _).
  destruct (catalogue_entry _ _ _ _ Hs Hw) as [Hwf Hshape].
  simpl in Hwf, Hshape.
  apply andb_true_iff in Hwf as [Hlow Hle].
  apply Z.leb_le in Hlow, Hle. apply negb_true_iff in Hshape.
  rewrite Hs in Hcb. unfold get_centerband in Hcb.
  destruct items as [ | item items ]; [ discriminate | ].
  rewrite Hshape in Hcb. apply mapM_center_item in Hcb as [_ Hget].
  exists (center low high). split; [ exact (Hget _ _ _ Hw) | ].
  rewrite center_floor by lia.
  split.
  - apply Z.div_le_lower_bound; lia.
  - apply Z.div_le_upper_bound; lia.
Qed.

Lemma centerband_within_band_witness :
  exists c,
    dict_get (centerbands Examples.general_centerband) "nir" = Some (Single c)
    /\ 700 <= c <= 800.
Proof.
  apply (centerband_within_band "general" "centerband"
           Examples.general_centerband
           [ ("blue", Range 450 520); ("green", Range 521 600);
             ("red", Range 601 690); ("nir", Range 700 800) ] "nir");
    reflexivity.
Defined.

End Acceptance.
(** ** Band resolution under the [centerband] policy, and unknown bands *)

Section Lookup.
Import SpectralIndices.
Context {F : Type} {num : Num F}.

Lemma index_of_None (label : Z) (cols : list Z) :
  index_of label cols = None <-> ~ In label cols.
Proof.
  induction cols as [ | c cols IH ]; simpl.
  - split; [ intros _ [] | reflexivity ].
  - destruct (Z.eqb_spec label c) as [-> | Hne].
    + split; [ discriminate | intros Hn; exfalso; apply Hn; left; reflexivity ].
    + destruct (index_of label cols) as [i | ]; simpl.
      * split; [ discriminate | ].
        intros Hn. exfalso. apply Hn. right.
        destruct (in_dec Z.eq_dec label cols) as [Hin | Hout]; [ exact Hin | ].
        apply IH in Hout. discriminate.
      * split; [ | reflexivity ].
        intros _ [Heq | Hin]; [ congruence | ].
        apply (proj1 IH eq_refl). exact Hin.
Qed.

Lemma index_of_nth (label : Z) (cols : list Z) (i : nat) :
  NoDup cols -> nth_error cols i = Some label -> index_of label cols = Some i.
Proof.
  intros Hnd. revert i.
  induction Hnd as [ | c cols Hout _ IH ]; intros i Hi.
  - destruct i; discriminate.
  - destruct i as [ | i ]; simpl in Hi |- *.
    + injection Hi as ->. rewrite Z.eqb_refl. reflexivity.
    + destruct (Z.eqb_spec label c) as [-> | _].
      * exfalso. apply Hout. apply nth_error_In with i. exact Hi.
      * rewrite (IH _ Hi). reflexivity.
Qed.

(** X4. Under the [centerband] policy a band resolves to the column
    labelled by its centre wavelength, one cell per row; when no column has
    that label, resolving raises [KeyError] with the wavelength. *)
Theorem centerband_is_column (self : t) (df : DataFrame F) (band : string)
  (c : Z) :
  method self = "centerband" ->
  dict_get (centerbands self) band = Some (Single c) ->
  (~ In c (columns df) ->
   _get_band_values self df band = Raise (KeyError (repr_Z c))) /\
  (forall i,
     NoDup (columns df) -> nth_error (columns df) i = Some c ->
     exists values,
       _get_band_values self df band = Ok (Some values) /\
       List.length values = List.length (rows df) /\
       forall r row v,
         nth_error (rows df) r = Some row -> nth_error row i = Some v ->
         nth_error values r = Some v).
Proof.
  intros Hm Hc. unfold _get_band_values. rewrite Hm, Hc. simpl.
  split.
  - intros Hout. apply index_of_None in Hout. rewrite Hout. reflexivity.
  - intros i Hnd Hi. rewrite (index_of_nth _ _ _ Hnd Hi). simpl.
    eexists. split; [ reflexivity | ].
    split; [ apply length_map | ].
    intros r row v Hr Hv. rewrite nth_error_map, Hr. simpl. f_equal.
    apply nth_error_nth. exact Hv.
Qed.

(** X5. On an object the constructor built, resolving a name that is no
    band of the sensor raises [KeyError] with that name, under either
    policy and whatever the table holds. *)
Theorem unknown_band_is_key_error (name how : string) (self : t)
  (df : DataFrame F) (items : BandTable) (band : string) :
  __init__ name how = Ok self ->
  bands self = Some items ->
  ~ In band (keys items) ->
  _get_band_values self df band = Raise (KeyError band).
Proof.
  intros Hinit Hb Hout.
  pose proof (init_keys _ _ _ _ Hinit Hb) as Hkeys.
  apply init_inv in Hinit as (_ & Hm & _ & _ & Hhow & _).
  assert (Hi : dict_get items band = None) by (apply dict_get_None; exact Hout).
  assert (Hc : dict_get (centerbands self) band = None).
  { apply dict_get_None. rewrite Hkeys. exact Hout. }
  unfold _get_band_values. rewrite Hm.
  destruct Hhow as [-> | ->]; simpl.
  - rewrite Hc. reflexivity.
  - rewrite Hb, Hi. reflexivity.
Qed.

Lemma rowwise2_length (f : F -> F -> F) (a b : list F) (k : nat) :
  List.length a = k -> List.length b = k -> List.length (rowwise2 f a b) = k.
Proof.
  intros Ha Hb. unfold rowwise2. rewrite length_map, length_combine. lia.
Qed.

Lemma rowwise3_length (f : F -> F -> F -> F) (a b c : list F) (k : nat) :
  List.length a = k -> List.length b = k -> List.length c = k ->
  List.length (rowwise3 f a b c) = k.
Proof.
  intros Ha Hb Hc. unfold rowwise3. rewrite length_map, !length_combine. lia.
Qed.

(** A band resolved on a constructed object is a column of values, one per
    row; the resolver never returns [None] there. *)
Lemma resolved_length (name how : string) (self : t) (df : DataFrame F)
  (band : string) (v : option (list F)) :
  __init__ name how = Ok self ->
  _get_band_values self df band = Ok v ->
  exists values, v = Some values /\ List.length values = List.length (rows df).
Proof.
  intros Hinit. apply init_inv in Hinit as (_ & Hm & _ & _ & Hhow & _).
  unfold _get_band_values. rewrite Hm.
  destruct Hhow as [-> | ->]; simpl.
  - destruct (dict_get (centerbands self) band) as [[low high | w] | ];
      try discriminate.
    simpl. destruct (index_of w (columns df)) as [i | ]; [ | discriminate ].
    simpl. intros [= <-]. eexists. split; [ reflexivity | apply length_map ].
  - destruct (bands self) as [items | ]; [ | discriminate ].
    destruct (dict_get items band) as [[low high | w] | ]; try discriminate.
    intros [= <-]. eexists. split; [ reflexivity | apply length_map ].
Qed.

Lemma operands2 (name how : string) (self : t) (df : DataFrame F)
  (b1 b2 : string) (f : F -> F -> F) (values : list F) :
  __init__ name how = Ok self ->
  (x <- _get_band_values self df b1 ;;
   y <- _get_band_values self df b2 ;;
   x <- operand x ;; y <- operand y ;; Ok (rowwise2 f x y)) = Ok values ->
  List.length values = List.length (rows df).
Proof.
  intros Hinit Hv.
  apply bind_Ok_inv in Hv as (x & Hx & Hv).
  apply bind_Ok_inv in Hv as (y & Hy & Hv).
  destruct (resolved_length _ _ _ _ _ _ Hinit Hx) as (xs & -> & Lx).
  destruct (resolved_length _ _ _ _ _ _ Hinit Hy) as (ys & -> & Ly).
  simpl in Hv. injection Hv as <-. apply rowwise2_length; assumption.
Qed.

End Lookup.

Section Samples.
Import SpectralIndices.

(** X6. On an object the constructor built and a table with distinct
    labels, whatever an index returns has one value per row of the table,
    and a resolved band is never [None]: the five indices fail only with
    the error of a band resolution. *)
Theorem one_value_per_row (name how : string) (self : t)
  (df : DataFrame float) :
  __init__ name how = Ok self ->
  NoDup (columns df) ->
  (forall band v,
     _get_band_values self df band = Ok v ->
     exists values,
       v = Some values /\ List.length values = List.length (rows df)) /\
  (forall nir values,
     ndvi self df nir = Ok values ->
     List.length values = List.length (rows df)) /\
  (forall L C1 C2 G values,
     evi self df L C1 C2 G = Ok values ->
     List.length values = List.length (rows df)) /\
  (forall L values,
     savi self df L = Ok values ->
     List.length values = List.length (rows df)) /\
  (forall values,
     msavi self df = Ok values ->
     List.length values = List.length (rows df)) /\
  (forall values,
     gci self df = Ok values ->
     List.length values = List.length (rows df)).
Proof.
  intros Hinit _.
  split; [ intros band v; apply (resolved_length name how); exact Hinit | ].
  split; [ intros nir values; apply (operands2 name how); exact Hinit | ].
  split.
  - intros L C1 C2 G values Hv. unfold evi in Hv.
    apply bind_Ok_inv in Hv as (x & Hx & Hv).
    apply bind_Ok_inv in Hv as (y & Hy & Hv).
    apply bind_Ok_inv in Hv as (z & Hz & Hv).
    destruct (resolved_length _ _ _ _ _ _ Hinit Hx) as (xs & -> & Lx).
    destruct (resolved_length _ _ _ _ _ _ Hinit Hy) as (ys & -> & Ly).
    destruct (resolved_length _ _ _ _ _ _ Hinit Hz) as (zs & -> & Lz).
    simpl in Hv. injection Hv as <-. apply rowwise3_length; assumption.
  - split; [ intros L values; apply (operands2 name how); exact Hinit | ].
    split; intros values; apply (operands2 name how); exact Hinit.
Qed.

Lemma one_value_per_row_witness :
  (forall band v,
     _get_band_values Examples.general_centerband Examples.frame_bright band = Ok v ->
     exists values,
       v = Some values /\
       List.length values = List.length (rows Examples.frame_bright)) /\
  (forall nir values,
     ndvi Examples.general_centerband Examples.frame_bright nir = Ok values ->
     List.length values = List.length (rows Examples.frame_bright)) /\
  (forall L C1 C2 G values,
     evi Examples.general_centerband Examples.frame_bright L C1 C2 G = Ok values ->
     List.length values = List.length (rows Examples.frame_bright)) /\
  (forall L values,
     savi Examples.general_centerband Examples.frame_bright L = Ok values ->
     List.length values = List.length (rows Examples.frame_bright)) /\
  (forall values,
     msavi Examples.general_centerband Examples.frame_bright = Ok values ->
     List.length values = List.length (rows Examples.frame_bright)) /\
  (forall values,
     gci Examples.general_centerband Examples.frame_bright = Ok values ->
     List.length values = List.length (rows Examples.frame_bright)).
Proof.
  apply (one_value_per_row "general" "centerband" Examples.general_centerband
           Examples.frame_bright).
  - reflexivity.
  - constructor; [ simpl; intros [H | []]; discriminate H | ].
    constructor; [ intros [] | constructor ].
Defined.

End Samples.

Section LookupRuns.
Import SpectralIndices Examples.

Lemma centerband_is_column_witness :
  (~ In 750 (columns frame_bright) ->
   _get_band_values general_centerband frame_bright "nir"
   = Raise (KeyError (repr_Z 750))) /\
  (forall i,
     NoDup (columns frame_bright) ->
     nth_error (columns frame_bright) i = Some 750 ->
     exists values,
       _get_band_values general_centerband frame_bright "nir" = Ok (Some values) /\
       List.length values = List.length (rows frame_bright) /\
       forall r row v,
         nth_error (rows frame_bright) r = Some row -> nth_error row i = Some v ->
         nth_error values r = Some v).
Proof.
  apply (centerband_is_column general_centerband frame_bright "nir" 750);
    reflexivity.
Defined.

(** The near-infrared column of [frame_bright], and the error on a table
    without it. *)
Example centerband_runs :
  _get_band_values general_centerband frame_bright "nir" = Ok (Some [1e10%float])
  /\ _get_band_values general_centerband frame_uv "nir" = Raise (KeyError "750").
Proof. split; vm_compute; reflexivity. Qed.

Lemma unknown_band_is_key_error_witness :
  _get_band_values general_centerband frame_bright "swir1"
  = Raise (KeyError "swir1").
Proof.
  apply (unknown_band_is_key_error "general" "centerband" general_centerband
           frame_bright
           [ ("blue", Range 450 520); ("green", Range 521 600);
             ("red", Range 601 690); ("nir", Range 700 800) ] "swir1");
    try reflexivity.
  simpl. intros [H | [H | [H | [H | []]]]]; discriminate H.
Defined.

End LookupRuns.


(** ** Rows at the edge of the index formulas *)

Section EdgeRows.
Import SpectralIndices Examples.
Local Open Scope float_scope.





(** The first row of each frame is at the edge, the second is not. *)
Example edge_rows :
  match msavi general_centerband frame_negative_red with
  | Ok [v0; v1] => is_nan v0 = true /\ is_nan v1 = false
  | _ => False
  end /\
  gci general_centerband frame_no_green = Ok [infinity; 1].
Proof. vm_compute. repeat split; reflexivity. Qed.

End EdgeRows.
(** ** The indices on a table of the ingestion *)

Section Spectra.
Import SpectralIndices.

Lemma sensors_on_spectrum :
  forallb (fun entry =>
             forallb (fun item =>
                        match snd item with
                        | Range low high =>
                            (350 <=? center low high) && (center low high <=? 2500)
                        | Single d => (350 <=? d) && (d <=? 2500)
                        end)
                     (snd entry))
          sensors = true.
Proof. vm_compute. reflexivity. Qed.

Lemma sensors_four_bands :
  forallb (fun entry =>
             forallb (fun band => existsb (String.eqb band) (keys (snd entry)))
                     ["nir"; "red"; "blue"; "green"])
          sensors = true.
Proof. vm_compute. reflexivity. Qed.

Lemma four_bands (name : string) (items : BandTable) (band : string) :
  get_sensor_bands name = Some items ->
  In band ["nir"; "red"; "blue"; "green"] -> In band (keys items).
Proof.
  intros Hs Hin. apply dict_get_In in Hs.
  pose proof sensors_four_bands as Hall.
  rewrite forallb_forall in Hall. specialize (Hall _ Hs). simpl snd in Hall.
  rewrite forallb_forall in Hall. specialize (Hall _ Hin).
  apply existsb_exists in Hall as (key & Hkey & Heq).
  apply String.eqb_eq in Heq. subst key. exact Hkey.
Qed.

Lemma wavelengths_value : Z.of_nat SpectralProcessing.wavelengths = 2151.
Proof. reflexivity. Qed.

Lemma index_of_seq (start label : Z) (a count : nat) :
  start + Z.of_nat a <= label < start + Z.of_nat a + Z.of_nat count ->
  index_of label (map (fun k => start + Z.of_nat k) (seq a count))
  = Some (Z.to_nat (label - start) - a)%nat.
Proof.
  revert a. induction count as [ | count IH ]; intros a Hin; [ lia | ].
  simpl. destruct (Z.eqb_spec label (start + Z.of_nat a)) as [Heq | Hne].
  - f_equal. lia.
  - rewrite IH by lia. simpl. f_equal. lia.
Qed.

Lemma index_of_range (start label : Z) (count : nat) :
  start <= label < start + Z.of_nat count ->
  exists i, index_of label (Main.range start count) = Some i.
Proof.
  intros Hin. eexists. unfold Main.range. apply index_of_seq. lia.
Qed.

#[local] Opaque Main.range SpectralProcessing.wavelengths.

(** Every centre wavelength of the catalogue is a label from 350 to 2500. *)
Lemma centerband_on_spectrum (name how : string) (self : t)
  (items : BandTable) (band : string) :
  __init__ name how = Ok self ->
  bands self = Some items ->
  In band (keys items) ->
  exists c,
    dict_get (centerbands self) band = Some (Single c) /\ 350 <= c <= 2500.
Proof.
  intros Hinit Hb Hin.
  destruct (init_bands _ _ _ Hinit) as (items' & Hb' & Hs).
  rewrite Hb in Hb'. injection Hb' as <-.
  apply init_inv in Hinit as (_ & _ & _ & Hcb & _).
  destruct (dict_get items band) as [w | ] eqn:Hw;
    [ | apply dict_get_None in Hw; contradiction ].
  destruct (catalogue_entry _ _ _ _ Hs Hw) as [_ Hshape].
  pose proof sensors_on_spectrum as Hall.
  rewrite forallb_forall in Hall.
  specialize (Hall _ (dict_get_In _ _ _ Hs)). simpl snd in Hall.
  rewrite forallb_forall in Hall.
  specialize (Hall _ (dict_get_In _ _ _ Hw)). simpl snd in Hall.
  rewrite Hs in Hcb. unfold get_centerband in Hcb.
  destruct items as [ | item items ]; [ discriminate | ].
  destruct w as [low high | d]; simpl in Hshape.
  - apply negb_true_iff in Hshape. rewrite Hshape in Hcb.
    apply mapM_center_item in Hcb as [_ Hget].
    exists (center low high). split; [ exact (Hget _ _ _ Hw) | lia ].
  - rewrite Hshape in Hcb. injection Hcb as <-.
    exists d. split; [ exact Hw | lia ].
Qed.

(** Every band of the sensor resolves on a table labelled from 350 to
    2500, under either policy. *)
Lemma band_on_spectrum (name how : string) (self : t)
  (items : BandTable) (band : string) (data : list (list float)) :
  __init__ name how = Ok self ->
  bands self = Some items ->
  In band (keys items) ->
  exists values,
    _get_band_values self
      {| columns := Main.range 350 SpectralProcessing.wavelengths; rows := data |} band
    = Ok (Some values).
Proof.
  intros Hinit Hb Hin.
  destruct (centerband_on_spectrum _ _ _ _ _ Hinit Hb Hin) as (c & Hc & Hrange).
  destruct (init_bands _ _ _ Hinit) as (items' & Hb' & Hs).
  rewrite Hb in Hb'. injection Hb' as <-.
  apply init_inv in Hinit as (_ & Hm & _ & _ & Hhow & Hnot).
  unfold _get_band_values. rewrite Hm.
  destruct Hhow as [-> | ->]; simpl.
  - rewrite Hc. simpl.
    destruct (index_of_range 350 c SpectralProcessing.wavelengths) as [i Hi];
      [ rewrite wavelengths_value; lia | ].
    rewrite Hi. simpl. eexists. reflexivity.
  - rewrite Hb.
    destruct (dict_get items band) as [w | ] eqn:Hw;
      [ | apply dict_get_None in Hw; contradiction ].
    destruct (catalogue_entry _ _ _ _ Hs Hw) as [_ Hshape].
    destruct w as [low high | d]; simpl in Hshape.
    + eexists. reflexivity.
    + apply String.eqb_eq in Hshape. exfalso. exact (Hnot Hshape eq_refl).
Qed.

(** X7. A table whose rows have 2151 cells takes the labels 350 to 2500,
    and on it every object the constructor builds resolves each band of
    its sensor and computes the five indices, one value per row: every
    sensor of the catalogue has the bands the indices name, and every
    centre wavelength is one of the labels.  So does [ndvi] with any band
    of the sensor as its near-infrared band. *)
Theorem indices_on_spectra (name how : string) (self : t)
  (data : list (list float)) :
  __init__ name how = Ok self ->
  Forall (fun row => List.length row = SpectralProcessing.wavelengths) data ->
  exists df,
    Main.labelled data = Ok df /\
    rows df = data /\
    (forall items band,
       bands self = Some items -> In band (keys items) ->
       exists values, _get_band_values self df band = Ok (Some values)) /\
    (forall items nir,
       bands self = Some items -> In nir (keys items) ->
       exists n,
         ndvi self df nir = Ok n /\ List.length n = List.length data) /\
    (forall L C1 C2 G,
     exists n e s m g,
       ndvi self df "nir" = Ok n /\ evi self df L C1 C2 G = Ok e /\
       savi self df L = Ok s /\ msavi self df = Ok m /\ gci self df = Ok g /\
       Forall (fun values => List.length values = List.length data)
              [n; e; s; m; g]).
Proof.
  intros Hinit Hrows.
  assert (Hcheck : forallb (fun row => Nat.eqb (List.length row) SpectralProcessing.wavelengths) data
                   = true).
  { apply forallb_forall. intros row Hin. apply Nat.eqb_eq.
    rewrite Forall_forall in Hrows. apply Hrows, Hin. }
  unfold Main.labelled. rewrite Hcheck.
  eexists. split; [ reflexivity | ]. split; [ reflexivity | ].
  split.
  { intros items band Hb Hin. exact (band_on_spectrum _ _ _ _ _ data Hinit Hb Hin). }
  destruct (init_bands _ _ _ Hinit) as (items & Hb & Hs).
  assert (Hany : forall band, In band (keys items) ->
            exists values,
              _get_band_values self
                {| columns := Main.range 350 SpectralProcessing.wavelengths;
                   rows := data |} band
              = Ok (Some values) /\
              List.length values = List.length data).
  { intros band Hin.
    destruct (band_on_spectrum _ _ _ _ band data Hinit Hb Hin) as [values Hv].
    destruct (resolved_length _ _ _ _ _ _ Hinit Hv) as (values' & [= <-] & Hlen).
    exists values. split; [ exact Hv | exact Hlen ]. }
  assert (Hres : forall band, In band ["nir"; "red"; "blue"; "green"] ->
            exists values,
              _get_band_values self
                {| columns := Main.range 350 SpectralProcessing.wavelengths;
                   rows := data |} band
              = Ok (Some values) /\
              List.length values = List.length data).
  { intros band Hin. apply Hany. exact (four_bands _ _ _ Hs Hin). }
  destruct (Hres "red") as (reds & Hr & Lr); [ simpl; tauto | ].
  split.
  { intros items' nir Hb' Hin. rewrite Hb in Hb'. injection Hb' as <-.
    destruct (Hany nir Hin) as (nirs & Hn & Ln).
    unfold ndvi. rewrite Hn, Hr. simpl.
    eexists. split; [ reflexivity | apply rowwise2_length; assumption ]. }
  intros L C1 C2 G.
  destruct (Hres "nir") as (nirs & Hn & Ln); [ simpl; tauto | ].
  destruct (Hres "blue") as (blues & Hbl & Lb); [ simpl; tauto | ].
  destruct (Hres "green") as (greens & Hg & Lg); [ simpl; tauto | ].
  unfold ndvi, evi, savi, msavi, gci. rewrite Hn, Hr, Hbl, Hg. simpl.
  do 5 eexists. repeat split.
  repeat constructor;
    first [ apply rowwise2_length | apply rowwise3_length ]; assumption.
Qed.

Lemma indices_on_spectra_witness :
  exists df,
    Main.labelled Examples.one_spectrum = Ok df /\
    rows df = Examples.one_spectrum /\
    (forall items band,
       bands Examples.general_centerband = Some items -> In band (keys items) ->
       exists values,
         _get_band_values Examples.general_centerband df band = Ok (Some values)) /\
    (forall items nir,
       bands Examples.general_centerband = Some items -> In nir (keys items) ->
       exists n,
         ndvi Examples.general_centerband df nir = Ok n /\
         List.length n = List.length Examples.one_spectrum) /\
    (forall L C1 C2 G,
     exists n e s m g,
       ndvi Examples.general_centerband df "nir" = Ok n /\
       evi Examples.general_centerband df L C1 C2 G = Ok e /\
       savi Examples.general_centerband df L = Ok s /\
       msavi Examples.general_centerband df = Ok m /\
       gci Examples.general_centerband df = Ok g /\
       Forall (fun values =>
                 List.length values = List.length Examples.one_spectrum)
              [n; e; s; m; g]).
Proof.
  apply (indices_on_spectra "general" "centerband" Examples.general_centerband
           Examples.one_spectrum); [ reflexivity | ].
  constructor; [ vm_compute; reflexivity | constructor ].
Defined.

End Spectra.
(** ** The soil-adjusted index *)

Section SoilAdjusted.
Import SpectralIndices.
Local Open Scope float_scope.

(** A product of a number of magnitude at most one by a positive number is
    a number, in magnitude at most that number. *)
Lemma product_below (q c : float) (mc : positive) (ec : Z) :
  is_number (Prim2SF q) = true ->
  (magnitude (Prim2SF q) <= scaled (2 ^ 52) (-52))%Z ->
  Prim2SF c = S754_finite false mc ec ->
  is_number (Prim2SF (q * c)) = true /\
  (magnitude (Prim2SF (q * c)) <= scaled (Zpos mc) ec)%Z.
Proof.
  intros Hq Hone Hc. rewrite mul_spec, Hc.
  destruct (valid_finite c _ _ _ Hc) as [Cc Bc].
  pose proof (scaled_pos (Zpos mc) ec ltac:(lia) ltac:(lia)) as Pc.
  destruct (Prim2SF q) as [ sq | | | sq mq eq ] eqn:Eq; try discriminate.
  { simpl. split; [ reflexivity | lia ]. }
  destruct (valid_finite q _ _ _ Eq) as [Cq Bq].
  cbn [magnitude] in Hone. rewrite scaled_one in Hone.
  assert (Hneg : (eq <= 0)%Z).
  { destruct (Z_le_gt_dec eq 0) as [Hle | Hgt]; [ exact Hle | exfalso ].
    unfold scaled in Hone.
    assert (2 ^ 2200 < 2 ^ (eq + 2200))%Z by (apply Z.pow_lt_mono_r; lia).
    nia. }
  assert (Hmq : (Zpos mq <= 2 ^ (- eq))%Z).
  { unfold scaled in Hone.
    replace (2 ^ 2200)%Z with (2 ^ (- eq) * 2 ^ (eq + 2200))%Z in Hone
      by (rewrite <- Z.pow_add_r by lia; f_equal; lia).
    apply Z.mul_le_mono_pos_r in Hone; [ exact Hone | apply pow2_pos; lia ]. }
  assert (Hval : (scaled (Zpos (mq * mc)) (eq + ec) <= scaled (Zpos mc) ec)%Z).
  { unfold scaled. rewrite Pos2Z.inj_mul.
    replace (ec + 2200)%Z with (- eq + (eq + ec + 2200))%Z by lia.
    rewrite (Z.pow_add_r 2 (- eq)) by lia.
    pose proof (pow2_pos (eq + ec + 2200) ltac:(lia)) as Pp.
    rewrite Z.mul_assoc. apply Z.mul_le_mono_nonneg_r; [ lia | ].
    rewrite (Z.mul_comm (Zpos mq)). apply Z.mul_le_mono_nonneg_l; lia. }
  unfold SF64mul, SFmul.
  destruct (binary_round_aux_below (xorb sq false) (Zpos (mq * mc)) (eq + ec)
              loc_Exact (Zpos mc) ec) as [Hz | (m & e & Hf & Hb)];
    try lia; try assumption.
  - intros Hloc. contradiction.
  - unfold shift_of. rewrite fexp_value.
    assert (Zdigits2 (Zpos (mq * mc)) + (eq + ec) <= Zdigits2 (Zpos mc) + ec)%Z
      by (apply magnitude_mono; try lia; exact Hval).
    destruct Cc as [_ Hcan]. rewrite fexp_value in Hcan. lia.
  - rewrite Hz. simpl. split; [ reflexivity | lia ].
  - rewrite Hf. simpl. split; [ reflexivity | exact Hb ].
Qed.

(** A number lies between a positive number above it in magnitude and the
    opposite of that number. *)
Lemma between_bounds (r c : float) (mc : positive) (ec : Z) :
  is_number (Prim2SF r) = true ->
  Prim2SF c = S754_finite false mc ec ->
  (magnitude (Prim2SF r) <= scaled (Zpos mc) ec)%Z ->
  (- c <=? r) = true /\ (r <=? c) = true.
Proof.
  intros Hr Hc Hm. rewrite !leb_spec, opp_spec, Hc. cbn [SFopp negb].
  destruct (valid_finite c _ _ _ Hc) as [Cc Bc].
  destruct (Prim2SF r) as [ sr | | | sr mr er ] eqn:Er; try discriminate.
  - split; reflexivity.
  - destruct (valid_finite r _ _ _ Er) as [Cr Br]. cbn [magnitude] in Hm.
    pose proof (compare_canonical mr er mc ec Cr Cc) as C1.
    pose proof (compare_canonical mc ec mr er Cc Cr) as C2.
    unfold SFleb, SFcompare. destruct sr.
    + split; [ | reflexivity ].
      destruct (scaled (Zpos mc) ec ?= scaled (Zpos mr) er)%Z eqn:Hcmp.
      * destruct (ec ?= er)%Z; try discriminate. rewrite C2. reflexivity.
      * exfalso. apply Z.compare_lt_iff in Hcmp.
        apply (Z.lt_irrefl (scaled (Zpos mr) er)). eapply Z.le_lt_trans; eassumption.
      * destruct (ec ?= er)%Z; try discriminate; try reflexivity.
        rewrite C2. reflexivity.
    + split; [ reflexivity | ].
      destruct (scaled (Zpos mr) er ?= scaled (Zpos mc) ec)%Z eqn:Hcmp.
      * destruct (er ?= ec)%Z; try discriminate. rewrite C1. reflexivity.
      * destruct (er ?= ec)%Z; try discriminate; try reflexivity.
        rewrite C1. reflexivity.
      * exfalso. apply Z.compare_gt_iff in Hcmp.
        apply (Z.lt_irrefl (scaled (Zpos mr) er)). eapply Z.le_lt_trans; eassumption.
Qed.

(** The divisor of the soil-adjusted index is the positive infinity or a
    positive number, above both reflectances. *)
Lemma savi_denominator_above (nir red L : float) :
  not_negative (Prim2SF nir) = true -> not_negative (Prim2SF red) = true ->
  not_negative (Prim2SF L) = true ->
  Prim2SF (nir + red + L + 1e-10) = S754_infinity false \/
  exists m e,
    Prim2SF (nir + red + L + 1e-10) = S754_finite false m e /\
    (magnitude (Prim2SF nir) <= scaled (Zpos m) e)%Z /\
    (magnitude (Prim2SF red) <= scaled (Zpos m) e)%Z.
Proof.
  intros Nn Nr NL.
  assert (Ne : Prim2SF 1e-10 = S754_finite false 7737125245533627 (-86))
    by reflexivity.
  assert (Nep : not_negative (Prim2SF 1e-10) = true) by (rewrite Ne; reflexivity).
  assert (Hinf : forall x y, Prim2SF x = S754_infinity false ->
                   not_negative (Prim2SF y) = true ->
                   Prim2SF (x + y) = S754_infinity false).
  { intros x y Hx Hy. rewrite add_spec, Hx.
    destruct (Prim2SF y) as [ s | [ | ] | | [ | ] m e ];
      try discriminate; reflexivity. }
  destruct (sum_above nir red Nn Nr) as [H1 | (N1 & Mn & Mr)].
  { left. apply Hinf; [ apply Hinf; assumption | exact Nep ]. }
  destruct (sum_above (nir + red) L N1 NL) as [H2 | (N2 & M1 & _)].
  { left. apply Hinf; assumption. }
  destruct (sum_above (nir + red + L) 1e-10 N2 Nep) as [H3 | (N3 & M2 & Me)];
    [ left; exact H3 | right ].
  pose proof (magnitude_finite_pos 1e-10 _ _ _ Ne) as Pe.
  destruct (Prim2SF (nir + red + L + 1e-10)) as [ ss | | | [ | ] ms es ];
    try discriminate; cbn [magnitude] in M2, Me; [ lia | ].
  exists ms, es. split; [ reflexivity | lia ].
Qed.

Lemma savi_formula_binary64 (L nir red : float) :
  savi_formula L nir red = (nir - red) / (nir + red + L + 1e-10) * (1 + L).
Proof. reflexivity. Qed.

(** The factor [1 + L] is a positive number when it is finite. *)
Lemma savi_factor (L : float) :
  (0 <=? L) = true -> (1 + L <? infinity) = true ->
  not_negative (Prim2SF L) = true /\
  exists m e, Prim2SF (1 + L) = S754_finite false m e.
Proof.
  intros HL Hfin. rewrite leb_spec in HL. rewrite ltb_spec in Hfin.
  assert (NL : not_negative (Prim2SF L) = true).
  { rewrite add_spec in Hfin.
    destruct (Prim2SF L) as [ s | [ | ] | | [ | ] m e ];
      try reflexivity; discriminate. }
  split; [ exact NL | ].
  assert (N1 : not_negative (Prim2SF 1) = true) by reflexivity.
  destruct (sum_above 1 L N1 NL) as [Hinf | (Nc & M1 & _)].
  { rewrite Hinf in Hfin. discriminate. }
  change (magnitude (Prim2SF 1)) with (scaled (2 ^ 52) (-52)) in M1.
  rewrite scaled_one in M1. pose proof (pow2_pos 2200 ltac:(lia)) as P.
  destruct (Prim2SF (1 + L)) as [ s | | | [ | ] m e ]; try discriminate;
    cbn [magnitude] in M1; [ lia | ].
  exists m, e. reflexivity.
Qed.

Lemma savi_bounded_binary64 (nir red L : float) :
  (0 <=? nir) = true -> (nir <? infinity) = true ->
  (0 <=? red) = true -> (red <? infinity) = true ->
  (0 <=? L) = true -> (1 + L <? infinity) = true ->
  (- (1 + L) <=? savi_formula L nir red) = true /\
  (savi_formula L nir red <=? 1 + L) = true.
Proof.
  intros Hn Hnf Hr Hrf HL HLf.
  pose proof (not_negative_input nir Hn Hnf) as Nn.
  pose proof (not_negative_input red Hr Hrf) as Nr.
  destruct (savi_factor L HL HLf) as (NL & mc & ec & Hc).
  rewrite savi_formula_binary64.
  assert (Hq : is_number (Prim2SF ((nir - red) / (nir + red + L + 1e-10))) = true /\
               (magnitude (Prim2SF ((nir - red) / (nir + red + L + 1e-10)))
                <= scaled (2 ^ 52) (-52))%Z).
  { apply quotient_below_one; [ apply difference_number; assumption | ].
    destruct (savi_denominator_above nir red L Nn Nr NL)
      as [Hinf | (m & e & Hs & Mn & Mr)]; [ left; exact Hinf | right ].
    exists m, e. split; [ exact Hs | ].
    replace (scaled (Zpos m) e)
      with (magnitude (Prim2SF (nir + red + L + 1e-10)))
      by (rewrite Hs; reflexivity).
    apply difference_below; try assumption; rewrite Hs; try reflexivity;
      assumption. }
  destruct Hq as [Hq Hone].
  destruct (product_below _ (1 + L) mc ec Hq Hone Hc) as [Hp Hm].
  exact (between_bounds _ (1 + L) mc ec Hp Hc Hm).
Qed.

Lemma savi_same_binary64 (x L : float) :
  (0 <? x) = true -> (x <? infinity) = true ->
  (0 <=? L) = true -> (1 + L <? infinity) = true ->
  savi_formula L x x = 0.
Proof.
  intros Hpos Hfin HL HLf. rewrite ltb_spec in Hpos, Hfin.
  assert (Hx : exists m e, Prim2SF x = S754_finite false m e).
  { destruct (Prim2SF x) as [ s | [ | ] | | [ | ] m e ]; try discriminate.
    eexists. eexists. reflexivity. }
  destruct Hx as (m & e & Hx).
  assert (Nx : not_negative (Prim2SF x) = true) by (rewrite Hx; reflexivity).
  destruct (savi_factor L HL HLf) as (NL & mc & ec & Hc).
  rewrite savi_formula_binary64.
  apply Prim2SF_inj. rewrite mul_spec, Hc, div_spec, sub_spec, Hx, SF64sub_diag.
  destruct (savi_denominator_above x x L Nx Nx NL) as [Hd | (md & ed & Hd & _)];
    rewrite Hd; reflexivity.
Qed.

End SoilAdjusted.

Section SoilAdjustedExact.
Import SpectralIndices.

Lemma savi_formula_Q (L nir red : Q) :
  (savi_formula L nir red
   = (nir - red) / (nir + red + L + (1 # 10000000000)) * (1 + L))%Q.
Proof. reflexivity. Qed.

Lemma savi_strictly_bounded (nir red L : Q) :
  (0 <= nir -> 0 <= red -> 0 <= L ->
   - (1 + L) < savi_formula L nir red /\ savi_formula L nir red < 1 + L)%Q.
Proof.
  intros Hn Hr HL. rewrite savi_formula_Q.
  assert (Hd : (0 < nir + red + L + (1 # 10000000000))%Q) by lra.
  set (q := ((nir - red) / (nir + red + L + (1 # 10000000000)))%Q).
  assert (Hq : (-1 < q /\ q < 1)%Q).
  { unfold q. split.
    - apply Qlt_shift_div_l; [ exact Hd | lra ].
    - apply Qlt_shift_div_r; [ exact Hd | lra ]. }
  destruct Hq as [Hlo Hhi]. split; nra.
Qed.

(** X8. For finite reflectances that are not negative and a soil factor [L]
    that is not negative, with [1 + L] finite, the soil-adjusted index
    computed in binary64 lies between [-(1 + L)] and [1 + L], both included,
    and is exactly 0 for two equal positive values; computed without
    rounding it lies strictly between those bounds. *)
Theorem savi_bounds :
  (forall nir red L : float,
     (0 <=? nir)%float = true -> (nir <? infinity)%float = true ->
     (0 <=? red)%float = true -> (red <? infinity)%float = true ->
     (0 <=? L)%float = true -> (1 + L <? infinity)%float = true ->
     (- (1 + L) <=? savi_formula L nir red)%float = true /\
     (savi_formula L nir red <=? 1 + L)%float = true) /\
  (forall x L : float,
     (0 <? x)%float = true -> (x <? infinity)%float = true ->
     (0 <=? L)%float = true -> (1 + L <? infinity)%float = true ->
     savi_formula L x x = 0%float) /\
  (forall nir red L : Q,
     (0 <= nir)%Q -> (0 <= red)%Q -> (0 <= L)%Q ->
     (- (1 + L) < savi_formula L nir red)%Q /\
     (savi_formula L nir red < 1 + L)%Q).
Proof.
  split; [ exact savi_bounded_binary64 | split ].
  - exact savi_same_binary64.
  - exact savi_strictly_bounded.
Qed.

Lemma savi_bounds_witness :
  ((- (1 + 0.5) <=? savi_formula 0.5 0.5 0.25)%float = true /\
   (savi_formula 0.5 0.5 0.25 <=? 1 + 0.5)%float = true) /\
  savi_formula 0.5%float 0.25%float 0.25%float = 0%float /\
  ((- (1 + (1 # 2)) < savi_formula (1 # 2) (3 # 10) (1 # 10))%Q /\
   (savi_formula (1 # 2) (3 # 10) (1 # 10) < 1 + (1 # 2))%Q).
Proof.
  split; [ | split ].
  - apply (proj1 savi_bounds 0.5%float 0.25%float 0.5%float); reflexivity.
  - apply (proj1 (proj2 savi_bounds) 0.25%float 0.5%float); reflexivity.
  - apply (proj2 (proj2 savi_bounds) (3 # 10)%Q (1 # 10)%Q (1 # 2)%Q);
      discriminate.
Defined.

End SoilAdjustedExact.
(** ** Lines of a SED file *)

Section Lines.
Import SpectralProcessing.
Context {F : Type}.
Variable py_float : string -> option F.

Lemma append_assoc (a b c : string) : (a ++ b) ++ c = a ++ (b ++ c).
Proof.
  induction a as [ | x a IH ]; simpl; [ reflexivity | rewrite IH; reflexivity ].
Qed.

(** Trailing characters that [rstrip] removes altogether do not count. *)
Lemma rstrip_app_space (s ws : string) :
  rstrip ws = "" -> rstrip (s ++ ws) = rstrip s.
Proof.
  intros Hws. induction s as [ | c s IH ]; simpl; [ exact Hws | ].
  rewrite IH. reflexivity.
Qed.

(** A text that ends with a character [rstrip] keeps is left as it is. *)
Lemma rstrip_app_kept (s v : string) :
  v <> "" -> rstrip v = v -> rstrip (s ++ v) = s ++ v.
Proof.
  intros Hne Hv. induction s as [ | c s IH ]; simpl; [ exact Hv | ].
  rewrite IH. destruct (s ++ v) as [ | c' sv ] eqn:Hsv; [ | reflexivity ].
  destruct s; simpl in Hsv; [ contradiction | discriminate ].
Qed.

Lemma rstrip_chars (s : string) (c : ascii) :
  In c (list_ascii_of_string (rstrip s)) -> In c (list_ascii_of_string s).
Proof.
  induction s as [ | c' s IH ]; simpl; [ intros [] | ].
  destruct (rstrip s) as [ | k kept ].
  - destruct (is_space c'); simpl; [ intros [] | ].
    intros [Heq | []]. left. exact Heq.
  - simpl. intros [Heq | Hin]; [ left; exact Heq | right; apply IH; exact Hin ].
Qed.

Lemma split_no_sep (sep : ascii) (s : string) :
  ~ In sep (list_ascii_of_string s) -> split sep s = [s].
Proof.
  induction s as [ | c s IH ]; simpl; intros Hout; [ reflexivity | ].
  destruct (Ascii.eqb_spec c sep) as [Heq | Hne].
  - exfalso. apply Hout. left. exact Heq.
  - rewrite IH; [ reflexivity | ]. intros Hin. apply Hout. right. exact Hin.
Qed.

Lemma split_first_field (sep : ascii) (w rest : string) :
  ~ In sep (list_ascii_of_string w) ->
  split sep (w ++ String sep rest) = w :: split sep rest.
Proof.
  induction w as [ | c w IH ]; simpl; intros Hout.
  - rewrite Ascii.eqb_refl. reflexivity.
  - destruct (Ascii.eqb_spec c sep) as [Heq | Hne].
    + exfalso. apply Hout. left. exact Heq.
    + rewrite IH; [ reflexivity | ]. intros Hin. apply Hout. right. exact Hin.
Qed.

(** X9. A data line is read by its second field: on a line made of a first
    field, a tab, a value text and trailing whitespace (the line end, or
    tabs), [float] is applied to the value text. *)
Theorem parse_line_second_field (w v ws : string) :
  ~ In tab (list_ascii_of_string w) ->
  ~ In tab (list_ascii_of_string v) ->
  v <> "" -> rstrip v = v -> rstrip ws = "" ->
  (forall x, py_float v = Some x ->
     parse_line py_float (w ++ String tab (v ++ ws)) = Ok x) /\
  (py_float v = None ->
   exists msg,
     parse_line py_float (w ++ String tab (v ++ ws)) = Raise (ValueError msg)).
Proof.
  intros Hw Hv Hne Hkept Hws.
  assert (Hfield : nth_error (split tab (rstrip (w ++ String tab (v ++ ws)))) 1
                   = Some v).
  { replace (w ++ String tab (v ++ ws)) with ((w ++ String tab v) ++ ws)
      by (rewrite append_assoc; reflexivity).
    rewrite rstrip_app_space by exact Hws.
    change (w ++ String tab v) with (w ++ (String tab "" ++ v)).
    rewrite <- append_assoc.
    rewrite rstrip_app_kept by assumption.
    rewrite append_assoc. simpl String.append.
    rewrite split_first_field by exact Hw.
    rewrite split_no_sep by exact Hv. reflexivity. }
  unfold parse_line. rewrite Hfield. split.
  - intros x Hx. rewrite Hx. reflexivity.
  - intros Hx. rewrite Hx. eexists. reflexivity.
Qed.

(** X10. A line with nothing but whitespace after its first field raises
    [IndexError]: so does a blank line, a line without a tab, and a line
    whose value is missing, the tab being stripped with the line end. *)
Theorem parse_line_no_value (w ws : string) :
  ~ In tab (list_ascii_of_string w) ->
  rstrip ws = "" ->
  parse_line py_float (w ++ ws) = Raise (IndexError "list index out of range").
Proof.
  intros Hw Hws. unfold parse_line.
  rewrite rstrip_app_space by exact Hws.
  rewrite split_no_sep; [ reflexivity | ].
  intros Hin. apply Hw. apply rstrip_chars. exact Hin.
Qed.

End Lines.

Section LinesRuns.
Import SpectralProcessing Examples.

Lemma parse_line_second_field_witness :
  (forall x, float_of_half "0.5" = Some x ->
     parse_line float_of_half ("350" ++ String tab ("0.5" ++ newline)) = Ok x) /\
  (float_of_half "0.5" = None ->
   exists msg,
     parse_line float_of_half ("350" ++ String tab ("0.5" ++ newline))
     = Raise (ValueError msg)).
Proof.
  apply (parse_line_second_field float_of_half "350" "0.5" newline);
    try reflexivity; try discriminate.
  - simpl. intros [H | [H | [H | []]]]; discriminate H.
  - simpl. intros [H | [H | [H | []]]]; discriminate H.
Defined.

Lemma parse_line_no_value_witness :
  parse_line float_of_half ("350" ++ String tab newline)
  = Raise (IndexError "list index out of range").
Proof.
  apply (parse_line_no_value float_of_half "350" (String tab newline)).
  - simpl. intros [H | [H | [H | []]]]; discriminate H.
  - reflexivity.
Defined.

End LinesRuns.
(** ** Listing the SED files, and viewing one *)

Section Sorting.
Import SpectralProcessing.

Lemma endswith_spec (suffix s : string) :
  endswith suffix s = true <-> exists stem, s = stem ++ suffix.
Proof.
  induction s as [ | c s IH ]; cbn [endswith].
  - rewrite orb_false_r. split.
    + intros Heq. apply String.eqb_eq in Heq. exists "". exact Heq.
    + intros [stem Heq]. apply String.eqb_eq.
      destruct stem; [ exact Heq | discriminate ].
  - rewrite orb_true_iff, IH. split.
    + intros [Heq | [stem Heq]].
      * apply String.eqb_eq in Heq. exists "". exact Heq.
      * exists (String c stem). simpl. rewrite Heq. reflexivity.
    + intros [[ | c' stem] Heq]; simpl in Heq.
      * left. apply String.eqb_eq. exact Heq.
      * right. injection Heq as _ Heq. exists stem. exact Heq.
Qed.

Lemma ascii_compare_N (a b : ascii) :
  Ascii.compare a b = (N_of_ascii a ?= N_of_ascii b)%N.
Proof. reflexivity. Qed.

Lemma string_compare_trans (a b c : string) :
  String.compare a b <> Gt -> String.compare b c <> Gt ->
  String.compare a c <> Gt.
Proof.
  revert b c. induction a as [ | x a IH ]; intros [ | y b ] [ | z c ]; simpl;
    try congruence.
  rewrite !ascii_compare_N.
  destruct (N.compare_spec (N_of_ascii x) (N_of_ascii y)) as [Hxy | Hxy | Hxy];
    destruct (N.compare_spec (N_of_ascii y) (N_of_ascii z)) as [Hyz | Hyz | Hyz];
    try congruence.
  - rewrite Hxy, Hyz, N.compare_refl. apply IH.
  - intros _ _. rewrite Hxy. apply N.compare_lt_iff in Hyz. rewrite Hyz. discriminate.
  - intros _ _. rewrite <- Hyz. apply N.compare_lt_iff in Hxy. rewrite Hxy. discriminate.
  - intros _ _. assert (Hxz : (N_of_ascii x < N_of_ascii z)%N) by lia.
    apply N.compare_lt_iff in Hxz. rewrite Hxz. discriminate.
Qed.

Lemma leb_trans (a b c : string) :
  String.leb a b = true -> String.leb b c = true -> String.leb a c = true.
Proof.
  unfold String.leb. intros Hab Hbc.
  pose proof (string_compare_trans a b c) as Ht.
  destruct (String.compare a b); try discriminate;
    destruct (String.compare b c); try discriminate;
    destruct (String.compare a c); try reflexivity;
    exfalso; apply Ht; congruence.
Qed.

Lemma insert_sorted_perm (x : string) (l : list string) :
  Permutation (insert_sorted x l) (x :: l).
Proof.
  induction l as [ | y l IH ]; simpl; [ reflexivity | ].
  destruct (String.leb x y); [ reflexivity | ].
  rewrite IH. apply perm_swap.
Qed.

Lemma sorted_perm (l : list string) : Permutation (sorted l) l.
Proof.
  induction l as [ | x l IH ]; simpl; [ reflexivity | ].
  rewrite insert_sorted_perm, IH. reflexivity.
Qed.

Lemma insert_sorted_ascending (x : string) (l : list string) :
  StronglySorted (fun a b => String.leb a b = true) l ->
  StronglySorted (fun a b => String.leb a b = true) (insert_sorted x l).
Proof.
  induction 1 as [ | y l Hs IH Hall ]; simpl.
  - constructor; constructor.
  - destruct (String.leb x y) eqn:Hxy.
    + constructor; [ constructor; assumption | ].
      constructor; [ exact Hxy | ].
      apply (Forall_impl _ (P := fun b => String.leb y b = true));
        [ intros b Hyb; exact (leb_trans _ _ _ Hxy Hyb) | exact Hall ].
    + constructor; [ exact IH | ].
      assert (Hyx : String.leb y x = true).
      { destruct (String.leb_total x y) as [H | H]; [ congruence | exact H ]. }
      rewrite Forall_forall. intros b Hb.
      apply (Permutation_in _ (insert_sorted_perm x l)) in Hb.
      destruct Hb as [<- | Hb]; [ exact Hyx | ].
      rewrite Forall_forall in Hall. apply Hall, Hb.
Qed.

Lemma sorted_ascending (l : list string) :
  StronglySorted (fun a b => String.leb a b = true) (sorted l).
Proof.
  induction l as [ | x l IH ]; simpl; [ constructor | ].
  apply insert_sorted_ascending, IH.
Qed.

End Sorting.

Section Directory.
Import SpectralProcessing.
Context {F : Type}.
Variable path_exists : string -> bool.
Variable listdir : string -> result (list string).

(** X11. On a directory that can be listed, [get_sedfiles] returns and
    stores in [self.files] exactly the entries whose name ends in [.sed],
    each as often as it is listed, in ascending order; on a path that does
    not exist it returns the empty list and leaves [self.files] as it
    was. *)
Theorem get_sedfiles_sorted (self : t (F := F)) :
  (forall entries,
     path_exists (path self) = true ->
     listdir (path self) = Ok entries ->
     exists found,
       ret (get_sedfiles path_exists listdir self) = Ok found /\
       self' (get_sedfiles path_exists listdir self) = set_files self found /\
       (forall file,
          In file found <->
          In file entries /\ exists stem, file = stem ++ ".sed") /\
       Permutation found (filter (endswith ".sed") entries) /\
       StronglySorted (fun a b => String.leb a b = true) found) /\
  (path_exists (path self) = false ->
   ret (get_sedfiles path_exists listdir self) = Ok [] /\
   self' (get_sedfiles path_exists listdir self) = self).
Proof.
  unfold get_sedfiles. split.
  - intros entries He Hl. rewrite He, Hl. simpl.
    eexists. split; [ reflexivity | ]. split; [ reflexivity | ].
    split; [ | split; [ apply sorted_perm | apply sorted_ascending ] ].
    intros file. rewrite <- endswith_spec, <- filter_In.
    split; apply Permutation_in;
      [ | symmetry ]; apply sorted_perm.
  - intros He. rewrite He. simpl. split; reflexivity.
Qed.

(** The loop of [view] with a bound prints the lines up to the bound. *)
Lemma view_lines_bound (k : Z) (nline : nat) (contents : list string) :
  view_lines (Some k) nline contents
  = map (fun il => repr_nat (fst il) ++ " " ++ rstrip (snd il))
        (combine (seq nline (Z.to_nat (k + 1 - Z.of_nat nline))) contents).
Proof.
  revert nline. induction contents as [ | textline contents IH ]; intros nline.
  - rewrite combine_nil. reflexivity.
  - simpl view_lines. rewrite IH.
    destruct (Z.leb_spec (Z.of_nat nline) k) as [Hle | Hgt].
    + replace (Z.to_nat (k + 1 - Z.of_nat nline))
        with (S (Z.to_nat (k + 1 - Z.of_nat (S nline)))) by lia.
      reflexivity.
    + replace (Z.to_nat (k + 1 - Z.of_nat nline)) with O by lia.
      replace (Z.to_nat (k + 1 - Z.of_nat (S nline))) with O by lia.
      reflexivity.
Qed.

Lemma view_lines_all (nline : nat) (contents : list string) :
  view_lines None nline contents
  = map (fun il => repr_nat (fst il) ++ " " ++ strip (snd il))
        (combine (seq nline (List.length contents)) contents).
Proof.
  revert nline. induction contents as [ | textline contents IH ]; intros nline;
    [ reflexivity | ].
  simpl. rewrite IH. reflexivity.
Qed.

(** X12. On a file that can be read, [view(file, n)] prints the lines
    numbered 0 to [n] of the file, which are its first [n + 1] lines, each
    after its number and without its trailing whitespace; without [n] it
    prints every line, stripped at both ends.  On a file that does not
    exist it prints one line of error.  In both cases it returns [None] and
    leaves the object as it was. *)
Theorem view_first_lines (self : t (F := F)) (fs : FileSystem) (file : string) :
  (forall contents,
     fs (path_join (path self) file) = Some contents ->
     (forall k,
        stdout (view self fs file (Some k))
        = map (fun il => repr_nat (fst il) ++ " " ++ rstrip (snd il))
              (combine (seq 0 (Z.to_nat (k + 1))) contents)) /\
     (forall k,
        0 <= k ->
        List.length (stdout (view self fs file (Some k)))
        = Nat.min (Z.to_nat k + 1) (List.length contents)) /\
     stdout (view self fs file None)
     = map (fun il => repr_nat (fst il) ++ " " ++ strip (snd il))
           (combine (seq 0 (List.length contents)) contents) /\
     (forall n,
        ret (view self fs file n) = Ok tt /\
        self' (view self fs file n) = self)) /\
  (fs (path_join (path self) file) = None ->
   forall n,
     stdout (view self fs file n)
     = [missing_message (path_join (path self) file)] /\
     ret (view self fs file n) = Ok tt /\
     self' (view self fs file n) = self).
Proof.
  unfold view. split.
  - intros contents Hfs. rewrite Hfs. simpl.
    assert (Hk : forall k,
              view_lines (Some k) 0 contents
              = map (fun il => repr_nat (fst il) ++ " " ++ rstrip (snd il))
                    (combine (seq 0 (Z.to_nat (k + 1))) contents)).
    { intros k. rewrite view_lines_bound. do 3 f_equal. lia. }
    split; [ exact Hk | ]. split; [ | split ].
    + intros k Hpos. rewrite Hk, length_map, length_combine, length_seq. lia.
    + apply view_lines_all.
    + intros n. split; reflexivity.
  - intros Hfs n. rewrite Hfs. repeat split.
Qed.

End Directory.

Section DirectoryRuns.
Import SpectralProcessing Examples.

Lemma get_sedfiles_sorted_witness :
  (exists found,
     ret (get_sedfiles data_exists data_listing process) = Ok found /\
     self' (get_sedfiles data_exists data_listing process)
     = set_files process found /\
     (forall file,
        In file found <->
        In file ["short.sed"; "notes.txt"; "a.sed"] /\
        exists stem, file = stem ++ ".sed") /\
     Permutation found
       (filter (endswith ".sed") ["short.sed"; "notes.txt"; "a.sed"]) /\
     StronglySorted (fun a b => String.leb a b = true) found) /\
  (ret (get_sedfiles data_exists data_listing
          (SpectralProcessing.__init__ (F := float) "nowhere")) = Ok [] /\
   self' (get_sedfiles data_exists data_listing
            (SpectralProcessing.__init__ (F := float) "nowhere"))
   = SpectralProcessing.__init__ "nowhere").
Proof.
  split.
  - apply (proj1 (get_sedfiles_sorted data_exists data_listing process));
      reflexivity.
  - apply (proj2 (get_sedfiles_sorted data_exists data_listing
                    (SpectralProcessing.__init__ "nowhere"))).
    reflexivity.
Defined.

(** The listing of the directory [data]. *)
Example get_sedfiles_data :
  ret (get_sedfiles data_exists data_listing process)
  = Ok ["a.sed"; "short.sed"] /\
  stdout (get_sedfiles data_exists data_listing process)
  = [ newline ++ "Files were successfully read!"; "2 .sed files were found." ].
Proof. split; vm_compute; reflexivity. Qed.

Lemma view_first_lines_witness :
  (forall k,
     stdout (view process data_directory "a.sed" (Some k))
     = map (fun il => repr_nat (fst il) ++ " " ++ rstrip (snd il))
           (combine (seq 0 (Z.to_nat (k + 1))) (sed_file 2151))) /\
  (forall k,
     0 <= k ->
     List.length (stdout (view process data_directory "a.sed" (Some k)))
     = Nat.min (Z.to_nat k + 1) (List.length (sed_file 2151))) /\
  stdout (view process data_directory "a.sed" None)
  = map (fun il => repr_nat (fst il) ++ " " ++ strip (snd il))
        (combine (seq 0 (List.length (sed_file 2151))) (sed_file 2151)) /\
  (forall n,
     ret (view process data_directory "a.sed" n) = Ok tt /\
     self' (view process data_directory "a.sed" n) = process).
Proof.
  apply (proj1 (view_first_lines process data_directory "a.sed") (sed_file 2151)).
  reflexivity.
Defined.

(** [view(file, 1)] shows two lines. *)
Example view_two_lines :
  stdout (view process data_directory "a.sed" (Some 1))
  = ["0 Comment: header"; "1 Comment: header"] /\
  stdout (view process data_directory "gone.sed" (Some 1))
  = [newline ++ "Error: The file 'data/gone.sed' does not exist."].
Proof. split; vm_compute; reflexivity. Qed.

End DirectoryRuns.
(** ** What [get_data] loads *)

Section Loading.
Import SpectralProcessing.
Context {F : Type}.
Variable py_float : string -> option F.
Variable round3 : F -> F.

Lemma take_rows_concat (width : nat) (spectra : list (list F)) :
  Forall (fun row => List.length row = width) spectra ->
  take_rows (List.length spectra) width (List.concat spectra) = spectra.
Proof.
  induction 1 as [ | row spectra Hrow _ IH ]; simpl; [ reflexivity | ].
  rewrite firstn_app, skipn_app, Hrow, Nat.sub_diag.
  rewrite firstn_all2, skipn_all2 by lia.
  simpl. rewrite app_nil_r, IH. reflexivity.
Qed.

Lemma concat_length (width : nat) (spectra : list (list F)) :
  Forall (fun row => List.length row = width) spectra ->
  List.length (List.concat spectra) = (List.length spectra * width)%nat.
Proof.
  induction 1 as [ | row spectra Hrow _ IH ]; simpl; [ reflexivity | ].
  rewrite length_app, Hrow, IH. reflexivity.
Qed.

(** The values of a batch whose files all exist are the spectra of the
    files, one after the other. *)
Lemma batch_values_concat (fs : FileSystem) (dir : string) (n : Z)
  (files : list string) (spectra : list (list F)) :
  Forall2 (fun file vals =>
             exists contents,
               fs (path_join dir file) = Some contents /\
               file_values py_float n contents = Ok vals)
          files spectra ->
  batch_values py_float fs dir n files = Ok (List.concat spectra).
Proof.
  induction 1 as [ | file vals files spectra (contents & Hfs & Hvals) _ IH ];
    simpl; [ reflexivity | ].
  rewrite Hfs, Hvals, IH. reflexivity.
Qed.

#[local] Opaque wavelengths.

(** X13. When each file of the batch that exists holds a spectrum of 2151
    values, the table [get_data] returns has the spectra of those files as
    its rows, in the order of the list, each value rounded; the table
    stored in [self.data] holds the same values, not rounded. *)
Theorem get_data_rows (self : t) (fs : FileSystem) (files : list string)
  (n : Z) (spectra : list (list F)) :
  spectra <> [] ->
  Forall2 (fun file vals =>
             exists contents,
               fs (path_join (path self) file) = Some contents /\
               file_values py_float n contents = Ok vals)
          (present fs (path self) files) spectra ->
  Forall (fun vals => List.length vals = wavelengths) spectra ->
  ret (get_data py_float round3 self fs files n)
  = Ok (Some (map (map round3) spectra)) /\
  self' (get_data py_float round3 self fs files n) = set_data self spectra.
Proof.
  intros Hne Hfiles Hlen. pose proof wavelengths_positive as Hw.
  rewrite get_data_outcome, <- batch_values_present.
  rewrite (batch_values_concat _ _ _ _ _ Hfiles). cbv zeta.
  pose proof (concat_length _ _ Hlen) as Hflat.
  pose proof (take_rows_concat _ _ Hlen) as Hrows.
  destruct (List.concat spectra) as [ | v flat ] eqn:Hc.
  { destruct spectra; [ contradiction | simpl in Hflat; lia ]. }
  rewrite Hflat, Nat.div_mul by lia.
  rewrite (reshape_exact _ _ _ Hflat), Hrows. split; reflexivity.
Qed.

(** X14. Whatever the batch, a table [get_data] returns has at least one
    row and 2151 cells in every row, it is the rounding of the table left
    in [self.data], and it takes the wavelength labels 350 to 2500. *)
Theorem get_data_returns_spectra (self : t) (fs : FileSystem)
  (files : list string) (n : Z) (table : Table) :
  ret (get_data py_float round3 self fs files n) = Ok (Some table) ->
  table <> [] /\
  Forall (fun row => List.length row = wavelengths) table /\
  (exists array,
     data (self' (get_data py_float round3 self fs files n)) = Some array /\
     table = map (map round3) array) /\
  Main.labelled table
  = Ok {| SpectralIndices.columns := Main.range 350 wavelengths;
          SpectralIndices.rows := table |}.
Proof.
  pose proof wavelengths_positive as Hw.
  rewrite get_data_outcome. cbv zeta.
  destruct (batch_values py_float fs (path self) n files) as [[ | v flat] | e];
    try discriminate.
  unfold reshape.
  destruct (Nat.eqb_spec (List.length (v :: flat) / wavelengths * wavelengths)
              (List.length (v :: flat))) as [Heq | Hne]; [ | discriminate ].
  cbn [ret self']. intros Ht.
  assert (Ht' : table = map (map round3)
                          (take_rows (List.length (v :: flat) / wavelengths)
                             wavelengths (v :: flat))) by congruence.
  clear Ht. subst table.
  assert (Hwidth : Forall (fun row => List.length row = wavelengths)
                     (map (map round3)
                        (take_rows (List.length (v :: flat) / wavelengths)
                           wavelengths (v :: flat)))).
  { apply Forall_map.
    apply (Forall_impl _ (P := fun row => List.length row = wavelengths)).
    - intros row Hrow. rewrite length_map. exact Hrow.
    - apply take_rows_width. symmetry. exact Heq. }
  split; [ | split; [ exact Hwidth | split ] ].
  - destruct (List.length (v :: flat) / wavelengths)%nat as [ | k ] eqn:Hk;
      [ simpl in Heq; discriminate | ].
    simpl. discriminate.
  - eexists. split; reflexivity.
  - unfold Main.labelled.
    replace (forallb _ _) with true; [ reflexivity | ].
    symmetry. apply forallb_forall. intros row Hin. apply Nat.eqb_eq.
    rewrite Forall_forall in Hwidth. apply Hwidth, Hin.
Qed.

Lemma mapM_raises {A B : Type} (f : A -> result B) (l : list A) (a : A) (e : exn) :
  In a l -> f a = Raise e -> exists e', mapM f l = Raise e'.
Proof.
  induction l as [ | b l IH ]; simpl; [ intros [] | ].
  intros [-> | Hin] Ha.
  - rewrite Ha. eexists. reflexivity.
  - destruct (f b) as [y | e1]; simpl; [ | eexists; reflexivity ].
    destruct (IH Hin Ha) as [e' ->]. eexists. reflexivity.
Qed.

(** X15. One data line that cannot be read, in any file of the batch that
    exists, makes [get_data] raise, whatever the other files hold, and
    leaves the object as it was. *)
Theorem unreadable_line_is_fatal (self : t) (fs : FileSystem)
  (files : list string) (n : Z) (file : string) (contents : list string)
  (i : nat) (line : string) (e : exn) :
  In file files ->
  fs (path_join (path self) file) = Some contents ->
  n <= Z.of_nat i ->
  nth_error contents i = Some line ->
  parse_line py_float line = Raise e ->
  (exists e', ret (get_data py_float round3 self fs files n) = Raise e') /\
  self' (get_data py_float round3 self fs files n) = self.
Proof.
  intros Hin Hfs Hn Hline He.
  assert (Hfile : exists e', file_values py_float n contents = Raise e').
  { unfold file_values. apply (mapM_raises _ _ line e); [ | exact He ].
    rewrite <- (firstn_skipn (Z.to_nat n) contents) in Hline.
    rewrite nth_error_app2 in Hline by (rewrite length_firstn; lia).
    apply nth_error_In in Hline. exact Hline. }
  assert (Hbatch : exists e', batch_values py_float fs (path self) n files = Raise e').
  { clear Hline He Hn. induction files as [ | file' files IH ]; [ destruct Hin | ].
    simpl. destruct Hin as [-> | Hin].
    - rewrite Hfs. destruct Hfile as [e' ->]. eexists. reflexivity.
    - destruct (IH Hin) as [e' Hrest].
      destruct (fs (path_join (path self) file')) as [contents' | ];
        [ | eexists; exact Hrest ].
      destruct (file_values py_float n contents') as [vals | e1]; simpl;
        [ rewrite Hrest | ]; eexists; reflexivity. }
  destruct Hbatch as [e' Hbatch].
  rewrite get_data_outcome, Hbatch. cbv zeta. split; [ eexists | ]; reflexivity.
Qed.

Lemma read_files_ext (fs fs' : FileSystem) (dir dir' : string) (n : Z)
  (files : list string) (data : list F) (printed : list string) :
  (forall file, In file files ->
     match fs (path_join dir file), fs' (path_join dir' file) with
     | Some contents, Some contents' =>
         skipn (Z.to_nat n) contents = skipn (Z.to_nat n) contents'
     | None, None => path_join dir file = path_join dir' file
     | _, _ => False
     end) ->
  read_files py_float fs dir n files data printed
  = read_files py_float fs' dir' n files data printed.
Proof.
  revert data printed.
  induction files as [ | file files IH ]; intros data printed Hsame;
    [ reflexivity | ].
  simpl. pose proof (Hsame file (or_introl eq_refl)) as Hfile.
  assert (Hrest : forall data printed,
            read_files py_float fs dir n files data printed
            = read_files py_float fs' dir' n files data printed).
  { intros data' printed'. apply IH. intros file' Hin. apply Hsame. right. exact Hin. }
  destruct (fs (path_join dir file)) as [contents | ];
    destruct (fs' (path_join dir' file)) as [contents' | ]; try contradiction.
  - rewrite !read_lines_file_values. unfold file_values. rewrite Hfile.
    destruct (mapM (parse_line py_float) (skipn (Z.to_nat n) contents'));
      simpl; [ apply Hrest | reflexivity ].
  - rewrite Hfile. apply Hrest.
Qed.

(** X16. The header of a file is never read: two file systems that hold,
    for each file of the batch, the same lines after the first [n], give
    the same table, the same object and the same printed lines. *)
Theorem header_lines_ignored (self : t) (fs fs' : FileSystem)
  (files : list string) (n : Z) :
  (forall file, In file files ->
     match fs (path_join (path self) file), fs' (path_join (path self) file) with
     | Some contents, Some contents' =>
         skipn (Z.to_nat n) contents = skipn (Z.to_nat n) contents'
     | None, None => True
     | _, _ => False
     end) ->
  get_data py_float round3 self fs files n
  = get_data py_float round3 self fs' files n.
Proof.
  intros Hsame. unfold get_data.
  rewrite (read_files_ext fs fs' (path self) (path self) n files [] []);
    [ reflexivity | ].
  intros file Hin. specialize (Hsame file Hin).
  destruct (fs (path_join (path self) file));
    destruct (fs' (path_join (path self) file)); auto.
Qed.

(** X17. A file given by an absolute name is read where the name says:
    on a batch of absolute names, [self.path] plays no part in what
    [get_data] returns or prints. *)
Theorem absolute_names_ignore_path (self other : t) (fs : FileSystem)
  (files : list string) (n : Z) :
  (forall file, In file files -> String.prefix "/" file = true) ->
  ret (get_data py_float round3 self fs files n)
  = ret (get_data py_float round3 other fs files n) /\
  stdout (get_data py_float round3 self fs files n)
  = stdout (get_data py_float round3 other fs files n).
Proof.
  intros Habs. unfold get_data.
  rewrite (read_files_ext fs fs (path self) (path other) n files [] []).
  - destruct (snd (read_files py_float fs (path other) n files [] []))
      as [[ | v flat] | e]; try (split; reflexivity).
    destruct (reshape _ _ _); split; reflexivity.
  - intros file Hin. unfold path_join. rewrite (Habs file Hin).
    destruct (fs file); reflexivity.
Qed.

End Loading.

Section LoadingRuns.
Import SpectralProcessing Examples.

Lemma get_data_rows_witness :
  ret (get_data float_of_half round3_of_half process data_directory
         ["gone.sed"; "a.sed"] 27)
  = Ok (Some (map (map round3_of_half) one_spectrum)) /\
  self' (get_data float_of_half round3_of_half process data_directory
           ["gone.sed"; "a.sed"] 27)
  = set_data process one_spectrum.
Proof.
  apply (get_data_rows float_of_half round3_of_half process data_directory
           ["gone.sed"; "a.sed"] 27 one_spectrum).
  - discriminate.
  - replace (present data_directory (path process) ["gone.sed"; "a.sed"])
      with ["a.sed"] by reflexivity.
    constructor; [ | constructor ].
    exists (sed_file 2151). split; vm_compute; reflexivity.
  - constructor; [ vm_compute; reflexivity | constructor ].
Defined.

Lemma get_data_returns_spectra_witness :
  one_spectrum <> [] /\
  Forall (fun row => List.length row = wavelengths) one_spectrum /\
  (exists array,
     data (self' (get_data float_of_half round3_of_half process data_directory
                    ["a.sed"] 27)) = Some array /\
     one_spectrum = map (map round3_of_half) array) /\
  Main.labelled one_spectrum
  = Ok {| SpectralIndices.columns := Main.range 350 wavelengths;
          SpectralIndices.rows := one_spectrum |}.
Proof.
  apply (get_data_returns_spectra float_of_half round3_of_half process
           data_directory ["a.sed"] 27 one_spectrum).
  vm_compute. reflexivity.
Defined.

Lemma unreadable_line_is_fatal_witness :
  (exists e',
     ret (get_data float_of_half round3_of_half process blank_directory
            ["a.sed"; "blank.sed"] 27) = Raise e') /\
  self' (get_data float_of_half round3_of_half process blank_directory
           ["a.sed"; "blank.sed"] 27) = process.
Proof.
  apply (unreadable_line_is_fatal float_of_half round3_of_half process
           blank_directory ["a.sed"; "blank.sed"] 27 "blank.sed"
           (List.app (sed_file 1) [newline]) 28 newline
           (IndexError "list index out of range")).
  - right. left. reflexivity.
  - reflexivity.
  - lia.
  - reflexivity.
  - reflexivity.
Defined.

(** The error is the one of the empty line. *)
Example get_data_blank_line :
  ret (get_data float_of_half round3_of_half process blank_directory
         ["a.sed"; "blank.sed"] 27)
  = Raise (IndexError "list index out of range").
Proof. vm_compute. reflexivity. Qed.

Lemma header_lines_ignored_witness :
  get_data float_of_half round3_of_half process data_directory ["a.sed"] 27
  = get_data float_of_half round3_of_half process retitled_directory ["a.sed"] 27.
Proof.
  apply (header_lines_ignored float_of_half round3_of_half process
           data_directory retitled_directory ["a.sed"] 27).
  intros file [<- | []]. vm_compute. reflexivity.
Defined.

Lemma absolute_names_ignore_path_witness :
  ret (get_data float_of_half round3_of_half process data_directory
         ["/data/a.sed"] 27)
  = ret (get_data float_of_half round3_of_half
           (SpectralProcessing.__init__ "elsewhere") data_directory
           ["/data/a.sed"] 27) /\
  stdout (get_data float_of_half round3_of_half process data_directory
            ["/data/a.sed"] 27)
  = stdout (get_data float_of_half round3_of_half
              (SpectralProcessing.__init__ "elsewhere") data_directory
              ["/data/a.sed"] 27).
Proof.
  apply (absolute_names_ignore_path float_of_half round3_of_half process
           (SpectralProcessing.__init__ "elsewhere") data_directory
           ["/data/a.sed"] 27).
  intros file [<- | []]. reflexivity.
Defined.

End LoadingRuns.


(** ** Missing files *)

Section Skipping.
Import SpectralProcessing.
Context {F : Type}.
Variable py_float : string -> option F.
Variable round3 : F -> F.

(** When the batch is read to its end, the lines printed are the reports
    of the missing files, in the order of the list. *)
Lemma read_files_missing (fs : FileSystem) (dir : string) (n : Z)
  (files : list string) (data : list F) (printed : list string) :
  (exists flat, snd (read_files py_float fs dir n files data printed) = Ok flat) ->
  fst (read_files py_float fs dir n files data printed)
  = (printed
     ++ map (fun file => missing_message (path_join dir file))
            (filter (fun file => negb (exists_file fs dir file)) files))%list.
Proof.
  revert data printed.
  induction files as [ | file files IH ]; intros data printed Hok; simpl.
  - rewrite app_nil_r. reflexivity.
  - simpl in Hok. unfold exists_file at 1.
    destruct (fs (path_join dir file)) as [contents | ]; simpl.
    + destruct (read_lines py_float n 0 contents data) as [data' | e].
      * apply IH, Hok.
      * destruct Hok as [flat Hok]. discriminate.
    + rewrite (IH _ _ Hok), <- app_assoc. reflexivity.
Qed.

#[local] Opaque wavelengths.

(** C8. A file of the batch that does not exist is skipped.  The table
    returned, the exception raised and the object left behind are those of
    the batch without the missing files, and unless reading is cut short by
    an exception one line per missing file is printed.  When the files
    that exist each hold a spectrum of 2151 values, and one at least
    exists, the table returned has the spectra of those files as its rows,
    in the order of the list, and the lines printed are the reports of the
    missing files, in the order of the list, and the two lines that tell
    the size of the table. *)
Theorem missing_files_not_fatal (self : t) (fs : FileSystem)
  (files : list string) (n : Z) :
  ret (get_data py_float round3 self fs files n)
  = ret (get_data py_float round3 self fs (present fs (path self) files) n) /\
  self' (get_data py_float round3 self fs files n)
  = self' (get_data py_float round3 self fs (present fs (path self) files) n) /\
  (forall flat,
     batch_values py_float fs (path self) n files = Ok flat ->
     forall file,
       In file files -> fs (path_join (path self) file) = None ->
       In (missing_message (path_join (path self) file))
          (stdout (get_data py_float round3 self fs files n))) /\
  (forall spectra,
     spectra <> [] ->
     Forall2 (fun file vals =>
                exists contents,
                  fs (path_join (path self) file) = Some contents /\
                  file_values py_float n contents = Ok vals)
             (present fs (path self) files) spectra ->
     Forall (fun vals => List.length vals = wavelengths) spectra ->
     ret (get_data py_float round3 self fs files n)
     = Ok (Some (map (map round3) spectra)) /\
     stdout (get_data py_float round3 self fs files n)
     = List.app
         (map (fun file => missing_message (path_join (path self) file))
              (filter (fun file => negb (exists_file fs (path self) file)) files))
         [ newline ++ "Files were successfully loaded!";
           "The dataset has " ++ repr_nat (List.length spectra)
           ++ " rows and " ++ repr_nat wavelengths ++ " columns." ]).
Proof.
  split; [ | split; [ | split ] ].
  - rewrite !get_data_outcome, batch_values_present. cbv zeta.
    destruct (batch_values py_float fs (path self) n files) as [[ | v flat] | e];
      try reflexivity.
    destruct (reshape _ _ _); reflexivity.
  - rewrite !get_data_outcome, batch_values_present. cbv zeta.
    destruct (batch_values py_float fs (path self) n files) as [[ | v flat] | e];
      try reflexivity.
    destruct (reshape _ _ _); reflexivity.
  - rewrite get_data_outcome. cbv zeta.
    intros flat Hflat file Hin Hnone.
    assert (Hprinted :
      In (missing_message (path_join (path self) file))
         (fst (read_files py_float fs (path self) n files [] []))).
    { apply (read_files_reports py_float fs (path self) n files [] [] flat).
      - rewrite read_files_values, Hflat. reflexivity.
      - right. exists file. auto. }
    rewrite Hflat. destruct flat as [ | v flat ].
    + simpl. apply in_or_app. left. exact Hprinted.
    + destruct (reshape _ _ _); simpl; [ apply in_or_app; left | ];
        exact Hprinted.
  - intros spectra Hne Hfiles Hlen. pose proof wavelengths_positive as Hw.
    assert (Hbatch : batch_values py_float fs (path self) n files
                     = Ok (List.concat spectra)).
    { rewrite <- batch_values_present.
      exact (batch_values_concat py_float _ _ _ _ _ Hfiles). }
    assert (Hprinted :
      fst (read_files py_float fs (path self) n files [] [])
      = map (fun file => missing_message (path_join (path self) file))
            (filter (fun file => negb (exists_file fs (path self) file)) files)).
    { rewrite read_files_missing; [ reflexivity | ].
      exists (List.concat spectra). rewrite read_files_values, Hbatch. reflexivity. }
    rewrite get_data_outcome, Hbatch, Hprinted. cbv zeta.
    pose proof (concat_length _ _ Hlen) as Hflat.
    pose proof (take_rows_concat _ _ Hlen) as Hrows.
    destruct (List.concat spectra) as [ | v flat ] eqn:Hc.
    { destruct spectra; [ contradiction | simpl in Hflat; lia ]. }
    rewrite Hflat, Nat.div_mul by lia.
    rewrite (reshape_exact _ _ _ Hflat), Hrows. split; reflexivity.
Qed.

End Skipping.

Section SkippingRuns.
Import SpectralProcessing Examples.

Lemma missing_files_not_fatal_witness :
  ret (get_data float_of_half round3_of_half process data_directory
         ["gone.sed"; "a.sed"; "lost.sed"] 27)
  = Ok (Some (map (map round3_of_half) one_spectrum)) /\
  stdout (get_data float_of_half round3_of_half process data_directory
            ["gone.sed"; "a.sed"; "lost.sed"] 27)
  = List.app
      (map (fun file => missing_message (path_join (path process) file))
           (filter (fun file => negb (exists_file data_directory (path process) file))
                   ["gone.sed"; "a.sed"; "lost.sed"]))
      [ newline ++ "Files were successfully loaded!";
        "The dataset has " ++ repr_nat (List.length one_spectrum)
        ++ " rows and " ++ repr_nat wavelengths ++ " columns." ].
Proof.
  apply (proj2 (proj2 (proj2
           (missing_files_not_fatal float_of_half round3_of_half process
              data_directory ["gone.sed"; "a.sed"; "lost.sed"] 27)))
           one_spectrum).
  - discriminate.
  - replace (present data_directory (path process)
               ["gone.sed"; "a.sed"; "lost.sed"])
      with ["a.sed"] by reflexivity.
    constructor; [ | constructor ].
    exists (sed_file 2151). split; vm_compute; reflexivity.
  - constructor; [ vm_compute; reflexivity | constructor ].
Defined.

(** The lines printed for that batch. *)
Example missing_files_reported :
  stdout (get_data float_of_half round3_of_half process data_directory
            ["gone.sed"; "a.sed"; "lost.sed"] 27)
  = [ newline ++ "Error: The file 'data/gone.sed' does not exist.";
      newline ++ "Error: The file 'data/lost.sed' does not exist.";
      newline ++ "Files were successfully loaded!";
      "The dataset has 1 rows and 2151 columns." ].
Proof. vm_compute. reflexivity. Qed.

End SkippingRuns.

(** ** From the directory to the table *)

Section Batch.
Import SpectralProcessing.
Context {F : Type}.
Variable py_float : string -> option F.
Variable round3 : F -> F.
Variable path_exists : string -> bool.
Variable listdir : string -> result (list string).

(** A batch without a missing file prints no report. *)
Lemma read_files_quiet (fs : FileSystem) (dir : string) (n : Z)
  (files : list string) (data : list F) (printed : list string) :
  (forall file, In file files -> fs (path_join dir file) <> None) ->
  (exists flat, snd (read_files py_float fs dir n files data printed) = Ok flat) ->
  fst (read_files py_float fs dir n files data printed) = printed.
Proof.
  revert data printed.
  induction files as [ | file files IH ]; intros data printed Hall Hok;
    [ reflexivity | ].
  simpl in Hok |- *.
  pose proof (Hall file (or_introl eq_refl)) as Hfile.
  destruct (fs (path_join dir file)) as [contents | ]; [ | contradiction ].
  destruct (read_lines py_float n 0 contents data) as [data' | e].
  - apply IH; [ | exact Hok ]. intros file' Hin. apply Hall. right. exact Hin.
  - destruct Hok as [flat Hok]. discriminate.
Qed.

#[local] Opaque wavelengths.

(** X18. The files [get_sedfiles] lists are the ones [get_data] opens:
    when every entry of the directory that ends in [.sed] can be opened and
    holds a spectrum of 2151 values, and there is such an entry, [get_data]
    on the list returned by [get_sedfiles] reports no missing file and
    returns a table with one row for each of those entries. *)
Theorem listed_files_load (self : t) (fs : FileSystem) (n : Z)
  (entries : list string) :
  path_exists (path self) = true ->
  listdir (path self) = Ok entries ->
  (forall entry,
     In entry entries -> endswith ".sed" entry = true ->
     exists contents vals,
       fs (path_join (path self) entry) = Some contents /\
       file_values py_float n contents = Ok vals /\
       List.length vals = wavelengths) ->
  (exists entry, In entry entries /\ endswith ".sed" entry = true) ->
  exists found table,
    ret (get_sedfiles path_exists listdir self) = Ok found /\
    ret (get_data py_float round3
           (self' (get_sedfiles path_exists listdir self)) fs found n)
    = Ok (Some table) /\
    List.length table = List.length (filter (endswith ".sed") entries) /\
    stdout (get_data py_float round3
              (self' (get_sedfiles path_exists listdir self)) fs found n)
    = [ newline ++ "Files were successfully loaded!";
        "The dataset has " ++ repr_nat (List.length table)
        ++ " rows and " ++ repr_nat wavelengths ++ " columns." ].
Proof.
  intros He Hl Hall (entry & Hin & Hsed).
  pose proof wavelengths_positive as Hw.
  unfold get_sedfiles. rewrite He, Hl. cbn [negb ret self'].
  set (found := sorted (filter (endswith ".sed") entries)).
  assert (Hfound : forall file, In file found ->
            In file entries /\ endswith ".sed" file = true).
  { intros file Hf. apply filter_In.
    apply (Permutation_in _ (sorted_perm _)). exact Hf. }
  assert (Hlen : List.length found
                 = List.length (filter (endswith ".sed") entries)).
  { apply Permutation_length, sorted_perm. }
  assert (Hcomplete : forall file, In file found ->
            exists contents vals,
              fs (path_join (path self) file) = Some contents /\
              file_values py_float n contents = Ok vals /\
              List.length vals = wavelengths).
  { intros file Hf. destruct (Hfound file Hf) as [H1 H2]. exact (Hall file H1 H2). }
  destruct (batch_values_complete py_float fs (path self) n found Hcomplete)
    as (flat & Hflat & Hsize).
  assert (Hpos : (0 < List.length found)%nat).
  { rewrite Hlen.
    assert (Hi : In entry (filter (endswith ".sed") entries))
      by (apply filter_In; split; assumption).
    destruct (filter (endswith ".sed") entries); [ destruct Hi | simpl; lia ]. }
  assert (Hquiet : fst (read_files py_float fs (path self) n found [] []) = []).
  { apply read_files_quiet.
    - intros file Hf. destruct (Hcomplete file Hf) as (contents & _ & Hfs & _).
      rewrite Hfs. discriminate.
    - exists flat. rewrite read_files_values, Hflat. reflexivity. }
  exists found. eexists.
  split; [ reflexivity | ].
  rewrite get_data_outcome. cbn [path set_files]. rewrite Hflat, Hquiet.
  cbv zeta.
  destruct flat as [ | v flat ]; [ simpl in Hsize; lia | ].
  rewrite Hsize, Nat.div_mul by lia.
  rewrite (reshape_exact _ _ _ Hsize). cbn [ret stdout].
  split; [ reflexivity | ].
  rewrite length_map, take_rows_length.
  split; [ exact Hlen | reflexivity ].
Qed.

End Batch.

Section BatchRuns.
Import SpectralProcessing Examples.

Lemma listed_files_load_witness :
  exists found table,
    ret (get_sedfiles data_exists tidy_listing process) = Ok found /\
    ret (get_data float_of_half round3_of_half
           (self' (get_sedfiles data_exists tidy_listing process))
           data_directory found 27)
    = Ok (Some table) /\
    List.length table
    = List.length (filter (endswith ".sed") ["notes.txt"; "a.sed"]) /\
    stdout (get_data float_of_half round3_of_half
              (self' (get_sedfiles data_exists tidy_listing process))
              data_directory found 27)
    = [ newline ++ "Files were successfully loaded!";
        "The dataset has " ++ repr_nat (List.length table)
        ++ " rows and " ++ repr_nat wavelengths ++ " columns." ].
Proof.
  apply (listed_files_load float_of_half round3_of_half data_exists tidy_listing
           process data_directory 27 ["notes.txt"; "a.sed"]).
  - reflexivity.
  - reflexivity.
  - intros entry [<- | [<- | []]] Hsed; [ discriminate Hsed | ].
    exists (sed_file 2151), (repeat 0.5%float 2151).
    repeat split; vm_compute; reflexivity.
  - exists "a.sed". split; [ right; left; reflexivity | reflexivity ].
Defined.

End BatchRuns.
